(** * Chess arena: tournament and match orchestration

    A shallow embedding of [app.py] and [models.py]: the rating engine,
    the bracket generator, the in-memory registries ([rooms],
    [active_matches]), the durable tables ([User], [Tournament], [Match])
    and the socket event handlers that drive them.

    A handler is a function from the state of the process (registries and
    tables, [World]) to the new state and the list of notifications it
    emits, in order.  Writes to the tables take effect at once, as reads
    in the same process see them.  What the handlers get from outside is a
    parameter: the session's user name, the connection id, the clock, the
    permutation drawn by [random.shuffle].  The subscriptions of
    connections to broadcast rooms ([join_room], [leave_room]) belong to
    the transport and are not part of the state; a notification records
    its target. *)

From Stdlib Require Import Reals Lra.
From Stdlib Require Floats.PrimFloat Floats.SpecFloat Floats.FloatOps.
From stdpp Require Import gmap strings list fin_maps.

Local Open Scope Z_scope.

(** ** Rating engine ([calculate_elo]): the formula

    The expression tree of [calculate_elo] evaluated over the real
    numbers, with [py_round] for Python's [round] on a number with no
    [ndigits]: nearest integer, ties to the even neighbour.  This is the
    rating update as the formula gives it.  The handlers below take the
    two new ratings from it, and the proofs about handlers go through for
    any two new ratings: none of them looks into it.  What Python
    computes, in binary floating point and with the errors it raises, is
    [Binary64.calculate_elo] further down. *)

Definition py_round (x : R) : Z :=
  let f := Zfloor x in
  let r := (x - IZR f)%R in
  if Rlt_dec r (1 / 2)%R then f
  else if Rlt_dec (1 / 2)%R r then f + 1
  else if Z.even f then f else f + 1.

Definition expected_score (winner_rating loser_rating : Z) : R :=
  (1 / (1 + Rpower 10 ((IZR loser_rating - IZR winner_rating) / 400)))%R.

Definition calculate_elo_k (winner_rating loser_rating k : Z) : Z * Z :=
  let expected_winner := expected_score winner_rating loser_rating in
  let expected_loser := (1 - expected_winner)%R in
  let new_winner := py_round (IZR winner_rating + IZR k * (1 - expected_winner))%R in
  let new_loser := py_round (IZR loser_rating + IZR k * (0 - expected_loser))%R in
  (new_winner, new_loser).

(** The default argument [k=32]; every call site uses it. *)
Definition calculate_elo (winner_rating loser_rating : Z) : Z * Z :=
  calculate_elo_k winner_rating loser_rating 32.

(** ** Round names ([get_round_name]) *)

Definition get_round_name (num_players : nat) : string :=
  if (num_players <=? 2)%nat then "Final"
  else if (num_players <=? 4)%nat then "Semi Final"
  else if (num_players <=? 8)%nat then "Quarter Final"
  else "Round of 16".

(** ** Bracket generator ([generate_bracket]) *)

Definition BYE : string := "BYE".

(** [range(0, stop, 2)] for [stop >= 0]: the even numbers below [stop].
    The call site passes [len(players) - 1]; for the empty list Python's
    stop is [-1] and the range is empty, as it is for the truncated
    subtraction on [nat]. *)
Definition range_by_2 (stop : nat) : list nat :=
  (λ k, 2 * k)%nat <$> seq 0 (Nat.div2 (S stop)).

(** The body of [generate_bracket] after the shuffle: the loop over the
    even indices, then the bye for an odd count ([players[-1]] is the last
    element). *)
Definition pair_consecutive (players : list string) : list (string * string) :=
  let pairs :=
    (λ i, (nth i players "", nth (S i) players "")) <$>
      range_by_2 (length players - 1) in
  if Nat.odd (length players)
  then pairs ++ [(List.last players "", BYE)]
  else pairs.

(** [random.shuffle] is the standard library's; the embedding takes the
    permutation it performs in this call as a parameter. *)
Definition generate_bracket (shuffle : list string → list string)
    (players : list string) : list (string * string) :=
  pair_consecutive (shuffle players).

(** Structural reading of the same pairing, used in the proofs. *)
Fixpoint pair_up (players : list string) : list (string * string) :=
  match players with
  | a :: b :: rest => (a, b) :: pair_up rest
  | [a] => [(a, BYE)]
  | [] => []
  end.

(** All slots of a bracket, in order. *)
Definition slots (pairs : list (string * string)) : list string :=
  pairs ≫= λ p, [p.1; p.2].

Definition has_bye (p : string * string) : bool :=
  bool_decide (p.1 = BYE) || bool_decide (p.2 = BYE).

(** ** Python dictionaries that are iterated

    [rooms] and [room['players']] are iterated by the handlers, so their
    insertion order is part of the model: an association list with the
    operations of a [dict]. *)

Section dict.
Context {K V : Type} `{EqDecision K}.

Definition dict_get (k : K) (d : list (K * V)) : option V :=
  snd <$> List.find (λ p, bool_decide (p.1 = k)) d.

Definition dict_mem (k : K) (d : list (K * V)) : bool :=
  bool_decide (is_Some (dict_get k d)).

(** [d[k] = v]: an existing key keeps its position, a new one goes last. *)
Definition dict_set (k : K) (v : V) (d : list (K * V)) : list (K * V) :=
  if dict_mem k d
  then (λ p, if bool_decide (p.1 = k) then (k, v) else p) <$> d
  else d ++ [(k, v)].

(** [del d[k]] and [d.pop(k)] for a key that is present. *)
Definition dict_del (k : K) (d : list (K * V)) : list (K * V) :=
  List.filter (λ p, negb (bool_decide (p.1 = k))) d.

Definition dict_keys (d : list (K * V)) : list K := d.*1.
End dict.

(** [str.upper] on a string of ASCII characters, which room codes are.
    Characters outside ASCII, some of which [str.upper] changes too, are
    left as they are. *)
Definition upper_ascii (c : Ascii.ascii) : Ascii.ascii :=
  let n := Ascii.nat_of_ascii c in
  if ((97 <=? n) && (n <=? 122))%nat then Ascii.ascii_of_nat (n - 32) else c.

Fixpoint upper (s : string) : string :=
  match s with
  | EmptyString => EmptyString
  | String c s' => String (upper_ascii c) (upper s')
  end.

(** Truth value of [session.get('username')] and of other optional
    strings: [None] and the empty string are false. *)
Definition truthy (s : option string) : bool :=
  match s with
  | Some x => negb (bool_decide (x = ""))
  | None => false
  end.

(** [parts.remove(username)]: the first occurrence. *)
Fixpoint remove_first (x : string) (l : list string) : list string :=
  match l with
  | [] => []
  | y :: l' => if bool_decide (y = x) then l' else y :: remove_first x l'
  end.

(** ** Data model ([models.py] and the registries of [app.py]) *)

(** The status strings ['waiting'], ['pending'], ['active'], ['completed']. *)
Inductive Status := waiting | pending | active | completed.

#[global] Instance Status_eq_dec : EqDecision Status.
Proof. solve_decision. Defined.

Record User := mkUser {
  username : string;
  total_matches : Z;
  total_wins : Z;
  total_losses : Z;
  total_draws : Z;
  tournaments_played : Z;
  tournament_wins : Z;
  elo_rating : Z
}.

Record Tournament := mkTournament {
  t_room_code : string;
  admin_username : string;
  t_status : Status;
  t_completed_at : option Z;
  participants : list string;
  winner_username : option string;
  current_round : string;
  rounds : list (string * list (string * string))
}.

Record Match := mkMatch {
  tournament_id : Z;
  round_name : string;
  white_player : string;
  black_player : string;
  winner : option string;
  result : option string;
  time_control : Z;
  status : Status;
  completed_at : option Z
}.

(** One entry of [room['bracket']]. *)
Record BracketEntry := mkEntry {
  be_white : string;
  be_black : string;
  be_winner : option string;
  be_status : Status;
  be_match_id : option Z
}.

(** [rooms[room_code]]; [players] maps a username to its connection id. *)
Record Room := mkRoom {
  r_tournament_id : Z;
  admin : string;
  players : list (string * string);
  match_requests : list ((string * string) * Z);
  bracket : list BracketEntry;
  r_status : Status;
  default_time : Z
}.

Inductive Turn := turn_w | turn_b.

#[global] Instance Turn_eq_dec : EqDecision Turn.
Proof. solve_decision. Defined.

(** [active_matches[match_id]]. *)
Record MatchState := mkMatchState {
  ms_room_code : string;
  white : string;
  black : string;
  white_time : Z;
  black_time : Z;
  turn : Turn;
  fen : string;
  ms_status : Status;
  ms_match_id : Z
}.

(** The registries and the tables.  [matches] is the [Match] table in row
    order: row [i] (from 0) has primary key [i + 1], rows are never
    deleted. *)
Record World := mkWorld {
  rooms : list (string * Room);
  active_matches : gmap Z MatchState;
  users : gmap string User;
  tournaments : gmap Z Tournament;
  matches : list Match
}.

Definition set_rooms (w : World) (x : list (string * Room)) : World :=
  mkWorld x (active_matches w) (users w) (tournaments w) (matches w).
Definition set_active_matches (w : World) (x : gmap Z MatchState) : World :=
  mkWorld (rooms w) x (users w) (tournaments w) (matches w).
Definition set_users (w : World) (x : gmap string User) : World :=
  mkWorld (rooms w) (active_matches w) x (tournaments w) (matches w).
Definition set_tournaments (w : World) (x : gmap Z Tournament) : World :=
  mkWorld (rooms w) (active_matches w) (users w) x (matches w).
Definition set_matches (w : World) (x : list Match) : World :=
  mkWorld (rooms w) (active_matches w) (users w) (tournaments w) x.

(** [Match.query.get(id)]. *)
Definition Match_get (id : Z) (w : World) : option Match :=
  if bool_decide (1 ≤ id) then matches w !! Z.to_nat (id - 1) else None.

(** Writing the fields of the row [Match.query.get(id)] returned. *)
Definition Match_put (id : Z) (m : Match) (w : World) : World :=
  set_matches w (<[Z.to_nat (id - 1) := m]> (matches w)).

(** [db.session.add(match); db.session.flush()]: the new row and its key. *)
Definition Match_add (m : Match) (ms : list Match) : list Match * Z :=
  (ms ++ [m], Z.of_nat (length ms) + 1).

(** [Match.query.filter_by(...).all()], rows with their keys. *)
Definition Match_rows (w : World) : list (Z * Match) :=
  imap (λ i m, (Z.of_nat i + 1, m)) (matches w).

Definition Match_filter_by_tournament (tid : Z) (w : World) : list (Z * Match) :=
  List.filter (λ r, bool_decide (tournament_id r.2 = tid)) (Match_rows w).

Definition Match_filter_by_round (tid : Z) (rn : string) (w : World)
    : list (Z * Match) :=
  List.filter (λ r, bool_decide (tournament_id r.2 = tid) &&
                    bool_decide (round_name r.2 = rn)) (Match_rows w).

(** Field updates on rows. *)
Definition user_add (dm dw dl dd : Z) (u : User) : User :=
  mkUser (username u) (total_matches u + dm) (total_wins u + dw)
         (total_losses u + dl) (total_draws u + dd)
         (tournaments_played u) (tournament_wins u) (elo_rating u).
Definition user_set_elo (r : Z) (u : User) : User :=
  mkUser (username u) (total_matches u) (total_wins u) (total_losses u)
         (total_draws u) (tournaments_played u) (tournament_wins u) r.
Definition user_inc_tournament_wins (u : User) : User :=
  mkUser (username u) (total_matches u) (total_wins u) (total_losses u)
         (total_draws u) (tournaments_played u) (tournament_wins u + 1)
         (elo_rating u).
Definition user_inc_tournaments_played (u : User) : User :=
  mkUser (username u) (total_matches u) (total_wins u) (total_losses u)
         (total_draws u) (tournaments_played u + 1) (tournament_wins u)
         (elo_rating u).

Definition room_set_players (x : list (string * string)) (r : Room) : Room :=
  mkRoom (r_tournament_id r) (admin r) x (match_requests r) (bracket r)
         (r_status r) (default_time r).
Definition room_set_bracket (x : list BracketEntry) (r : Room) : Room :=
  mkRoom (r_tournament_id r) (admin r) (players r) (match_requests r) x
         (r_status r) (default_time r).
Definition room_set_status (x : Status) (r : Room) : Room :=
  mkRoom (r_tournament_id r) (admin r) (players r) (match_requests r)
         (bracket r) x (default_time r).
Definition room_set_default_time (x : Z) (r : Room) : Room :=
  mkRoom (r_tournament_id r) (admin r) (players r) (match_requests r)
         (bracket r) (r_status r) x.

Definition tournament_set_participants (x : list string) (t : Tournament)
    : Tournament :=
  mkTournament (t_room_code t) (admin_username t) (t_status t)
               (t_completed_at t) x (winner_username t) (current_round t)
               (rounds t).

(** ** Notifications

    What a handler sends through [emit]/[socketio.emit], in order.  The
    decorative [message] texts of [kicked], [tournament_started],
    [new_round] and [tournament_complete] are left out of the payloads. *)

Inductive Target :=
  | to_caller
  | to_sid (sid : string)
  | to_room (room_code : string)
  | to_match (match_id : Z).

Record Move := mkMove {
  mv_from : option string;
  mv_to : option string;
  mv_promotion : option string
}.

Inductive Event :=
  | ev_error (message : string)
  | ev_room_update (players_info : list User) (adm : string) (st : Status)
      (br : list BracketEntry) (cur : string) (tid : Z)
  | ev_leaderboard_update (cur : string) (ms : list (Z * Match))
      (br : list BracketEntry) (st : Status) (win : option string)
  | ev_tournament_complete (win : string)
  | ev_new_round (rn : string) (br : list BracketEntry)
  | ev_tournament_started (rn : string) (br : list BracketEntry)
  | ev_match_started (mid : Z) (wh bl : string) (color : string) (tc : Z)
  | ev_joined_room (room_code : string) (user : string) (is_admin : bool)
  | ev_player_left (user : string)
  | ev_kicked
  | ev_move_made (mv : Move) (fen_after : string) (t : Turn) (wt bt : Z)
      (by_user : option string)
  | ev_timer_update (wt bt : Z)
  | ev_game_ended (win : option string) (res : string) (wh bl : string)
  | ev_match_result (mid : Z) (win : option string) (res : string)
      (wh bl : string).

Definition Emit : Type := Event * Target.

(** What a handler call comes to: it returns, or an exception leaves it
    after the changes made so far. *)
Inductive Outcome :=
  | Returned (w : World) (out : list Emit)
  | Raised (exn : string) (w : World) (out : list Emit).

Definition start_fen : string :=
  "rnbqkbnr/pppppppp/8/8/8/8/PPPPPPPP/RNBQKBNR w KQkq - 0 1".

(** ** Helpers shared by the handlers *)

(** [emit_room_update(room_code)]. *)
Definition emit_room_update (room_code : string) (w : World) : list Emit :=
  match dict_get room_code (rooms w) with
  | None => []
  | Some room =>
    let tournament := tournaments w !! r_tournament_id room in
    let players_info := omap (λ u, users w !! u) (dict_keys (players room)) in
    [(ev_room_update players_info (admin room) (r_status room) (bracket room)
        (from_option current_round "" tournament) (r_tournament_id room),
      to_room room_code)]
  end.

(** [emit_leaderboard(room_code)]. *)
Definition emit_leaderboard (room_code : string) (w : World) : list Emit :=
  match dict_get room_code (rooms w) with
  | None => []
  | Some room =>
    match tournaments w !! r_tournament_id room with
    | None => []
    | Some tournament =>
      [(ev_leaderboard_update (current_round tournament)
          (Match_filter_by_tournament (r_tournament_id room) w)
          (bracket room) (t_status tournament) (winner_username tournament),
        to_room room_code)]
    end
  end.

(** The loop [for white, black in pairs] that [on_start_tournament] and
    [check_round_complete] both run: a bye becomes a completed bracket
    entry without a row, any other pair a pending [Match] row and a
    pending entry. *)
Definition seat_pair (tid : Z) (rn : string) (tc : Z)
    (acc : list Match * list BracketEntry) (p : string * string)
    : list Match * list BracketEntry :=
  let '(ms, br) := acc in
  let '(wh, bl) := p in
  if bool_decide (bl = BYE)
  then (ms, br ++ [mkEntry wh BYE (Some wh) completed None])
  else
    let '(ms', id) := Match_add (mkMatch tid rn wh bl None None tc pending None) ms in
    (ms', br ++ [mkEntry wh bl None pending (Some id)]).

Definition seat_pairs (tid : Z) (rn : string) (tc : Z)
    (pairs : list (string * string)) (ms : list Match)
    : list Match * list BracketEntry :=
  foldl (seat_pair tid rn tc) (ms, []) pairs.

(** The winners loop of [check_round_complete]:
    [if m.winner and m.winner != 'BYE']. *)
Definition collect_winners (current_round_matches : list (Z * Match))
    : list string :=
  omap (λ r, match winner r.2 with
             | Some x => if truthy (Some x) && negb (bool_decide (x = BYE))
                         then Some x else None
             | None => None
             end) current_round_matches.

(** The counters and ratings block of [handle_match_end].  The two ORM
    objects are the rows of the [users] table under the two names, so the
    writes go to the table one after the other. *)
Definition update_player_stats (m : Match) (win : option string)
    (res : string) (us : gmap string User) : gmap string User :=
  let wp := white_player m in
  let bp := black_player m in
  match us !! wp, us !! bp with
  | Some _, Some _ =>
    let us := alter (user_add 1 0 0 0) wp us in
    let us := alter (user_add 1 0 0 0) bp us in
    if bool_decide (res = "draw") then
      alter (user_add 0 0 0 1) bp (alter (user_add 0 0 0 1) wp us)
    else if bool_decide (win = Some wp) then
      let us := alter (user_add 0 1 0 0) wp us in
      let us := alter (user_add 0 0 1 0) bp us in
      match us !! wp, us !! bp with
      | Some wu, Some bu =>
        let '(new_w, new_b) := calculate_elo (elo_rating wu) (elo_rating bu) in
        alter (user_set_elo new_b) bp (alter (user_set_elo new_w) wp us)
      | _, _ => us
      end
    else if bool_decide (win = Some bp) then
      let us := alter (user_add 0 1 0 0) bp us in
      let us := alter (user_add 0 0 1 0) wp us in
      match us !! bp, us !! wp with
      | Some bu, Some wu =>
        let '(new_b, new_w) := calculate_elo (elo_rating bu) (elo_rating wu) in
        alter (user_set_elo new_w) wp (alter (user_set_elo new_b) bp us)
      | _, _ => us
      end
    else us
  | _, _ => us
  end.

(** The bracket loop of [handle_match_end]: the first entry of this match
    gets the winner and the status, then [break]. *)
Fixpoint bracket_record (match_id : Z) (win : option string)
    (br : list BracketEntry) : list BracketEntry :=
  match br with
  | [] => []
  | e :: rest =>
    if bool_decide (be_match_id e = Some match_id)
    then mkEntry (be_white e) (be_black e) win completed (be_match_id e) :: rest
    else e :: bracket_record match_id win rest
  end.

Definition ms_set_status (x : Status) (s : MatchState) : MatchState :=
  mkMatchState (ms_room_code s) (white s) (black s) (white_time s)
               (black_time s) (turn s) (fen s) x (ms_match_id s).
Definition ms_set_times (wt bt : Z) (s : MatchState) : MatchState :=
  mkMatchState (ms_room_code s) (white s) (black s) wt bt (turn s) (fen s)
               (ms_status s) (ms_match_id s).

(** The notification loop at the end of [on_start_tournament], one
    bracket entry at a time. *)
Definition open_session (room_code : string) (tc : Z) (room : Room)
    (acc : World * list Emit) (entry : BracketEntry) : World * list Emit :=
  let '(w, out) := acc in
  if bool_decide (be_status entry = completed) then (w, out)
  else match be_match_id entry with
  | None => (w, out)
  | Some mid =>
    let wh := be_white entry in
    let bl := be_black entry in
    let match_state :=
      mkMatchState room_code wh bl tc tc turn_w start_fen active mid in
    let w := set_active_matches w (<[mid := match_state]> (active_matches w)) in
    let w := match Match_get mid w with
             | Some m =>
               Match_put mid (mkMatch (tournament_id m) (round_name m)
                 (white_player m) (black_player m) (winner m) (result m)
                 (time_control m) active (completed_at m)) w
             | None => w
             end in
    let note := λ (player color : string),
      if truthy (dict_get player (players room))
      then match dict_get player (players room) with
           | Some player_sid =>
             [(ev_match_started mid wh bl color tc, to_sid player_sid)]
           | None => []
           end
      else [] in
    (w, out ++ note wh "white" ++ note bl "black")
  end.

(** ** The handlers

    [shuffle] is the permutation [random.shuffle] performs during the call
    and [now] the value of [datetime.utcnow()]; [username] stands for
    [session.get('username')] and [sid] for [request.sid]. *)

Section handlers.
Variable shuffle : list string → list string.
Variable now : Z.

(** [check_round_complete(room_code)]. *)
Definition check_round_complete (room_code : string) (w : World)
    : World * list Emit :=
  match dict_get room_code (rooms w) with
  | None => (w, [])
  | Some room =>
    let tid := r_tournament_id room in
    match tournaments w !! tid with
    | None => (w, [])
    | Some tournament =>
      if negb (bool_decide (t_status tournament = active)) then (w, [])
      else
        let current_round_matches :=
          Match_filter_by_round tid (current_round tournament) w in
        let all_complete :=
          forallb (λ r, bool_decide (status r.2 = completed))
                  current_round_matches in
        if negb all_complete then (w, [])
        else
          let winners := collect_winners current_round_matches in
          match winners with
          | [champion] =>
            (* Tournament complete *)
            let tournament :=
              mkTournament (t_room_code tournament) (admin_username tournament)
                completed (Some now) (participants tournament)
                (Some champion) (current_round tournament) (rounds tournament) in
            let room := room_set_status completed room in
            let us := alter user_inc_tournament_wins champion (users w) in
            let us := foldl (λ us u, alter user_inc_tournaments_played u us)
                            us (dict_keys (players room)) in
            let w := mkWorld (dict_set room_code room (rooms w))
                             (active_matches w) us
                             (<[tid := tournament]> (tournaments w))
                             (matches w) in
            (w, (ev_tournament_complete champion, to_room room_code)
                  :: emit_leaderboard room_code w)
          | _ =>
            (* Start next round *)
            let rn := get_round_name (length winners) in
            let pairs := generate_bracket shuffle winners in
            let '(ms, br) :=
              seat_pairs tid rn (default_time room) pairs (matches w) in
            let room := room_set_bracket br room in
            let tournament :=
              mkTournament (t_room_code tournament) (admin_username tournament)
                (t_status tournament) (t_completed_at tournament)
                (participants tournament) (winner_username tournament)
                rn (rounds tournament ++ [(rn, pairs)]) in
            let w := mkWorld (dict_set room_code room (rooms w))
                             (active_matches w) (users w)
                             (<[tid := tournament]> (tournaments w)) ms in
            (w, (ev_new_round rn br, to_room room_code)
                  :: emit_leaderboard room_code w)
          end
    end
  end.

(** [handle_match_end(match_id, winner, result)]. *)
Definition handle_match_end (match_id : Z) (win : option string)
    (res : string) (w : World) : World * list Emit :=
  match active_matches w !! match_id with
  | None => (w, [])
  | Some state =>
    if negb (bool_decide (ms_status state = active)) then (w, [])
    else
      let state := ms_set_status completed state in
      let w := set_active_matches w (<[match_id := state]> (active_matches w)) in
      match Match_get match_id w with
      | None => (w, [])
      | Some m0 =>
        let m := mkMatch (tournament_id m0) (round_name m0) (white_player m0)
                   (black_player m0) win (Some res) (time_control m0)
                   completed (Some now) in
        let w := Match_put match_id m w in
        (* Update player stats *)
        let w := set_users w (update_player_stats m win res (users w)) in
        let out1 :=
          [(ev_game_ended win res (white_player m) (black_player m),
            to_match match_id)] in
        (* Update bracket in room *)
        let room_code := ms_room_code state in
        let '(w, out2) :=
          if negb (bool_decide (room_code = ""))
          then match dict_get room_code (rooms w) with
               | Some room =>
                 let room :=
                   room_set_bracket
                     (bracket_record match_id win (bracket room)) room in
                 let w := set_rooms w (dict_set room_code room (rooms w)) in
                 let o1 :=
                   [(ev_match_result match_id win res (white_player m)
                       (black_player m), to_room room_code)] in
                 let o2 := emit_leaderboard room_code w in
                 let '(w, o3) :=
                   if negb (bool_decide (round_name m = "Friendly"))
                   then check_round_complete room_code w
                   else (w, []) in
                 (w, o1 ++ o2 ++ o3)
               | None => (w, [])
               end
          else (w, []) in
        (* Clean up *)
        (set_active_matches w (delete match_id (active_matches w)),
         out1 ++ out2)
      end
  end.

(** [on_update_timer(data)]. *)
Definition on_update_timer (match_id wt bt : Z) (username : option string)
    (w : World) : World * list Emit :=
  match active_matches w !! match_id with
  | None => (w, [])
  | Some state =>
    if negb (bool_decide (ms_status state = active)) then (w, [])
    else if negb (bool_decide (username = Some (white state))) then (w, [])
    else
      let state := ms_set_times wt bt state in
      let w := set_active_matches w (<[match_id := state]> (active_matches w)) in
      if bool_decide (wt ≤ 0)
      then handle_match_end match_id (Some (black state)) "timeout" w
      else if bool_decide (bt ≤ 0)
      then handle_match_end match_id (Some (white state)) "timeout" w
      else (w, [(ev_timer_update wt bt, to_match match_id)])
  end.

(** [on_game_over(data)]. *)
Definition on_game_over (match_id : Z) (res : string) (win : option string)
    (username : option string) (w : World) : World * list Emit :=
  match active_matches w !! match_id with
  | None => (w, [])
  | Some state =>
    if negb (bool_decide (ms_status state = active)) then (w, [])
    else if negb (bool_decide (username = Some (white state)
                               ∨ username = Some (black state)))
    then (w, [])
    else handle_match_end match_id win res w
  end.

(** [on_resign(data)]. *)
Definition on_resign (match_id : Z) (username : option string) (w : World)
    : World * list Emit :=
  match active_matches w !! match_id with
  | None => (w, [])
  | Some state =>
    if negb (bool_decide (ms_status state = active)) then (w, [])
    else if negb (bool_decide (username = Some (white state)
                               ∨ username = Some (black state)))
    then (w, [])
    else
      let win := if bool_decide (username = Some (white state))
                 then black state else white state in
      handle_match_end match_id (Some win) "resignation" w
  end.

(** [on_force_next_round(data)]. *)
Definition on_force_next_round (room_code_raw : string)
    (username : option string) (w : World) : World * list Emit :=
  let room_code := upper room_code_raw in
  if negb (truthy username) then (w, [])
  else match dict_get room_code (rooms w) with
  | None => (w, [])
  | Some room =>
    if negb (bool_decide (username = Some (admin room)))
    then (w, [(ev_error "Only admin can force next round", to_caller)])
    else check_round_complete room_code w
  end.

(** [on_start_tournament(data)]. *)
Definition on_start_tournament (room_code_raw : string) (tc : Z)
    (username : option string) (w : World) : Outcome :=
  let room_code := upper room_code_raw in
  if negb (truthy username) then Returned w []
  else match dict_get room_code (rooms w) with
  | None => Returned w []
  | Some room =>
    if negb (bool_decide (username = Some (admin room)))
    then Returned w [(ev_error "Only admin can start tournament", to_caller)]
    else
      let names := dict_keys (players room) in
      if bool_decide (length names < 2)%nat
      then Returned w [(ev_error "Need at least 2 players to start", to_caller)]
      else if bool_decide (10 < length names)%nat
      then Returned w [(ev_error "Maximum 10 players allowed", to_caller)]
      else
        let room := room_set_default_time tc (room_set_status active room) in
        let w := set_rooms w (dict_set room_code room (rooms w)) in
        let tid := r_tournament_id room in
        match tournaments w !! tid with
        | None => Raised "AttributeError" w []
        | Some tournament =>
          let rn := get_round_name (length names) in
          let pairs := generate_bracket shuffle names in
          let '(ms, br) := seat_pairs tid rn tc pairs (matches w) in
          let tournament :=
            mkTournament (t_room_code tournament) (admin_username tournament)
              active (t_completed_at tournament) names
              (winner_username tournament) rn [(rn, pairs)] in
          let room := room_set_bracket br room in
          let w := mkWorld (dict_set room_code room (rooms w))
                           (active_matches w) (users w)
                           (<[tid := tournament]> (tournaments w)) ms in
          let out1 := (ev_tournament_started rn br, to_room room_code)
                        :: emit_leaderboard room_code w in
          (* Notify matched players *)
          let '(w, out2) := foldl (open_session room_code tc room) (w, []) br in
          Returned w (out1 ++ out2)
        end
  end.
End handlers.

(** [on_make_move(data)]. *)
Definition on_make_move (match_id : Z) (move : option Move)
    (fen_after : string) (username : option string) (w : World)
    : World * list Emit :=
  let inactive := (w, [(ev_error "Match not active", to_caller)]) in
  let not_your_turn := (w, [(ev_error "Not your turn", to_caller)]) in
  match active_matches w !! match_id with
  | None => inactive
  | Some state =>
    if negb (bool_decide (ms_status state = active)) then inactive
    else if bool_decide (turn state = turn_w)
            && negb (bool_decide (username = Some (white state)))
    then not_your_turn
    else if bool_decide (turn state = turn_b)
            && negb (bool_decide (username = Some (black state)))
    then not_your_turn
    else match move with
    | None => (w, [(ev_error "Invalid move format", to_caller)])
    | Some mv =>
      if negb (truthy (mv_from mv)) || negb (truthy (mv_to mv))
      then (w, [(ev_error "Invalid move format", to_caller)])
      else
        let t := match turn state with turn_w => turn_b | turn_b => turn_w end in
        let state :=
          mkMatchState (ms_room_code state) (white state) (black state)
            (white_time state) (black_time state) t fen_after
            (ms_status state) (ms_match_id state) in
        (set_active_matches w (<[match_id := state]> (active_matches w)),
         [(ev_move_made mv fen_after t (white_time state) (black_time state)
             username, to_match match_id)])
    end
  end.

(** [on_disconnect()]: the first room, in the order of [rooms], that has
    the user among its players. *)
Definition on_disconnect (username : option string) (w : World)
    : World * list Emit :=
  match username with
  | None => (w, [])
  | Some u =>
    if bool_decide (u = "") then (w, [])
    else match List.find (λ cr, dict_mem u (players cr.2)) (rooms w) with
    | None => (w, [])
    | Some (room_code, room) =>
      let room' := room_set_players (dict_del u (players room)) room in
      let w := set_rooms w (dict_set room_code room' (rooms w)) in
      let w :=
        if bool_decide (r_status room' = waiting)
        then match tournaments w !! r_tournament_id room' with
             | Some tournament =>
               let parts := participants tournament in
               let parts := if bool_decide (u ∈ parts)
                            then remove_first u parts else parts in
               set_tournaments w
                 (<[r_tournament_id room' :=
                      tournament_set_participants parts tournament]>
                    (tournaments w))
             | None => w
             end
        else w in
      (w, emit_room_update room_code w
            ++ [(ev_player_left u, to_room room_code)])
    end
  end.

(** [on_join_room(data)]. *)
Definition on_join_room (room_code_raw : string) (username : option string)
    (sid : string) (w : World) : World * list Emit :=
  let room_code := upper room_code_raw in
  let invalid := (w, [(ev_error "Invalid room or not logged in", to_caller)]) in
  match username with
  | None => invalid
  | Some u =>
    if bool_decide (u = "") then invalid
    else match dict_get room_code (rooms w) with
    | None => invalid
    | Some room =>
      if negb (bool_decide (r_status room = waiting))
         && negb (dict_mem u (players room))
      then (w, [(ev_error "Tournament already in progress", to_caller)])
      else if bool_decide (10 ≤ length (players room))%nat
              && negb (dict_mem u (players room))
      then (w, [(ev_error "Room is full", to_caller)])
      else
        let room' := room_set_players (dict_set u sid (players room)) room in
        let w := set_rooms w (dict_set room_code room' (rooms w)) in
        (* Update tournament participants *)
        let w :=
          match tournaments w !! r_tournament_id room' with
          | Some tournament =>
            let parts := participants tournament in
            let parts := if bool_decide (u ∈ parts)
                         then parts else parts ++ [u] in
            set_tournaments w
              (<[r_tournament_id room' :=
                   tournament_set_participants parts tournament]>
                 (tournaments w))
          | None => w
          end in
        (w, (ev_joined_room room_code u (bool_decide (u = admin room')),
             to_caller) :: emit_room_update room_code w)
    end
  end.

(** [on_remove_player(data)]; [target] is [data.get('username')]. *)
Definition on_remove_player (room_code_raw : string) (target : string)
    (username : option string) (w : World) : World * list Emit :=
  let room_code := upper room_code_raw in
  if negb (truthy username) then (w, [])
  else match dict_get room_code (rooms w) with
  | None => (w, [])
  | Some room =>
    if negb (bool_decide (username = Some (admin room)))
    then (w, [(ev_error "Only admin can remove players", to_caller)])
    else match dict_get target (players room) with
    | Some target_sid =>
      let room' := room_set_players (dict_del target (players room)) room in
      let w := set_rooms w (dict_set room_code room' (rooms w)) in
      (w, (ev_kicked, to_sid target_sid) :: emit_room_update room_code w)
    | None => (w, [])
    end
  end.

(** ** Events addressed to one match

    The three ways into [handle_match_end], and every client event that
    names a match, as data: this is what the statements about sequences of
    events quantify over. *)

Inductive Termination :=
  | by_clock (wt bt : Z) (username : option string)
  | by_result (res : string) (win : option string) (username : option string)
  | by_resignation (username : option string).

Definition terminate (shuffle : list string → list string) (now : Z)
    (match_id : Z) (t : Termination) (w : World) : World * list Emit :=
  match t with
  | by_clock wt bt username =>
    on_update_timer shuffle now match_id wt bt username w
  | by_result res win username =>
    on_game_over shuffle now match_id res win username w
  | by_resignation username => on_resign shuffle now match_id username w
  end.

(** The guards of the entry point pass on the session [st], so that the
    call reaches [handle_match_end]. *)
Definition fires (st : MatchState) (t : Termination) : Prop :=
  match t with
  | by_clock wt bt username =>
    username = Some (white st) ∧ (wt ≤ 0 ∨ bt ≤ 0)
  | by_result _ _ username | by_resignation username =>
    username = Some (white st) ∨ username = Some (black st)
  end.

Inductive MatchEvent :=
  | move_event (move : option Move) (fen_after : string)
      (username : option string)
  | end_event (shuffle : list string → list string) (now : Z)
      (t : Termination).

Definition deliver (match_id : Z) (e : MatchEvent) (w : World)
    : World * list Emit :=
  match e with
  | move_event move fen_after username =>
    on_make_move match_id move fen_after username w
  | end_event shuffle now t => terminate shuffle now match_id t w
  end.

(** A sequence of events, one after the other; the notifications add up. *)
Fixpoint deliver_all (match_id : Z) (es : list MatchEvent) (w : World)
    : World * list Emit :=
  match es with
  | [] => (w, [])
  | e :: es' =>
    let '(w1, out1) := deliver match_id e w in
    let '(w2, out2) := deliver_all match_id es' w1 in
    (w2, out1 ++ out2)
  end.

(** The session of a match is gone or no longer active. *)
Definition session_closed (match_id : Z) (w : World) : Prop :=
  match active_matches w !! match_id with
  | None => True
  | Some st => ms_status st ≠ active
  end.

(** The three shapes of a completed [Match] row that the data model
    names: a draw without winner, or one of the two players as winner. *)
Definition winner_among_players (m : Match) : Prop :=
  (winner m = None ∧ result m = Some "draw")
  ∨ winner m = Some (white_player m)
  ∨ winner m = Some (black_player m).

Definition room_of (room_code : string) (w : World) : option Room :=
  dict_get room_code (rooms w).

(** ** A run of the handlers

    The world right after [create_room] by alice (room code [ROOM01],
    tournament 1, users as [login] creates them), and the states the
    handlers lead to from there. *)

Definition new_user (name : string) : User := mkUser name 0 0 0 0 0 0 1200.

Definition world_created : World :=
  mkWorld
    [("ROOM01", mkRoom 1 "alice" [] [] [] waiting 300)]
    ∅
    (list_to_map [("alice", new_user "alice"); ("bob", new_user "bob");
                  ("carol", new_user "carol")])
    {[ 1 := mkTournament "ROOM01" "alice" waiting None [] None "" [] ]}
    [].

Definition keep_order (l : list string) : list string := l.

Definition world_after (w : Outcome) : World :=
  match w with Returned w _ | Raised _ w _ => w end.

(** alice and bob have joined. *)
Definition world_two_joined : World :=
  (on_join_room "room01" (Some "bob") "sid-bob"
     (on_join_room "room01" (Some "alice") "sid-alice" world_created).1).1.

(** alice, bob and carol have joined. *)
Definition world_three_joined : World :=
  (on_join_room "room01" (Some "carol") "sid-carol" world_two_joined).1.

(** alice has started the tournament, with two and with three players. *)
Definition world_two_started : World :=
  world_after (on_start_tournament keep_order "room01" 300 (Some "alice")
                 world_two_joined).

Definition world_three_started : World :=
  world_after (on_start_tournament keep_order "room01" 300 (Some "alice")
                 world_three_joined).

(** ** What round advancement leaves alone

    [w1] comes from [w0] by steps that only append [Match] rows, keep the
    sessions, and keep every user's [total_matches]. *)
Definition keeps_played (w0 w1 : World) : Prop :=
  (∃ extra, matches w1 = matches w0 ++ extra)
  ∧ active_matches w1 = active_matches w0
  ∧ ∀ name, total_matches <$> (users w1 !! name)
            = total_matches <$> (users w0 !! name).

(** The row [handle_match_end] writes over the row [m0]. *)
Definition closed_row (now : Z) (win : option string) (res : string)
    (m0 : Match) : Match :=
  mkMatch (tournament_id m0) (round_name m0) (white_player m0)
          (black_player m0) win (Some res) (time_control m0) completed
          (Some now).

(** What an entry point whose guards pass hands to [handle_match_end]:
    the session as the entry point leaves it ([on_update_timer] stores the
    reported clocks first), and the winner and result it passes. *)
Definition session_after_report (st : MatchState) (t : Termination)
    : MatchState :=
  match t with
  | by_clock wt bt _ => ms_set_times wt bt st
  | _ => st
  end.

Definition verdict (st : MatchState) (t : Termination)
    : option string * string :=
  match t with
  | by_clock wt _ _ =>
    (Some (if bool_decide (wt ≤ 0) then black st else white st), "timeout")
  | by_result res win _ => (win, res)
  | by_resignation username =>
    (Some (if bool_decide (username = Some (white st))
           then black st else white st), "resignation")
  end.

(** The session and the [Match] row of match 1 in [world_two_started]. *)
Definition session_1 : MatchState :=
  mkMatchState "ROOM01" "alice" "bob" 300 300 turn_w start_fen active 1.

Definition row_1 : Match :=
  mkMatch 1 "Final" "alice" "bob" None None 300 active None.

(** [world_two_started] with the row of match 1 missing from the table. *)
Definition world_row_missing : World := set_matches world_two_started [].

(** The socket event name of a notification. *)
Definition event_name (e : Event) : string :=
  match e with
  | ev_error _ => "error"
  | ev_room_update _ _ _ _ _ _ => "room_update"
  | ev_leaderboard_update _ _ _ _ _ => "leaderboard_update"
  | ev_tournament_complete _ => "tournament_complete"
  | ev_new_round _ _ => "new_round"
  | ev_tournament_started _ _ => "tournament_started"
  | ev_match_started _ _ _ _ _ => "match_started"
  | ev_joined_room _ _ _ => "joined_room"
  | ev_player_left _ => "player_left"
  | ev_kicked => "kicked"
  | ev_move_made _ _ _ _ _ _ => "move_made"
  | ev_timer_update _ _ => "timer_update"
  | ev_game_ended _ _ _ _ => "game_ended"
  | ev_match_result _ _ _ _ _ => "match_result"
  end.

Definition emitted_names (out : list Emit) : list string :=
  (λ e, event_name e.1) <$> out.

(** ** Outcomes of [on_start_tournament] *)

Definition emits_of (o : Outcome) : list Emit :=
  match o with Returned _ out | Raised _ _ out => out end.

Definition returned (o : Outcome) : bool :=
  match o with Returned _ _ => true | Raised _ _ _ => false end.

(** The guards [on_start_tournament] checks on the caller and the room. *)
Definition start_guards (username : option string) (room : Room) : Prop :=
  truthy username = true ∧ username = Some (admin room)
  ∧ (2 ≤ length (players room) ≤ 10)%nat.

(** bob's connection drops after the tournament has started. *)
Definition world_bob_dropped : World :=
  (on_disconnect (Some "bob") world_two_started).1.

(** The room [ROOM01] in [world_two_joined] and in [world_two_started]. *)
Definition room_two_joined : Room :=
  mkRoom 1 "alice" [("alice", "sid-alice"); ("bob", "sid-bob")] [] []
         waiting 300.

Definition room_two_started : Room :=
  mkRoom 1 "alice" [("alice", "sid-alice"); ("bob", "sid-bob")] []
         [mkEntry "alice" "bob" None pending (Some 1)] active 300.

(** ** Friendly match offers and room creation

    The remaining handlers of [app.py] that change the registries.  Their
    notifications include events the handlers above never send, so they
    emit a [Notice]: an [Event] or one of the offer events. *)

Inductive Notice :=
  | base_event (e : Event)
  | ev_match_request_received (from_user : string) (tc : Z)
      (room_code : string)
  | ev_match_request_declined (by_user : string).

(** The time control test of [on_match_request]:
    [if time_control not in [60, 180, 300, 600]
        and not (60 <= time_control <= 3600): time_control = 300]. *)
Definition normalise_time_control (tc : Z) : Z :=
  if negb (bool_decide (tc ∈ [60; 180; 300; 600]))
     && negb (bool_decide (60 ≤ tc ≤ 3600))
  then 300 else tc.

Definition room_set_match_requests (x : list ((string * string) * Z))
    (r : Room) : Room :=
  mkRoom (r_tournament_id r) (admin r) (players r) x (bracket r)
         (r_status r) (default_time r).

(** [on_match_request(data)]; [opponent] is [data.get('opponent')]. *)
Definition on_match_request (room_code_raw : string) (opponent : string)
    (tc : Z) (username : option string) (w : World)
    : World * list (Notice * Target) :=
  let room_code := upper room_code_raw in
  match username with
  | None => (w, [])
  | Some u =>
    if bool_decide (u = "") then (w, [])
    else match dict_get room_code (rooms w) with
    | None => (w, [])
    | Some room =>
      if negb (dict_mem u (players room))
         || negb (dict_mem opponent (players room))
      then (w, [])
      else
        let tc := normalise_time_control tc in
        let room' :=
          room_set_match_requests
            (dict_set (u, opponent) tc (match_requests room)) room in
        let w := set_rooms w (dict_set room_code room' (rooms w)) in
        (* Emit to opponent *)
        (w, if truthy (dict_get opponent (players room'))
            then match dict_get opponent (players room') with
                 | Some opponent_sid =>
                   [(ev_match_request_received u tc room_code,
                     to_sid opponent_sid)]
                 | None => []
                 end
            else [])
    end
  end.

(** [on_match_response(data)]; [accepted] is the truth value of
    [data.get('accepted', False)]. *)
Definition on_match_response (room_code_raw : string) (requester : string)
    (accepted : bool) (username : option string) (w : World)
    : World * list (Notice * Target) :=
  let room_code := upper room_code_raw in
  match username with
  | None => (w, [])
  | Some u =>
    if bool_decide (u = "") then (w, [])
    else match dict_get room_code (rooms w) with
    | None => (w, [])
    | Some room =>
      let request_key := (requester, u) in
      match dict_get request_key (match_requests room) with
      | None =>
        (w, [(base_event (ev_error "Match request not found"), to_caller)])
      | Some tc =>
        let room' :=
          room_set_match_requests
            (dict_del request_key (match_requests room)) room in
        let w := set_rooms w (dict_set room_code room' (rooms w)) in
        let sid_of := λ player,
          if truthy (dict_get player (players room'))
          then dict_get player (players room') else None in
        if negb accepted
        then (w, match sid_of requester with
                 | Some requester_sid =>
                   [(ev_match_request_declined u, to_sid requester_sid)]
                 | None => []
                 end)
        else
          (* Create match *)
          let '(ms, id) :=
            Match_add (mkMatch (r_tournament_id room') "Friendly" requester u
                         None None tc active None) (matches w) in
          let match_state :=
            mkMatchState room_code requester u tc tc turn_w start_fen
              active id in
          let w := mkWorld (rooms w)
                           (<[id := match_state]> (active_matches w))
                           (users w) (tournaments w) ms in
          (* Notify both players *)
          let note := λ player,
            match sid_of player with
            | Some player_sid =>
              [(base_event
                  (ev_match_started id requester u
                     (if bool_decide (player = requester)
                      then "white" else "black") tc),
                to_sid player_sid)]
            | None => []
            end in
          (w, note requester ++ note u)
      end
    end
  end.

(** The answer of an HTTP route: an error with its status code, or the
    room code. *)
Inductive ApiResult :=
  | api_error (message : string) (http_status : Z)
  | api_room_code (room_code : string).

(** [create_room()].  [draws] are the successive results of
    [generate_room_code()] and [tid] is the key the tournaments table
    gives the new row.  The [while] loop keeps drawing until a code is
    not in [rooms]; [None] stands for the loop still running when the
    draws given are used up.  The request is the one whose commit goes
    through: the table refusing the row, because a tournament of an
    earlier run of the process has the code already, is not an outcome
    here. *)
Definition create_room (draws : list string) (tid : Z)
    (username : option string) (w : World) : option (World * ApiResult) :=
  match username with
  | None => Some (w, api_error "Not logged in" 401)
  | Some u =>
    match List.find (λ c, negb (dict_mem c (rooms w))) draws with
    | None => None
    | Some room_code =>
      let tournament :=
        mkTournament room_code u waiting None [] None "" [] in
      let room := mkRoom tid u [] [] [] waiting 300 in
      Some (mkWorld (dict_set room_code room (rooms w)) (active_matches w)
                    (users w) (<[tid := tournament]> (tournaments w))
                    (matches w),
            api_room_code room_code)
    end
  end.

(** [join_room_api()]; [strip] is [str.strip]. *)
Definition join_room_api (strip : string → string) (room_code_raw : string)
    (username : option string) (w : World) : ApiResult :=
  match username with
  | None => api_error "Not logged in" 401
  | Some _ =>
    let room_code := upper (strip room_code_raw) in
    match dict_get room_code (rooms w) with
    | None => api_error "Room not found" 404
    | Some room =>
      if negb (bool_decide (r_status room = waiting))
      then api_error "Tournament already started" 400
      else if bool_decide (10 ≤ length (players room))%nat
      then api_error "Room is full (max 10 players)" 400
      else api_room_code room_code
    end
  end.

(** ** Invariants of the room registry *)

(** No name twice among the players of a room, and at most ten of them. *)
Definition room_ok (room : Room) : Prop :=
  NoDup (dict_keys (players room)) ∧ (length (players room) ≤ 10)%nat.

(** [rooms] is a dictionary (no room code twice) of such rooms. *)
Definition rooms_ok (w : World) : Prop :=
  NoDup (dict_keys (rooms w)) ∧ ∀ cr, cr ∈ rooms w → room_ok cr.2.

(** The user is among the players of no room. *)
Definition in_no_room (u : string) (w : World) : Prop :=
  ∀ cr, cr ∈ rooms w → dict_get u (players cr.2) = None.

(** The counters of a [User] row that [handle_match_end] may write,
    without [total_matches]. *)
Definition score (u : User) : Z * Z * Z * Z :=
  (total_wins u, total_losses u, total_draws u, elo_rating u).

(** ** Brackets and rows

    How a bracket entry [e] stands to the pair [p] it was made from, in
    the table [ms'] that [seat_pairs] returns from the table [ms]: a bye
    entry is completed with its player as winner and has no row; any
    other entry is pending and carries the key of a new pending row with
    the pair's players. *)
Definition seated (tid : Z) (rn : string) (tc : Z) (ms ms' : list Match)
    (p : string * string) (e : BracketEntry) : Prop :=
  if bool_decide (p.2 = BYE)
  then e = mkEntry p.1 BYE (Some p.1) completed None
  else ∃ id, e = mkEntry p.1 p.2 None pending (Some id)
             ∧ Z.of_nat (length ms) < id ≤ Z.of_nat (length ms')
             ∧ ms' !! Z.to_nat (id - 1)
               = Some (mkMatch tid rn p.1 p.2 None None tc pending None).

(** The outcome of the branch [# Start next round] of
    [check_round_complete], for the room, the tournament row and the
    winners it has found. *)
Definition next_round (shuffle : list string → list string)
    (room_code : string) (room : Room) (t : Tournament)
    (winners : list string) (w : World) : World * list Emit :=
  let rn := get_round_name (length winners) in
  let pairs := generate_bracket shuffle winners in
  let sp :=
    seat_pairs (r_tournament_id room) rn (default_time room) pairs
      (matches w) in
  let w' :=
    mkWorld (dict_set room_code (room_set_bracket sp.2 room) (rooms w))
            (active_matches w) (users w)
            (<[r_tournament_id room :=
                 mkTournament (t_room_code t) (admin_username t) (t_status t)
                   (t_completed_at t) (participants t) (winner_username t)
                   rn (rounds t ++ [(rn, pairs)])]> (tournaments w))
            sp.1 in
  (w', (ev_new_round rn sp.2, to_room room_code)
         :: emit_leaderboard room_code w').

(** ** More states of the run

    The final of the two-player tournament has been played (its row is
    completed) and the round has not been advanced yet. *)
Definition world_final_played : World :=
  set_matches world_two_started
    [closed_row 5 (Some "alice") "checkmate" row_1].

Definition tournament_two_started : Tournament :=
  mkTournament "ROOM01" "alice" active None ["alice"; "bob"] None "Final"
    [("Final", [("alice", "bob")])].

(** dave has logged in and joined as the fourth player; alice has started
    the tournament; both semi finals have been played and the round has
    not been advanced yet (no session is left). *)
Definition world_four_joined : World :=
  (on_join_room "room01" (Some "dave") "sid-dave"
     (set_users world_three_joined
        (<["dave" := new_user "dave"]> (users world_three_joined)))).1.

Definition world_four_started : World :=
  world_after (on_start_tournament keep_order "room01" 300 (Some "alice")
                 world_four_joined).

Definition semi_final_row (wh bl : string) : Match :=
  mkMatch 1 "Semi Final" wh bl None None 300 active None.

Definition world_semis_played : World :=
  mkWorld (rooms world_four_started) ∅ (users world_four_started)
    (tournaments world_four_started)
    [closed_row 5 (Some "alice") "checkmate" (semi_final_row "alice" "bob");
     closed_row 6 (Some "dave") "timeout" (semi_final_row "carol" "dave")].

Definition room_four_started : Room :=
  mkRoom 1 "alice"
    [("alice", "sid-alice"); ("bob", "sid-bob"); ("carol", "sid-carol");
     ("dave", "sid-dave")] []
    [mkEntry "alice" "bob" None pending (Some 1);
     mkEntry "carol" "dave" None pending (Some 2)] active 300.

Definition tournament_four_started : Tournament :=
  mkTournament "ROOM01" "alice" active None
    ["alice"; "bob"; "carol"; "dave"] None "Semi Final"
    [("Semi Final", [("alice", "bob"); ("carol", "dave")])].

(** All the counters [handle_match_end] may write. *)
Definition tally (u : User) : Z * (Z * Z * Z * Z) :=
  (total_matches u, score u).

(** What of a room the match and round handlers have no business with:
    everything but the bracket and the status. *)
Definition roster (r : Room)
    : Z * string * list (string * string) * list ((string * string) * Z) * Z :=
  (r_tournament_id r, admin r, players r, match_requests r, default_time r).

(** alice offers bob a friendly match of 180 seconds in the waiting room
    and bob accepts: match 1, with its session and its row. *)
Definition world_friendly : World :=
  (on_match_response "room01" "alice" true (Some "bob")
     (on_match_request "room01" "bob" 180 (Some "alice") world_two_joined).1).1.

Definition session_friendly : MatchState :=
  mkMatchState "ROOM01" "alice" "bob" 180 180 turn_w start_fen active 1.

Definition row_friendly : Match :=
  mkMatch 1 "Friendly" "alice" "bob" None None 180 active None.

(** alice's offer of 180 seconds to bob is pending in the waiting room. *)
Definition world_offered : World :=
  (on_match_request "room01" "bob" 180 (Some "alice") world_two_joined).1.

Definition room_offered : Room :=
  mkRoom 1 "alice" [("alice", "sid-alice"); ("bob", "sid-bob")]
         [(("alice", "bob"), 180)] [] waiting 300.

(** ** Room codes ([generate_room_code]) *)

Definition ascii_uppercase : string := "ABCDEFGHIJKLMNOPQRSTUVWXYZ".
Definition digits : string := "0123456789".

(** [generate_room_code()]; [choices population k] is
    [random.choices(population, k=k)]. *)
Definition generate_room_code
    (choices : list Ascii.ascii → nat → list Ascii.ascii) : string :=
  String.string_of_list_ascii
    (choices (String.list_ascii_of_string (ascii_uppercase +:+ digits)) 6%nat).

(** ** Sessions of a first round *)

(** The match ids of a bracket, in order. *)
Definition entry_ids (br : list BracketEntry) : list Z := omap be_match_id br.

(** What [on_start_tournament] leaves in the world [w] for a pair [p] of
    the bracket and its entry [e]: a bye is a completed entry without a
    match; any other pair has a pending entry whose match id is the key of
    a session with the pair's players, both clocks at the time control and
    white to move, and of an active [Match] row. *)
Definition session_opened (room_code : string) (tid : Z) (rn : string)
    (tc : Z) (w : World) (p : string * string) (e : BracketEntry) : Prop :=
  if bool_decide (p.2 = BYE)
  then e = mkEntry p.1 BYE (Some p.1) completed None
  else ∃ id, e = mkEntry p.1 p.2 None pending (Some id)
             ∧ active_matches w !! id
               = Some (mkMatchState room_code p.1 p.2 tc tc turn_w start_fen
                         active id)
             ∧ Match_get id w
               = Some (mkMatch tid rn p.1 p.2 None None tc active None).

(** ** More states of the run *)

(** Before any room exists. *)
Definition world_blank : World :=
  mkWorld [] ∅ (users world_created) ∅ [].

(** bob has created a second room; the first draw of the code was taken. *)
Definition world_second_room : World :=
  mkWorld
    (rooms world_created ++ [("ROOM02", mkRoom 2 "bob" [] [] [] waiting 300)])
    ∅ (users world_created)
    (<[2 := mkTournament "ROOM02" "bob" waiting None [] None "" []]>
       (tournaments world_created))
    [].

Definition tournament_two_joined : Tournament :=
  mkTournament "ROOM01" "alice" waiting None ["alice"; "bob"] None "" [].

(** A [random.choices] that picks the first [k] of the population. *)
Definition first_choices (population : list Ascii.ascii) (k : nat)
    : list Ascii.ascii :=
  take k population.

Definition pawn_move : Move := mkMove (Some "e2") (Some "e4") None.

(** ** Requests

    Every entry point that changes the registries or the tables, as data,
    and the state after serving a sequence of them.  A [create_room] whose
    loop has not found a free code yet has changed nothing. *)
Inductive Request :=
  | req_create_room (draws : list string) (tid : Z)
      (username : option string)
  | req_join_room (room_code_raw : string) (username : option string)
      (sid : string)
  | req_disconnect (username : option string)
  | req_remove_player (room_code_raw target : string)
      (username : option string)
  | req_match_request (room_code_raw opponent : string) (tc : Z)
      (username : option string)
  | req_match_response (room_code_raw requester : string) (accepted : bool)
      (username : option string)
  | req_start_tournament (shuffle : list string → list string)
      (room_code_raw : string) (tc : Z) (username : option string)
  | req_match (match_id : Z) (e : MatchEvent)
  | req_force_next_round (shuffle : list string → list string) (now : Z)
      (room_code_raw : string) (username : option string).

Definition serve (w : World) (q : Request) : World :=
  match q with
  | req_create_room draws tid username =>
    match create_room draws tid username w with
    | Some r => r.1
    | None => w
    end
  | req_join_room raw username sid => (on_join_room raw username sid w).1
  | req_disconnect username => (on_disconnect username w).1
  | req_remove_player raw target username =>
    (on_remove_player raw target username w).1
  | req_match_request raw opponent tc username =>
    (on_match_request raw opponent tc username w).1
  | req_match_response raw requester accepted username =>
    (on_match_response raw requester accepted username w).1
  | req_start_tournament shuffle raw tc username =>
    world_after (on_start_tournament shuffle raw tc username w)
  | req_match match_id e => (deliver match_id e w).1
  | req_force_next_round shuffle now raw username =>
    (on_force_next_round shuffle now raw username w).1
  end.

Definition serve_all (qs : list Request) (w : World) : World :=
  foldl serve w qs.

(** No completed [Match] row has an active session. *)
Definition results_closed (w : World) : Prop :=
  ∀ mid m st,
    Match_get mid w = Some m → status m = completed →
    active_matches w !! mid = Some st → ms_status st ≠ active.

(** Every completed [Match] row of [w] is the same row in [w']. *)
Definition keeps_results (w w' : World) : Prop :=
  ∀ mid m,
    Match_get mid w = Some m → status m = completed →
    Match_get mid w' = Some m.

(** alice has resigned the final of the two-player tournament. *)
Definition world_two_finished : World :=
  (on_resign keep_order 5 1 (Some "alice") world_two_started).1.

(** ** Counters of the [users] table *)

(** Matches played that were counted neither as win, loss nor draw. *)
Definition uncounted (u : User) : Z :=
  total_matches u - (total_wins u + total_losses u + total_draws u).

(** The row [u'] has the name of [u] and no counter below it, the
    uncounted matches included. *)
Definition grows (u u' : User) : Prop :=
  username u' = username u
  ∧ total_matches u ≤ total_matches u'
  ∧ total_wins u ≤ total_wins u'
  ∧ total_losses u ≤ total_losses u'
  ∧ total_draws u ≤ total_draws u'
  ∧ tournaments_played u ≤ tournaments_played u'
  ∧ tournament_wins u ≤ tournament_wins u'
  ∧ uncounted u ≤ uncounted u'.

(** The same names have rows in both tables, and every row has grown. *)
Definition users_grow (us us' : gmap string User) : Prop :=
  ∀ name,
    match us !! name, us' !! name with
    | Some u, Some u' => grows u u'
    | None, None => True
    | _, _ => False
    end.

(** ** The rating engine in binary floating point

    [calculate_elo] as Python evaluates it.  An [int] that meets a [float]
    in an operation is converted to the nearest double, the operations
    are those of IEEE 754 binary64 with rounding to nearest, ties to even,
    and what raises in Python is an outcome.  The power [10 ** y] goes to
    the C library's [pow], whose results the language does not fix: it is
    a parameter, like the permutation of [random.shuffle]. *)

Module Binary64.
Import PrimFloat SpecFloat FloatOps.

(** A Python value, or the name of the exception raised. *)
Inductive Py (A : Type) :=
  | Ok (x : A)
  | Raise (exception : string).
Arguments Ok {A} x.
Arguments Raise {A} exception.

#[global] Instance Py_eq_dec `{EqDecision A} : EqDecision (Py A).
Proof. solve_decision. Defined.

#[global] Instance Py_ret : MRet Py := λ A x, Ok x.
#[global] Instance Py_bind : MBind Py := λ A B f m,
  match m with
  | Ok x => f x
  | Raise e => Raise e
  end.

(** The double nearest to [m * 2^e], ties to even; an infinity when that
    is out of range. *)
Definition nearest (m e : Z) (negative : bool) : float :=
  SF2Prim (binary_normalize prec emax m e negative).

(** [float(z)] for an [int]: "int too large to convert to float". *)
Definition float_of_int (z : Z) : Py float :=
  let f := nearest z 0 false in
  if is_infinity f then Raise "OverflowError" else Ok f.

(** [a / b] for two [int]s: the double nearest to the quotient.  The
    quotient is cut after at least 64 binary digits, with one more digit
    that records whether anything was cut off. *)
Definition int_truediv (a b : Z) : Py float :=
  if b =? 0 then Raise "ZeroDivisionError"
  else
    let negative := xorb (a <? 0) (b <? 0) in
    let k := Z.max 0 (Z.log2 (Z.abs b) - Z.log2 (Z.abs a) + 64) in
    let n := Z.abs a * 2 ^ k in
    let q := n / Z.abs b in
    let sticky := if n mod Z.abs b =? 0 then 0 else 1 in
    let m := 2 * q + sticky in
    let f := nearest (if negative then - m else m) (- k - 1) negative in
    if is_infinity f then Raise "OverflowError" else Ok f.

(** [x / y] for two [float]s. *)
Definition float_truediv (x y : float) : Py float :=
  if (y =? zero)%float then Raise "ZeroDivisionError" else Ok (x / y)%float.

(** [round(x)] for a [float], without [ndigits]: the nearest [int], ties
    to the even one. *)
Definition float_round (x : float) : Py Z :=
  match Prim2SF x with
  | S754_nan => Raise "ValueError"
  | S754_infinity _ => Raise "OverflowError"
  | S754_zero _ => Ok 0
  | S754_finite s m e =>
    let n :=
      if 0 <=? e then Z.pos m * 2 ^ e
      else
        let d := 2 ^ (- e) in
        let q := Z.pos m / d in
        match (2 * (Z.pos m mod d)) ?= d with
        | Lt => q
        | Gt => q + 1
        | Eq => if Z.even q then q else q + 1
        end in
    Ok (if s then - n else n)
  end.

Definition ten : float := 10%float.

Section pow.
(** The C library's [pow]. *)
Variable c_pow : float → float → float.

(** [10 ** y] for a finite [y]: [float_pow] answers a zero exponent
    itself, calls [pow] otherwise and raises when the result is
    infinite. *)
Definition float_pow10 (y : float) : Py float :=
  if (y =? zero)%float then Ok one
  else
    let r := c_pow ten y in
    if is_infinity r then Raise "OverflowError" else Ok r.

(** [calculate_elo(winner_rating, loser_rating, k)]. *)
Definition calculate_elo_k (winner_rating loser_rating k : Z) : Py (Z * Z) :=
  y ← int_truediv (loser_rating - winner_rating) 400;
  p ← float_pow10 y;
  expected_winner ← float_truediv one (one + p);
  let expected_loser := (one - expected_winner)%float in
  fk ← float_of_int k;
  fw ← float_of_int winner_rating;
  new_winner ← float_round (fw + fk * (one - expected_winner));
  fl ← float_of_int loser_rating;
  new_loser ← float_round (fl + fk * (zero - expected_loser));
  Ok (new_winner, new_loser).

(** The default argument [k=32]; every call site uses it. *)
Definition calculate_elo (winner_rating loser_rating : Z) : Py (Z * Z) :=
  calculate_elo_k winner_rating loser_rating 32.
End pow.

(** The exponents of 1200 against 1000 and back, and of 0 against
    200000. *)
Definition minus_half : float := (-0x1p-1)%float.
Definition plus_half : float := 0x1p-1%float.
Definition five_hundred : float := 500%float.

(** The doubles nearest to [10 ** -0.5] and to [10 ** 0.5]
    (0.31622776601683794 and 3.1622776601683795), each with the double
    below and the double above it. *)
Definition inv_sqrt10 : list float :=
  [0x1.43d136248490ep-2; 0x1.43d136248490fp-2; 0x1.43d1362484910p-2]%float.
Definition sqrt10 : list float :=
  [0x1.94c583ada5b52p+1; 0x1.94c583ada5b53p+1; 0x1.94c583ada5b54p+1]%float.

(** A [pow] that is right at the three exponents above. *)
Definition pow_table (x y : float) : float :=
  if (y =? minus_half)%float then 0x1.43d136248490fp-2%float
  else if (y =? plus_half)%float then 0x1.94c583ada5b53p+1%float
  else if (y =? five_hundred)%float then infinity
  else nan.
End Binary64.

(** The rating update as the specification words it, over the real
    numbers. *)
Definition elo_formula (winner_rating loser_rating : Z) : Z * Z :=
  let expected_winner :=
    (1 / (1 + Rpower 10 ((IZR loser_rating - IZR winner_rating) / 400)))%R in
  (py_round (IZR winner_rating + 32 * (1 - expected_winner)),
   py_round (IZR loser_rating - 32 * (1 - expected_winner))).

(** ** A match against oneself

    alice offers herself a friendly match in the waiting room and
    accepts: match 1, with alice on both sides. *)
Definition world_self_match : World :=
  (on_match_response "room01" "alice" true (Some "alice")
     (on_match_request "room01" "alice" 180 (Some "alice")
        world_two_joined).1).1.

Definition session_self : MatchState :=
  mkMatchState "ROOM01" "alice" "alice" 180 180 turn_w start_fen active 1.

Definition row_self : Match :=
  mkMatch 1 "Friendly" "alice" "alice" None None 180 active None.
(** * Properties *)

(** ** Rating engine *)

Lemma py_round_IZR (z : Z) : py_round (IZR z) = z.
Proof.
  unfold py_round. rewrite ZfloorZ.
  destruct (Rlt_dec _ _) as [_|Hn]; [done|].
  exfalso. apply Hn. lra.
Qed.

(** ** Bracket generator *)

Lemma list_pair_ind {A} (P : list A → Prop) :
  P [] → (∀ a, P [a]) → (∀ a b l, P l → P (a :: b :: l)) → ∀ l, P l.
Proof.
  intros H0 H1 H2.
  assert (Hboth : ∀ l, P l ∧ ∀ a, P (a :: l)).
  { induction l as [|x l [IH1 IH2]]; split; auto. }
  intros l. apply Hboth.
Qed.

Lemma div2_pred_succ n : Nat.div2 (S (n - 1)) = Nat.div2 n.
Proof. destruct n as [|n]; simpl; [done|]. by rewrite Nat.sub_0_r. Qed.

Lemma range_by_2_step n :
  range_by_2 (S n) = 0%nat :: ((λ i, S (S i)) <$> range_by_2 (n - 1)).
Proof.
  unfold range_by_2. rewrite div2_pred_succ. simpl Nat.div2.
  simpl seq. rewrite fmap_cons. f_equal.
  rewrite <- fmap_S_seq, <- !list_fmap_compose.
  apply list_fmap_ext. intros _ k _. simpl. lia.
Qed.

Lemma pair_consecutive_pair_up players :
  pair_consecutive players = pair_up players.
Proof.
  induction players as [| a | a b l IH] using list_pair_ind; [done..|].
  unfold pair_consecutive in *.
  replace (length (a :: b :: l) - 1)%nat with (S (length l)) by (simpl; lia).
  rewrite range_by_2_step, fmap_cons, <- list_fmap_compose.
  change (Nat.odd (length (a :: b :: l))) with (Nat.odd (length l)).
  simpl pair_up. rewrite <- IH.
  destruct (Nat.odd (length l)) eqn:Hodd.
  - destruct l as [|c l]; [done|]. simpl. f_equal.
  - simpl. f_equal.
Qed.

Lemma pair_up_length players :
  length (pair_up players) = Nat.div2 (S (length players)).
Proof.
  induction players as [| a | a b l IH] using list_pair_ind; [done..|].
  simpl in *. by rewrite IH.
Qed.

Lemma pair_up_slots players :
  slots (pair_up players)
  = players ++ (if Nat.odd (length players) then [BYE] else []).
Proof.
  induction players as [| a | a b l IH] using list_pair_ind; [done..|].
  unfold slots in *. simpl pair_up. rewrite bind_cons, IH. done.
Qed.

(** Without the sentinel among the players, only the last pair of an odd
    list carries it, in its second slot. *)
Lemma pair_up_bye players i p :
  BYE ∉ players → pair_up players !! i = Some p → has_bye p = true →
  Nat.odd (length players) = true ∧ S i = length (pair_up players)
  ∧ p.1 ≠ BYE ∧ p.2 = BYE.
Proof.
  revert i. induction players as [| a | a b l IH] using list_pair_ind;
    intros i Hno Hi Hb.
  - done.
  - apply not_elem_of_cons in Hno as [Ha _].
    destruct i; simplify_eq/=. split_and!; done.
  - rewrite !not_elem_of_cons in Hno. destruct Hno as (Ha & Hb' & Hl).
    destruct i as [|i]; simplify_eq/=.
    + exfalso. unfold has_bye in Hb. simpl in Hb.
      apply orb_true_iff in Hb as [Hb|Hb]; apply bool_decide_eq_true in Hb;
        congruence.
    + destruct (IH i) as (?&?&?&?); [done..|].
      split_and!; try done. by f_equal.
Qed.

Lemma pair_up_bye_count players :
  BYE ∉ players →
  length (List.filter has_bye (pair_up players))
  = if Nat.odd (length players) then 1%nat else 0%nat.
Proof.
  induction players as [| a | a b l IH] using list_pair_ind; intros Hno.
  - done.
  - simpl. unfold has_bye. simpl. by rewrite orb_true_r.
  - rewrite !not_elem_of_cons in Hno. destruct Hno as (Ha & Hb & Hl).
    change (Nat.odd (length (a :: b :: l))) with (Nat.odd (length l)).
    rewrite <- IH by done. simpl pair_up. simpl List.filter.
    unfold has_bye at 1. simpl.
    by rewrite !bool_decide_eq_false_2.
Qed.

Lemma count_absent (x : string) l :
  x ∉ l → length (filter (λ y, y = x) l) = 0%nat.
Proof.
  induction l as [|y l IH]; [done|]. intros [Hne Hl]%not_elem_of_cons.
  rewrite filter_cons_False by congruence. auto.
Qed.

Lemma count_nodup (x : string) l :
  NoDup l → x ∈ l → length (filter (λ y, y = x) l) = 1%nat.
Proof.
  induction 1 as [|y l Hy Hnd IH]; intros Hx; [by apply elem_of_nil in Hx|].
  destruct (decide (y = x)) as [->|Hne].
  - rewrite filter_cons_True by done. simpl. by rewrite count_absent.
  - rewrite filter_cons_False by done. apply IH.
    apply elem_of_cons in Hx as [->|Hx]; done.
Qed.

Lemma slots_elem (pairs : list (string * string)) x :
  x ∈ slots pairs → ∃ p, p ∈ pairs ∧ (p.1 = x ∨ p.2 = x).
Proof.
  unfold slots. intros (p & Hx & Hp)%list_elem_of_bind. exists p.
  split; [done|].
  apply elem_of_cons in Hx as [->|Hx]; [by left|].
  apply list_elem_of_singleton in Hx as ->. by right.
Qed.

(** C9 (amended): for a participant list of length [n] the bracket
    generator returns ceil(n/2) pairs whose slots are the participants,
    each as often as in the input (once when the input has no
    repetition), plus one bye when [n] is odd.  The bye is the string
    ["BYE"], which is also a name a user can have: when no participant has
    it, exactly one pair has the bye for odd [n] and none for even [n],
    and a pair with the bye is the final pair and has it in its second
    slot; a participant of that name is paired like any other, so that
    some pair then carries the sentinel whatever [n] is. *)
Theorem generate_bracket_pairs (shuffle : list string → list string)
    (players : list string) :
  (∀ l, shuffle l ≡ₚ l) →
  let n := length players in
  let pairs := generate_bracket shuffle players in
  length pairs = ((n + 1) / 2)%nat
  ∧ slots pairs ≡ₚ players ++ (if Nat.odd n then [BYE] else [])
  ∧ (∀ x,
       length (filter (λ y, y = x) (slots pairs))
       = (length (filter (λ y, y = x) players)
          + (if bool_decide (x = BYE) && Nat.odd n then 1 else 0))%nat)
  ∧ (NoDup players → ∀ x, x ∈ players → x ≠ BYE →
       length (filter (λ y, y = x) (slots pairs)) = 1%nat)
  ∧ (BYE ∉ players →
       length (List.filter has_bye pairs) = (if Nat.odd n then 1 else 0)%nat
       ∧ ∀ i p, pairs !! i = Some p → has_bye p = true →
           S i = length pairs ∧ p.1 ≠ BYE ∧ p.2 = BYE)
  ∧ (BYE ∈ players → ∃ p, p ∈ pairs ∧ has_bye p = true).
Proof.
  intros Hperm n pairs. subst n pairs. unfold generate_bracket.
  rewrite pair_consecutive_pair_up.
  pose proof (Hperm players) as Hp.
  assert (Hlen : length (shuffle players) = length players)
    by (by rewrite Hp).
  assert (Hslots : slots (pair_up (shuffle players))
            ≡ₚ players ++ (if Nat.odd (length players) then [BYE] else [])).
  { rewrite pair_up_slots, Hlen. by rewrite Hp. }
  assert (Hcount : ∀ x,
            length (filter (λ y, y = x) (slots (pair_up (shuffle players))))
            = (length (filter (λ y, y = x) players)
               + (if bool_decide (x = BYE) && Nat.odd (length players)
                  then 1 else 0))%nat).
  { intros x. rewrite Hslots, filter_app, length_app. f_equal.
    destruct (Nat.odd _); [|by rewrite andb_false_r].
    rewrite andb_true_r. case_bool_decide as Hx.
    - subst x. by rewrite filter_cons_True.
    - rewrite filter_cons_False by congruence. done. }
  split_and!.
  - rewrite pair_up_length, Hlen, Nat.div2_div. f_equal. lia.
  - done.
  - done.
  - intros Hnd x Hx Hne. rewrite Hcount.
    rewrite (bool_decide_eq_false_2 _ Hne). simpl.
    rewrite Nat.add_0_r. by apply count_nodup.
  - intros Hno.
    assert (Hno' : BYE ∉ shuffle players) by (by rewrite Hp).
    split; [rewrite pair_up_bye_count, Hlen; done|].
    intros i p Hi Hb.
    destruct (pair_up_bye _ _ _ Hno' Hi Hb) as (_&?&?&?). done.
  - intros Hin.
    assert (Hs : BYE ∈ slots (pair_up (shuffle players))).
    { rewrite Hslots. apply elem_of_app. by left. }
    apply slots_elem in Hs as (p & Hp' & Hor). exists p. split; [done|].
    unfold has_bye. destruct Hor as [-> | ->];
      rewrite (bool_decide_eq_true_2 (BYE = BYE)) by done;
      [done|apply orb_true_r].
Qed.

Lemma generate_bracket_pairs_witness :
  let n := length ["ann"; "bo"; "cy"] in
  let pairs := generate_bracket (@rev string) ["ann"; "bo"; "cy"] in
  pairs = [("cy", "bo"); ("ann", "BYE")]
  ∧ length pairs = ((n + 1) / 2)%nat
  ∧ length (List.filter has_bye pairs) = 1%nat.
Proof.
  destruct (generate_bracket_pairs (@rev string) ["ann"; "bo"; "cy"])
    as (Hlen & _ & _ & _ & Hbye & _).
  - intros l. symmetry. apply Permutation_rev.
  - destruct Hbye as [Hone _].
    + unfold BYE. rewrite !not_elem_of_cons.
      split_and!; [done..|apply not_elem_of_nil].
    + split_and!; [reflexivity|exact Hlen|exact Hone].
Defined.

(** The list [["BYE"; "x"]] has an even length and no bye, and its one
    pair has the sentinel, in the first slot. *)
Lemma bye_named_participant :
  let players := ["BYE"; "x"] in
  let pairs := generate_bracket keep_order players in
  Nat.odd (length players) = false
  ∧ pairs = [("BYE", "x")]
  ∧ length (List.filter has_bye pairs) = 1%nat
  ∧ ∃ p, pairs !! 0%nat = Some p ∧ p.1 = BYE ∧ p.2 ≠ BYE.
Proof.
  simpl. split_and!; [reflexivity..|].
  exists ("BYE", "x"). split_and!; [reflexivity..|discriminate].
Qed.

(** ** Dictionaries *)

Section dict_facts.
Context {K V : Type} `{EqDecision K}.
Implicit Types (d : list (K * V)) (k : K) (v : V).

Lemma dict_mem_true k d : dict_mem k d = true ↔ is_Some (dict_get k d).
Proof. unfold dict_mem. apply bool_decide_eq_true. Qed.

Lemma dict_mem_false k d : dict_mem k d = false ↔ dict_get k d = None.
Proof.
  unfold dict_mem. rewrite bool_decide_eq_false, <- eq_None_not_Some. done.
Qed.

Lemma dict_get_cons k k' v d :
  dict_get k ((k', v) :: d) = if bool_decide (k' = k) then Some v else dict_get k d.
Proof. unfold dict_get. simpl. by destruct (bool_decide (k' = k)). Qed.

Lemma dict_get_del_eq k d : dict_get k (dict_del k d) = None.
Proof.
  induction d as [|[k' v] d IH]; [done|]. unfold dict_del in *. simpl.
  destruct (bool_decide (k' = k)) eqn:E; simpl; [done|].
  by rewrite dict_get_cons, E.
Qed.

Lemma dict_get_del_ne k k' d : k ≠ k' → dict_get k' (dict_del k d) = dict_get k' d.
Proof.
  intros Hne. induction d as [|[k0 v] d IH]; [done|]. unfold dict_del in *.
  simpl. rewrite dict_get_cons.
  destruct (bool_decide (k0 = k)) eqn:E; simpl.
  - apply bool_decide_eq_true in E. subst.
    by rewrite bool_decide_eq_false_2.
  - by rewrite dict_get_cons, IH.
Qed.

Lemma dict_get_update k v d :
  dict_get k ((λ p, if bool_decide (p.1 = k) then (k, v) else p) <$> d)
  = (λ _, v) <$> dict_get k d.
Proof.
  induction d as [|[k' v'] d IH]; [done|]. rewrite fmap_cons. simpl.
  destruct (bool_decide (k' = k)) eqn:E.
  - rewrite !dict_get_cons, E. by rewrite bool_decide_eq_true_2.
  - by rewrite !dict_get_cons, E.
Qed.

Lemma dict_get_app_None k d d' :
  dict_get k d = None → dict_get k (d ++ d') = dict_get k d'.
Proof.
  induction d as [|[k' v'] d IH]; [done|]. simpl. rewrite !dict_get_cons.
  destruct (bool_decide (k' = k)); [done|]. auto.
Qed.

Lemma dict_get_set_eq k v d : dict_get k (dict_set k v d) = Some v.
Proof.
  unfold dict_set. destruct (dict_mem k d) eqn:E.
  - apply dict_mem_true in E as [v' E]. by rewrite dict_get_update, E.
  - apply dict_mem_false in E. rewrite dict_get_app_None by done.
    by rewrite dict_get_cons, bool_decide_eq_true_2.
Qed.

Lemma dict_get_set_ne k k' v d :
  k ≠ k' → dict_get k' (dict_set k v d) = dict_get k' d.
Proof.
  intros Hne. unfold dict_set. destruct (dict_mem k d).
  - induction d as [|[k0 v0] d IH]; [done|]. rewrite fmap_cons. simpl.
    destruct (bool_decide (k0 = k)) eqn:E.
    + apply bool_decide_eq_true in E. subst.
      by rewrite !dict_get_cons, !bool_decide_eq_false_2.
    + by rewrite !dict_get_cons, IH.
  - induction d as [|[k0 v0] d IH]; simpl.
    + by rewrite dict_get_cons, bool_decide_eq_false_2.
    + rewrite !dict_get_cons. by destruct (bool_decide (k0 = k')).
Qed.
End dict_facts.

(** ** Termination of a match *)

Lemma handle_match_end_closed shuffle now mid win res w :
  session_closed mid w → handle_match_end shuffle now mid win res w = (w, []).
Proof.
  unfold session_closed, handle_match_end.
  destruct (active_matches w !! mid) as [st|]; [|done].
  intros Hst. by rewrite bool_decide_eq_false_2.
Qed.

Lemma terminate_closed shuffle now mid t w :
  session_closed mid w → terminate shuffle now mid t w = (w, []).
Proof.
  unfold session_closed. destruct t;
    unfold terminate, on_update_timer, on_game_over, on_resign;
    (destruct (active_matches w !! mid) as [st|]; [|done]);
    intros Hst; by rewrite bool_decide_eq_false_2.
Qed.

Lemma on_make_move_closed mid move fen_after username w :
  session_closed mid w →
  on_make_move mid move fen_after username w
  = (w, [(ev_error "Match not active", to_caller)]).
Proof.
  unfold session_closed, on_make_move.
  destruct (active_matches w !! mid) as [st|]; [|done].
  intros Hst. by rewrite bool_decide_eq_false_2.
Qed.

Lemma deliver_closed mid e w :
  session_closed mid w → (deliver mid e w).1 = w.
Proof.
  intros Hc. destruct e; simpl.
  - by rewrite on_make_move_closed.
  - by rewrite terminate_closed.
Qed.

Lemma deliver_all_closed mid es w :
  session_closed mid w → (deliver_all mid es w).1 = w.
Proof.
  intros Hc. induction es as [|e es IH]; [done|]. simpl.
  pose proof (deliver_closed mid e w Hc) as He.
  destruct (deliver mid e w) as [w1 out1]. simpl in He. subst w1.
  destruct (deliver_all mid es w) as [w2 out2]. simpl in IH. by subst.
Qed.

(** Whatever it does, [handle_match_end] leaves the session closed. *)
Lemma handle_match_end_closes shuffle now mid win res w :
  session_closed mid (handle_match_end shuffle now mid win res w).1.
Proof.
  unfold handle_match_end.
  destruct (active_matches w !! mid) as [st|] eqn:Hst;
    [|by simpl; unfold session_closed; rewrite Hst].
  destruct (bool_decide (ms_status st = active)) eqn:Hact; simpl.
  2:{ unfold session_closed. simpl. rewrite Hst.
      by apply bool_decide_eq_false in Hact. }
  destruct (Match_get mid _) as [m0|]; simpl.
  2:{ unfold session_closed. simpl. by rewrite lookup_insert_eq. }
  match goal with |- context [let '(w, out2) := ?X in _] => destruct X as [w' out2] end.
  unfold session_closed. simpl. by rewrite lookup_delete_eq.
Qed.

Lemma keeps_played_refl w : keeps_played w w.
Proof. split_and!; [by exists []; rewrite app_nil_r|done..]. Qed.

Lemma seat_pairs_appends tid rn tc pairs ms :
  ∃ extra, (seat_pairs tid rn tc pairs ms).1 = ms ++ extra.
Proof.
  unfold seat_pairs. generalize (@nil BracketEntry) as br. revert ms.
  induction pairs as [|[wh bl] pairs IH]; intros ms br; simpl.
  - exists []. by rewrite app_nil_r.
  - destruct (bool_decide (bl = BYE)); [apply IH|].
    destruct (IH (ms ++ [mkMatch tid rn wh bl None None tc pending None])
                 (br ++ [mkEntry wh bl None pending
                           (Some (Z.of_nat (length ms) + 1))]))
      as [extra ->].
    eexists. by rewrite <- app_assoc.
Qed.

Lemma total_matches_alter (f : User → User) k (us : gmap string User) name :
  (∀ u, total_matches (f u) = total_matches u) →
  total_matches <$> (alter f k us !! name) = total_matches <$> (us !! name).
Proof.
  intros Hf. rewrite lookup_alter. case_decide; [subst|done].
  destruct (us !! name); simpl; [by rewrite Hf|done].
Qed.

Lemma total_matches_played_loop names (us : gmap string User) name :
  total_matches <$>
    (foldl (λ us u, alter user_inc_tournaments_played u us) us names !! name)
  = total_matches <$> (us !! name).
Proof.
  revert us. induction names as [|u names IH]; intros us; [done|].
  simpl. rewrite IH. by apply total_matches_alter.
Qed.

Lemma check_round_complete_keeps shuffle now room_code w :
  keeps_played w (check_round_complete shuffle now room_code w).1.
Proof.
  unfold check_round_complete.
  repeat case_match; simpl; try apply keeps_played_refl.
  all: split_and!; simpl; try done.
  all: try (by exists []; rewrite app_nil_r).
  all: try (intros name; rewrite total_matches_played_loop;
            by apply total_matches_alter).
  all: match goal with
       | H : seat_pairs ?a ?b ?c ?d ?e = (_, _) |- _ =>
         destruct (seat_pairs_appends a b c d e) as [extra Hx];
         rewrite H in Hx; simpl in Hx; by exists extra
       end.
Qed.

Lemma update_player_stats_total_matches m win res (us : gmap string User) wu bu :
  us !! white_player m = Some wu → us !! black_player m = Some bu →
  white_player m ≠ black_player m →
  total_matches <$> (update_player_stats m win res us !! white_player m)
  = Some (total_matches wu + 1)
  ∧ total_matches <$> (update_player_stats m win res us !! black_player m)
    = Some (total_matches bu + 1).
Proof.
  intros Hw Hb Hne. unfold update_player_stats. rewrite Hw, Hb.
  assert (Hbase :
    total_matches <$>
      (alter (user_add 1 0 0 0) (black_player m)
         (alter (user_add 1 0 0 0) (white_player m) us) !! white_player m)
    = Some (total_matches wu + 1)
    ∧ total_matches <$>
      (alter (user_add 1 0 0 0) (black_player m)
         (alter (user_add 1 0 0 0) (white_player m) us) !! black_player m)
    = Some (total_matches bu + 1)).
  { rewrite lookup_alter_ne, !lookup_alter_eq, lookup_alter_ne by done.
    by rewrite Hw, Hb. }
  destruct Hbase as [Hbw Hbb].
  repeat case_match; simplify_eq; (split;
    [repeat (rewrite total_matches_alter by (intros; simpl; lia)); exact Hbw
    |repeat (rewrite total_matches_alter by (intros; simpl; lia)); exact Hbb]).
Qed.

Lemma Match_get_put_eq mid m m0 w :
  Match_get mid w = Some m0 → Match_get mid (Match_put mid m w) = Some m.
Proof.
  unfold Match_get, Match_put. simpl. case_bool_decide; [|done].
  intros Hm. apply list_lookup_insert_eq. by eapply lookup_lt_Some.
Qed.

Lemma Match_get_extend mid w0 w1 m :
  (∃ extra, matches w1 = matches w0 ++ extra) →
  Match_get mid w0 = Some m → Match_get mid w1 = Some m.
Proof.
  intros [extra Hx]. unfold Match_get. case_bool_decide; [|done].
  rewrite Hx. intros Hm. rewrite lookup_app_l; [done|].
  by eapply lookup_lt_Some.
Qed.

(** The shape of a termination that finds its [Match] row: the row and
    the counters are written, the room's part runs (it may append rows for
    a next round), and the session is deleted last. *)
Lemma handle_match_end_shape shuffle now mid win res w st m0 :
  active_matches w !! mid = Some st → ms_status st = active →
  Match_get mid w = Some m0 →
  ∃ w1,
    (handle_match_end shuffle now mid win res w).1
    = set_active_matches w1 (delete mid (active_matches w1))
    ∧ keeps_played
        (set_users
           (Match_put mid (closed_row now win res m0)
              (set_active_matches w
                 (<[mid := ms_set_status completed st]> (active_matches w))))
           (update_player_stats (closed_row now win res m0) win res (users w)))
        w1.
Proof.
  intros Hst Hact Hm. unfold handle_match_end.
  rewrite Hst, bool_decide_eq_true_2 by done. simpl.
  change (Match_get mid (set_active_matches w ?x)) with (Match_get mid w).
  rewrite Hm. fold (closed_row now win res m0).
  set (w0 := set_users _ _).
  destruct (bool_decide (ms_room_code st = "")); simpl;
    [|destruct (dict_get _ _) as [room|]; simpl].
  2:{ destruct (bool_decide (round_name _ = "Friendly")); simpl.
      - match goal with
        | |- context [set_rooms w0 ?r] => exists (set_rooms w0 r)
        end.
        split; [done|]. split_and!; simpl;
          [by exists []; rewrite app_nil_r|done..].
      - match goal with
        | |- context [check_round_complete ?s ?n ?c ?x] =>
          pose proof (check_round_complete_keeps s n c x) as Hk;
          destruct (check_round_complete s n c x) as [w1 o3]
        end.
        simpl in *. exists w1. split; [done|].
        destruct Hk as (Hk1 & Hk2 & Hk3). split_and!; done. }
  all: exists w0; split; [done|apply keeps_played_refl].
Qed.

(** ** Entry points of termination *)

Lemma set_active_matches_id w : set_active_matches w (active_matches w) = w.
Proof. by destruct w. Qed.

Lemma terminate_fires shuffle now mid t w st :
  active_matches w !! mid = Some st → ms_status st = active → fires st t →
  terminate shuffle now mid t w
  = handle_match_end shuffle now mid (verdict st t).1 (verdict st t).2
      (set_active_matches w
         (<[mid := session_after_report st t]> (active_matches w))).
Proof.
  intros Hst Hact Hf. destruct t as [wt bt u|res win u|u]; simpl in *;
    unfold on_update_timer, on_game_over, on_resign;
    rewrite Hst, (bool_decide_eq_true_2 _ Hact); simpl.
  - destruct Hf as [-> Hexp]. rewrite bool_decide_eq_true_2 by done. simpl.
    case_bool_decide; [done|].
    rewrite bool_decide_eq_true_2 by lia. done.
  - rewrite (bool_decide_eq_true_2 _ Hf). simpl.
    by rewrite insert_id, set_active_matches_id.
  - rewrite (bool_decide_eq_true_2 _ Hf). simpl.
    by rewrite insert_id, set_active_matches_id.
Qed.

(** C10: when a termination reaches a session that is active but whose
    match id has no [Match] row, the handler returns with the session marked
    completed and still registered: no table and no room changes, nothing
    is emitted, and from then on every move (answered with the error
    reply only), clock report, game-over and resignation for that match,
    and any sequence of them, leaves the state as it is. *)
Theorem termination_without_match_row shuffle now mid t w st :
  active_matches w !! mid = Some st → ms_status st = active → fires st t →
  Match_get mid w = None →
  let w' :=
    set_active_matches w
      (<[mid := ms_set_status completed (session_after_report st t)]>
         (active_matches w)) in
  terminate shuffle now mid t w = (w', [])
  ∧ active_matches w' !! mid
    = Some (ms_set_status completed (session_after_report st t))
  ∧ (users w' = users w ∧ matches w' = matches w
     ∧ tournaments w' = tournaments w ∧ rooms w' = rooms w)
  ∧ (∀ move fen_after username,
       on_make_move mid move fen_after username w'
       = (w', [(ev_error "Match not active", to_caller)]))
  ∧ (∀ shuffle' now' t', terminate shuffle' now' mid t' w' = (w', []))
  ∧ (∀ es, (deliver_all mid es w').1 = w').
Proof.
  intros Hst Hact Hf Hm w'.
  assert (Hclosed : session_closed mid w').
  { unfold session_closed, w'. simpl. by rewrite lookup_insert_eq. }
  split_and!.
  - rewrite (terminate_fires _ _ _ _ _ _ Hst Hact Hf).
    unfold handle_match_end. simpl. rewrite lookup_insert_eq.
    assert (ms_status (session_after_report st t) = active) as ->
      by (by destruct t).
    simpl.
    change (Match_get mid (set_active_matches ?a ?x)) with (Match_get mid a).
    change (Match_get mid (set_active_matches ?a ?x)) with (Match_get mid a).
    rewrite Hm. unfold w'. by rewrite insert_insert_eq.
  - unfold w'. simpl. by rewrite lookup_insert_eq.
  - done.
  - done.
  - done.
  - done.
  - intros. by apply on_make_move_closed.
  - intros. by apply terminate_closed.
  - intros. by apply deliver_all_closed.
Qed.

Lemma termination_without_match_row_witness :
  let w' :=
    set_active_matches world_row_missing
      (<[1 := ms_set_status completed
                (session_after_report session_1 (by_resignation (Some "bob")))]>
         (active_matches world_row_missing)) in
  terminate keep_order 10 1 (by_resignation (Some "bob")) world_row_missing
  = (w', [])
  ∧ active_matches w' !! 1
    = Some (ms_set_status completed
              (session_after_report session_1 (by_resignation (Some "bob"))))
  ∧ (users w' = users world_row_missing
     ∧ matches w' = matches world_row_missing
     ∧ tournaments w' = tournaments world_row_missing
     ∧ rooms w' = rooms world_row_missing)
  ∧ (∀ move fen_after username,
       on_make_move 1 move fen_after username w'
       = (w', [(ev_error "Match not active", to_caller)]))
  ∧ (∀ shuffle' now' t', terminate shuffle' now' 1 t' w' = (w', []))
  ∧ (∀ es, (deliver_all 1 es w').1 = w').
Proof.
  apply (termination_without_match_row keep_order 10 1
           (by_resignation (Some "bob")) world_row_missing session_1).
  - vm_compute; reflexivity.
  - reflexivity.
  - right; reflexivity.
  - vm_compute; reflexivity.
Defined.

(** ** The row of a terminated match *)

Lemma handle_match_end_row shuffle now mid win res w st m0 :
  active_matches w !! mid = Some st → ms_status st = active →
  Match_get mid w = Some m0 →
  Match_get mid (handle_match_end shuffle now mid win res w).1
  = Some (closed_row now win res m0)
  ∧ active_matches (handle_match_end shuffle now mid win res w).1 !! mid
    = None.
Proof.
  intros Hst Hact Hm.
  destruct (handle_match_end_shape shuffle now mid win res w st m0 Hst Hact Hm)
    as (w1 & -> & Hext & _ & _).
  split; [|simpl; apply lookup_delete_eq].
  change (Match_get mid (set_active_matches ?a ?x)) with (Match_get mid a).
  eapply Match_get_extend; [exact Hext|].
  change (Match_get mid (set_users ?a ?x)) with (Match_get mid a).
  eapply Match_get_put_eq.
  change (Match_get mid (set_active_matches ?a ?x)) with (Match_get mid a).
  exact Hm.
Qed.

Lemma terminate_row shuffle now mid t w st m0 :
  active_matches w !! mid = Some st → ms_status st = active → fires st t →
  Match_get mid w = Some m0 →
  Match_get mid (terminate shuffle now mid t w).1
  = Some (closed_row now (verdict st t).1 (verdict st t).2 m0)
  ∧ active_matches (terminate shuffle now mid t w).1 !! mid = None.
Proof.
  intros Hst Hact Hf Hm. rewrite (terminate_fires _ _ _ _ _ _ Hst Hact Hf).
  apply (handle_match_end_row _ _ _ _ _ _ (session_after_report st t)).
  - simpl. by rewrite lookup_insert_eq.
  - by destruct t.
  - done.
Qed.







(** ** Round advancement *)

(** C1 on the code: three players, carol has the bye of the first round
    (her bracket entry is completed with herself as winner).  When bob
    resigns the only played match, the winners the coordinator collects are
    alice alone, and it declares the tournament complete with alice as
    winner: the bye participant is not among the winners. *)
Theorem bye_participant_not_among_winners :
  let r := on_resign keep_order 50 1 (Some "bob") world_three_started in
  bracket <$> room_of "ROOM01" world_three_started
  = Some [mkEntry "alice" "bob" None pending (Some 1);
          mkEntry "carol" "BYE" (Some "carol") completed None]
  ∧ collect_winners (Match_filter_by_round 1 "Semi Final" r.1) = ["alice"]
  ∧ emitted_names r.2
    = ["game_ended"; "match_result"; "leaderboard_update";
       "tournament_complete"; "leaderboard_update"]
  ∧ tournaments r.1 !! 1
    = Some (mkTournament "ROOM01" "alice" completed (Some 50)
              ["alice"; "bob"; "carol"] (Some "alice") "Semi Final"
              [("Semi Final", [("alice", "bob"); ("carol", "BYE")])]).
Proof. split_and!; vm_compute; reflexivity. Qed.

(** ** Room registry *)

(** C5 fails as stated: bob is a participant of the started tournament,
    his connection has dropped, and his join request is rejected with the
    tournament-in-progress error, with no change of state. *)
Lemma participant_cannot_rejoin :
  participants <$> (tournaments world_bob_dropped !! 1)
  = Some ["alice"; "bob"]
  ∧ r_status <$> room_of "ROOM01" world_bob_dropped = Some active
  ∧ on_join_room "room01" (Some "bob") "sid-bob-2" world_bob_dropped
    = (world_bob_dropped,
       [(ev_error "Tournament already in progress", to_caller)]).
Proof. split_and!; vm_compute; reflexivity. Qed.

(** C5 (amended): a join request of a user who is currently in the
    room's [players] map succeeds whatever the room status and size; the
    request is rejected with the tournament-in-progress error exactly when
    the room status is not waiting and the user is not in the [players]
    map.  [Tournament.participants] is not consulted. *)
Theorem on_join_room_rejoin raw u sid w room :
  u ≠ "" → room_of (upper raw) w = Some room →
  let r := on_join_room raw (Some u) sid w in
  (dict_mem u (players room) = true →
     (∃ room', room_of (upper raw) r.1 = Some room'
               ∧ dict_get u (players room') = Some sid)
     ∧ head r.2
       = Some (ev_joined_room (upper raw) u (bool_decide (u = admin room)),
               to_caller))
  ∧ (r = (w, [(ev_error "Tournament already in progress", to_caller)])
     ↔ r_status room ≠ waiting ∧ dict_mem u (players room) = false).
Proof.
  intros Hu Hroom r. unfold room_of in Hroom. subst r. unfold on_join_room.
  rewrite (bool_decide_eq_false_2 _ Hu), Hroom.
  destruct (dict_mem u (players room)) eqn:Hmem; simpl.
  - rewrite !andb_false_r. simpl. split.
    + intros _. split; [|done].
      eexists. split.
      * unfold room_of. destruct (tournaments _ !! _); simpl;
          apply dict_get_set_eq.
      * simpl. apply dict_get_set_eq.
    + split; [|by intros [_ ?]].
      destruct (tournaments _ !! _); simpl; intros [= _ ?].
  - rewrite !andb_true_r. split; [done|].
    destruct (bool_decide (r_status room = waiting)) eqn:Hs; simpl.
    + apply bool_decide_eq_true in Hs. split; [|by intros [? _]].
      destruct (bool_decide (10 ≤ length (players room))%nat); simpl.
      * intros [= ?].
      * destruct (tournaments _ !! _); simpl; intros [= _ ?].
    + apply bool_decide_eq_false in Hs. done.
Qed.

Lemma on_join_room_rejoin_witness :
  let r := on_join_room "room01" (Some "alice") "sid-alice-2"
             world_two_started in
  (dict_mem "alice" (players room_two_started) = true →
     (∃ room', room_of (upper "room01") r.1 = Some room'
               ∧ dict_get "alice" (players room') = Some "sid-alice-2")
     ∧ head r.2
       = Some (ev_joined_room (upper "room01") "alice"
                 (bool_decide ("alice" = admin room_two_started)),
               to_caller))
  ∧ (r = (world_two_started,
          [(ev_error "Tournament already in progress", to_caller)])
     ↔ r_status room_two_started ≠ waiting
       ∧ dict_mem "alice" (players room_two_started) = false).
Proof.
  apply (on_join_room_rejoin "room01" "alice" "sid-alice-2" world_two_started
           room_two_started).
  - discriminate.
  - vm_compute; reflexivity.
Defined.

(** C6 fails as stated: in a waiting room the admin removes bob.  bob
    stays in [Tournament.participants] and no [player_left] is broadcast,
    where bob's own disconnect removes him and broadcasts it. *)
Lemma kick_is_not_leave :
  let kick := on_remove_player "room01" "bob" (Some "alice") world_two_joined in
  let leave := on_disconnect (Some "bob") world_two_joined in
  r_status <$> room_of "ROOM01" world_two_joined = Some waiting
  ∧ participants <$> (tournaments kick.1 !! 1) = Some ["alice"; "bob"]
  ∧ participants <$> (tournaments leave.1 !! 1) = Some ["alice"]
  ∧ emitted_names kick.2 = ["kicked"; "room_update"]
  ∧ emitted_names leave.2 = ["room_update"; "player_left"].
Proof. split_and!; vm_compute; reflexivity. Qed.

Lemma emit_room_update_names room_code w room :
  room_of room_code w = Some room →
  emitted_names (emit_room_update room_code w) = ["room_update"].
Proof. unfold room_of, emit_room_update. by intros ->. Qed.

(** C6 (amended): [admin_remove] by the admin of a present target removes
    the target from the room's [players] (the same change of [rooms] as
    the target's own disconnect makes), sends [kicked] to the target's
    connection and broadcasts [room_update]; it leaves the tournaments
    table, so [Tournament.participants], as it is and broadcasts nothing
    else. *)
Theorem on_remove_player_effect raw target username w room target_sid :
  truthy username = true → room_of (upper raw) w = Some room →
  username = Some (admin room) →
  dict_get target (players room) = Some target_sid →
  let r := on_remove_player raw target username w in
  let room' := room_set_players (dict_del target (players room)) room in
  r.1 = set_rooms w (dict_set (upper raw) room' (rooms w))
  ∧ room_of (upper raw) r.1 = Some room'
  ∧ dict_get target (players room') = None
  ∧ tournaments r.1 = tournaments w
  ∧ r.2 = (ev_kicked, to_sid target_sid) :: emit_room_update (upper raw) r.1
  ∧ emitted_names r.2 = ["kicked"; "room_update"]
  ∧ (target ≠ "" →
     List.find (λ cr, dict_mem target (players cr.2)) (rooms w)
     = Some (upper raw, room) →
     rooms (on_disconnect (Some target) w).1 = rooms r.1).
Proof.
  intros Ht Hroom Hadm Htarget r room'. subst r. unfold on_remove_player.
  unfold room_of in Hroom.
  rewrite Ht, Hroom, (bool_decide_eq_true_2 _ Hadm), Htarget. simpl.
  fold room'.
  assert (Hroom' : room_of (upper raw)
                     (set_rooms w (dict_set (upper raw) room' (rooms w)))
                   = Some room')
    by apply dict_get_set_eq.
  split_and!; try done.
  - apply dict_get_del_eq.
  - change (emitted_names (?e :: ?l)) with (event_name e.1 :: emitted_names l).
    simpl. f_equal. by apply (emit_room_update_names _ _ room').
  - intros Hne Hfind. unfold on_disconnect.
    rewrite (bool_decide_eq_false_2 _ Hne), Hfind. fold room'.
    simpl. destruct (bool_decide (r_status room = waiting)); [|done].
    by destruct (tournaments w !! r_tournament_id room).
Qed.

Lemma on_remove_player_effect_witness :
  let r := on_remove_player "room01" "bob" (Some "alice") world_two_joined in
  let room' :=
    room_set_players (dict_del "bob" (players room_two_joined))
      room_two_joined in
  r.1 = set_rooms world_two_joined
          (dict_set (upper "room01") room' (rooms world_two_joined))
  ∧ room_of (upper "room01") r.1 = Some room'
  ∧ dict_get "bob" (players room') = None
  ∧ tournaments r.1 = tournaments world_two_joined
  ∧ r.2 = (ev_kicked, to_sid "sid-bob")
            :: emit_room_update (upper "room01") r.1
  ∧ emitted_names r.2 = ["kicked"; "room_update"]
  ∧ ("bob" ≠ "" →
     List.find (λ cr, dict_mem "bob" (players cr.2)) (rooms world_two_joined)
     = Some (upper "room01", room_two_joined) →
     rooms (on_disconnect (Some "bob") world_two_joined).1 = rooms r.1).
Proof.
  apply (on_remove_player_effect "room01" "bob" (Some "alice")
           world_two_joined room_two_joined "sid-bob").
  - reflexivity.
  - vm_compute; reflexivity.
  - reflexivity.
  - reflexivity.
Defined.

(** C4 fails as stated: the admin sends [start_tournament] for a room
    whose tournament is already active; the request is carried out again
    (a second [Match] row, a new bracket, [tournament_started]). *)
Lemma start_tournament_again :
  let r := on_start_tournament keep_order "room01" 300 (Some "alice")
             world_two_started in
  r_status <$> room_of "ROOM01" world_two_started = Some active
  ∧ t_status <$> (tournaments world_two_started !! 1) = Some active
  ∧ returned r = true
  ∧ emitted_names (emits_of r)
    = ["tournament_started"; "leaderboard_update"; "match_started";
       "match_started"]
  ∧ length (matches world_two_started) = 1%nat
  ∧ length (matches (world_after r)) = 2%nat
  ∧ world_after r ≠ world_two_started.
Proof.
  split_and!; try (vm_compute; reflexivity).
  intros H. apply (f_equal (λ w, length (matches w))) in H.
  vm_compute in H. discriminate.
Qed.

Lemma open_session_keeps room_code tc room acc e :
  rooms (open_session room_code tc room acc e).1 = rooms acc.1
  ∧ tournaments (open_session room_code tc room acc e).1 = tournaments acc.1.
Proof.
  destruct acc as [w out]. unfold open_session.
  destruct (bool_decide (be_status e = completed)); [done|].
  destruct (be_match_id e) as [mid|]; [|done].
  simpl. by destruct (Match_get mid _).
Qed.

Lemma open_sessions_keep room_code tc room br acc :
  rooms (foldl (open_session room_code tc room) acc br).1 = rooms acc.1
  ∧ tournaments (foldl (open_session room_code tc room) acc br).1
    = tournaments acc.1.
Proof.
  revert acc. induction br as [|e br IH]; intros acc; [done|].
  simpl. destruct (IH (open_session room_code tc room acc e)) as [-> ->].
  apply open_session_keeps.
Qed.

(** C4 (amended): [start_tournament] starts a tournament only when the
    caller is the room's admin and 2 to 10 players are present; with these
    guards passed (and the tournament row present) it starts whatever the
    room or tournament status is; a request that fails the guards changes
    no state and is answered by nothing or by one error. *)
Theorem on_start_tournament_guards shuffle raw tc username w :
  let r := on_start_tournament shuffle raw tc username w in
  ("tournament_started" ∈ emitted_names (emits_of r) →
     ∃ room, room_of (upper raw) w = Some room ∧ start_guards username room)
  ∧ (∀ room, room_of (upper raw) w = Some room →
       start_guards username room →
       is_Some (tournaments w !! r_tournament_id room) →
       returned r = true
       ∧ head (emitted_names (emits_of r)) = Some "tournament_started"
       ∧ r_status <$> room_of (upper raw) (world_after r) = Some active
       ∧ t_status <$> (tournaments (world_after r) !! r_tournament_id room)
         = Some active)
  ∧ (∀ room, room_of (upper raw) w = Some room →
       ¬ start_guards username room →
       r = Returned w []
       ∨ ∃ message, r = Returned w [(ev_error message, to_caller)])
  ∧ (room_of (upper raw) w = None → r = Returned w []).
Proof.
  intros r. subst r. unfold on_start_tournament, room_of, start_guards.
  destruct (truthy username) eqn:Ht; simpl.
  2:{ split_and!; try done.
      - intros []%elem_of_nil.
      - intros room _ [? _]. done.
      - intros. by left. }
  destruct (dict_get (upper raw) (rooms w)) as [room|] eqn:Hroom.
  2:{ split_and!; try done. intros []%elem_of_nil. }
  destruct (bool_decide (username = Some (admin room))) eqn:Hadm; simpl.
  2:{ apply bool_decide_eq_false in Hadm. split_and!; try done.
      - intros [=]%list_elem_of_singleton.
      - intros ? [= <-] (_ & ? & _). done.
      - intros ? [= <-] _. right. by eexists. }
  apply bool_decide_eq_true in Hadm.
  unfold dict_keys. rewrite !length_fmap.
  case_bool_decide as Hlo; simpl.
  { split_and!; try done.
    - intros [=]%list_elem_of_singleton.
    - intros ? [= <-] (_ & _ & ?). lia.
    - intros ? [= <-] _. right. by eexists. }
  case_bool_decide as Hhi; simpl.
  { split_and!; try done.
    - intros [=]%list_elem_of_singleton.
    - intros ? [= <-] (_ & _ & ?). lia.
    - intros ? [= <-] _. right. by eexists. }
  destruct (tournaments w !! r_tournament_id room) as [tournament|] eqn:Htour.
  2:{ split_and!; try done.
      - intros []%elem_of_nil.
      - intros ? [= <-] _ [? ?]. congruence.
      - intros ? [= <-] Hno. exfalso. apply Hno. split_and!; [done..|lia|lia]. }
  destruct (seat_pairs _ _ _ _ _) as [ms br] eqn:Hseat.
  match goal with
  | |- context [foldl ?f (?w1, ?o1) br] =>
    pose proof (open_sessions_keep (upper raw) tc
                  (room_set_bracket br
                     (room_set_default_time tc (room_set_status active room)))
                  br (w1, o1)) as [Hr Ht'];
    destruct (foldl f (w1, o1) br) as [w2 out2]
  end.
  simpl in Hr, Ht'. simpl.
  split_and!.
  - intros _. exists room. split_and!; [done..|lia|lia].
  - intros ? [= <-] _ _. split_and!; [done|done| |].
    + rewrite Hr. by rewrite dict_get_set_eq.
    + rewrite Ht'. by rewrite lookup_insert_eq.
  - intros ? [= <-] Hno. exfalso. apply Hno. split_and!; [done..|lia|lia].
  - done.
Qed.

Lemma on_start_tournament_guards_witness :
  returned (on_start_tournament keep_order "room01" 300 (Some "alice")
              world_two_started) = true
  ∧ head (emitted_names
            (emits_of (on_start_tournament keep_order "room01" 300
                         (Some "alice") world_two_started)))
    = Some "tournament_started"
  ∧ r_status <$>
      room_of (upper "room01")
        (world_after (on_start_tournament keep_order "room01" 300
                        (Some "alice") world_two_started))
    = Some active
  ∧ t_status <$>
      (tournaments
         (world_after (on_start_tournament keep_order "room01" 300
                         (Some "alice") world_two_started))
       !! r_tournament_id room_two_started)
    = Some active.
Proof.
  destruct (on_start_tournament_guards keep_order "room01" 300 (Some "alice")
              world_two_started) as (_ & Hstart & _).
  apply (Hstart room_two_started).
  - vm_compute; reflexivity.
  - split_and!; [reflexivity|reflexivity|simpl; lia|simpl; lia].
  - vm_compute. by eexists.
Defined.

(** * Further properties *)

(** ** Brackets and rows *)

Lemma seated_mono tid rn tc ms0 ms ms' ms'' p e :
  (length ms0 ≤ length ms)%nat → ms' `prefix_of` ms'' →
  seated tid rn tc ms ms' p e → seated tid rn tc ms0 ms'' p e.
Proof.
  intros Hlen [extra ->]. unfold seated. case_bool_decide; [done|].
  intros (id & -> & Hid & Hrow). exists id. split_and!; [done| | |].
  - lia.
  - rewrite length_app. lia.
  - rewrite lookup_app_l; [done|]. by eapply lookup_lt_Some.
Qed.

Lemma seat_pairs_acc tid rn tc pairs ms br0 :
  ∃ brn,
    (foldl (seat_pair tid rn tc) (ms, br0) pairs).2 = br0 ++ brn
    ∧ ms `prefix_of` (foldl (seat_pair tid rn tc) (ms, br0) pairs).1
    ∧ Forall2 (seated tid rn tc ms
                 (foldl (seat_pair tid rn tc) (ms, br0) pairs).1) pairs brn.
Proof.
  revert ms br0. induction pairs as [|[wh bl] pairs IH]; intros ms br0.
  - exists []. simpl. by rewrite app_nil_r.
  - simpl. destruct (bool_decide (bl = BYE)) eqn:Hbye.
    + destruct (IH ms (br0 ++ [mkEntry wh BYE (Some wh) completed None]))
        as (brn & Hbr & Hpre & Hall).
      exists (mkEntry wh BYE (Some wh) completed None :: brn).
      split_and!; [by rewrite Hbr, <- app_assoc|done|].
      constructor; [|done]. unfold seated. simpl. by rewrite Hbye.
    + set (row := mkMatch tid rn wh bl None None tc pending None).
      set (e := mkEntry wh bl None pending (Some (Z.of_nat (length ms) + 1))).
      destruct (IH (ms ++ [row]) (br0 ++ [e])) as (brn & Hbr & Hpre & Hall).
      exists (e :: brn).
      split_and!; [by rewrite Hbr, <- app_assoc| |].
      * etrans; [|exact Hpre]. by apply prefix_app_r.
      * constructor.
        -- apply (seated_mono tid rn tc ms ms (ms ++ [row])); [done|exact Hpre|].
           unfold seated. simpl. rewrite Hbye.
           exists (Z.of_nat (length ms) + 1). split_and!; [done|lia| |].
           ++ rewrite length_app. simpl. lia.
           ++ replace (Z.to_nat (Z.of_nat (length ms) + 1 - 1))
                with (length ms) by lia.
              by rewrite lookup_app_r, Nat.sub_diag by done.
        -- eapply Forall2_impl; [exact Hall|]. intros p e' Hs.
           eapply (seated_mono tid rn tc ms (ms ++ [row])).
           3: exact Hs.
           ++ rewrite length_app. lia.
           ++ done.
Qed.

Lemma seat_pairs_seated tid rn tc pairs ms :
  let r := seat_pairs tid rn tc pairs ms in
  ms `prefix_of` r.1
  ∧ length r.2 = length pairs
  ∧ Forall2 (seated tid rn tc ms r.1) pairs r.2
  ∧ length r.1
    = (length ms
       + length (filter (λ p : string * string, p.2 ≠ BYE) pairs))%nat.
Proof.
  unfold seat_pairs.
  destruct (seat_pairs_acc tid rn tc pairs ms []) as (brn & Hbr & Hpre & Hall).
  simpl. rewrite Hbr. simpl. split_and!; [done| |done|].
  - symmetry. by eapply Forall2_length.
  - clear. generalize (@nil BracketEntry) as br. revert ms.
    induction pairs as [|[wh bl] pairs IH]; intros ms br; simpl; [lia|].
    case_bool_decide as Hb.
    + rewrite IH, filter_cons_False; [done|]. simpl. by intros ?.
    + rewrite IH, length_app, filter_cons_True by done. simpl. lia.
Qed.

(** X3: The pairing loop keeps the rows it finds and appends one pending row
    per pair without bye; it returns one bracket entry per pair, in order:
    a bye entry is completed with its player as winner and has no match
    id, any other entry is pending and its match id is the key of a new
    row with the pair's players, round name and time control. *)
Theorem seat_pairs_bracket tid rn tc pairs ms :
  let r := seat_pairs tid rn tc pairs ms in
  ms `prefix_of` r.1
  ∧ length r.2 = length pairs
  ∧ Forall2 (seated tid rn tc ms r.1) pairs r.2
  ∧ length r.1
    = (length ms
       + length (filter (λ p : string * string, p.2 ≠ BYE) pairs))%nat.
Proof. exact (seat_pairs_seated tid rn tc pairs ms). Qed.

(** ** Round advancement: when and what *)

Lemma round_complete_only_when_done shuffle now room_code w :
  check_round_complete shuffle now room_code w = (w, [])
  ∨ ∃ room t,
      room_of room_code w = Some room
      ∧ tournaments w !! r_tournament_id room = Some t
      ∧ t_status t = active
      ∧ ∀ r, r ∈ Match_filter_by_round (r_tournament_id room)
                   (current_round t) w → status r.2 = completed.
Proof.
  unfold check_round_complete, room_of.
  destruct (dict_get room_code (rooms w)) as [room|] eqn:Hroom; [|by left].
  destruct (tournaments w !! r_tournament_id room) as [t|] eqn:Ht; [|by left].
  case_bool_decide as Hact; simpl; [|by left].
  destruct (forallb _ _) eqn:Hall; simpl. 2: by left.
  right. exists room, t. split_and!; [done..|].
  intros r Hr. rewrite forallb_forall in Hall.
  apply list_elem_of_In, Hall in Hr. by apply bool_decide_eq_true in Hr.
Qed.

(** X5: Round advancement does nothing (no change, no notification) unless
    the room and its tournament row exist, the tournament is active and
    every [Match] row of the current round is completed. *)
Theorem check_round_complete_waits shuffle now room_code w :
  check_round_complete shuffle now room_code w = (w, [])
  ∨ ∃ room t,
      room_of room_code w = Some room
      ∧ tournaments w !! r_tournament_id room = Some t
      ∧ t_status t = active
      ∧ ∀ r, r ∈ Match_filter_by_round (r_tournament_id room)
                   (current_round t) w → status r.2 = completed.
Proof. apply round_complete_only_when_done. Qed.

(** X6: A forced recheck changes nothing unless the caller is the room's
    admin, the tournament is active and every [Match] row of the current
    round is completed; anyone else gets the admin-only error. *)
Theorem on_force_next_round_guarded shuffle now raw username w :
  let r := on_force_next_round shuffle now raw username w in
  r = (w, [])
  ∨ r = (w, [(ev_error "Only admin can force next round", to_caller)])
  ∨ ∃ room t,
      room_of (upper raw) w = Some room
      ∧ username = Some (admin room)
      ∧ tournaments w !! r_tournament_id room = Some t
      ∧ t_status t = active
      ∧ ∀ r, r ∈ Match_filter_by_round (r_tournament_id room)
                   (current_round t) w → status r.2 = completed.
Proof.
  unfold on_force_next_round.
  destruct (truthy username); simpl; [|by left].
  destruct (dict_get (upper raw) (rooms w)) as [room|] eqn:Hroom; [|by left].
  case_bool_decide as Hadm; simpl; [|by right; left].
  destruct (round_complete_only_when_done shuffle now (upper raw) w)
    as [->|(room' & t & Hr & Ht & Hact & Hall)]; [by left|].
  right; right. unfold room_of in *. simplify_eq.
  eexists _, t. done.
Qed.

Lemma all_completed_forallb (rows : list (Z * Match)) :
  (∀ r, r ∈ rows → status r.2 = completed) →
  forallb (λ r, bool_decide (status r.2 = completed)) rows = true.
Proof.
  intros H. apply forallb_forall. intros r Hr%list_elem_of_In.
  apply bool_decide_eq_true. auto.
Qed.

Lemma played_loop_lookup names (us : gmap string User) name :
  NoDup names →
  foldl (λ us u, alter user_inc_tournaments_played u us) us names !! name
  = (if bool_decide (name ∈ names)
     then user_inc_tournaments_played else Datatypes.id) <$> (us !! name).
Proof.
  intros Hnd. revert us. induction Hnd as [|u names Hu Hnd IH]; intros us.
  - cbn [foldl]. rewrite bool_decide_eq_false_2 by apply not_elem_of_nil.
    by rewrite option_fmap_id.
  - cbn [foldl]. rewrite IH, lookup_alter.
    destruct (decide (u = name)) as [->|Hne].
    + rewrite (bool_decide_eq_false_2 _ Hu).
      rewrite bool_decide_eq_true_2 by (by left).
      rewrite option_fmap_id. done.
    + destruct (bool_decide_reflect (name ∈ names)) as [Hin|Hnin].
      * by rewrite bool_decide_eq_true_2 by (by right).
      * rewrite bool_decide_eq_false_2; [done|].
        intros [?|?]%elem_of_cons; congruence.
Qed.

Lemma emit_leaderboard_names room_code w room t :
  room_of room_code w = Some room →
  tournaments w !! r_tournament_id room = Some t →
  emitted_names (emit_leaderboard room_code w) = ["leaderboard_update"].
Proof. unfold room_of, emit_leaderboard. by intros -> ->. Qed.

(** X7: When every row of the current round is completed and exactly one
    winner was collected, round advancement completes the tournament: the
    tournament row gets status completed, the winner and the time; the
    room's status becomes completed; the winner's [tournament_wins] and the
    [tournaments_played] of every player present in the room go up by one
    and no other counter changes; no row and no session is touched. *)
Theorem tournament_completion shuffle now room_code w room t champion :
  room_of room_code w = Some room →
  tournaments w !! r_tournament_id room = Some t →
  t_status t = active →
  (∀ r, r ∈ Match_filter_by_round (r_tournament_id room) (current_round t) w →
        status r.2 = completed) →
  collect_winners
    (Match_filter_by_round (r_tournament_id room) (current_round t) w)
  = [champion] →
  NoDup (dict_keys (players room)) →
  let r := check_round_complete shuffle now room_code w in
  tournaments r.1
  = <[r_tournament_id room :=
        mkTournament (t_room_code t) (admin_username t) completed (Some now)
          (participants t) (Some champion) (current_round t) (rounds t)]>
      (tournaments w)
  ∧ room_of room_code r.1 = Some (room_set_status completed room)
  ∧ matches r.1 = matches w
  ∧ active_matches r.1 = active_matches w
  ∧ (∀ name,
       users r.1 !! name
       = (λ u, (if bool_decide (name ∈ dict_keys (players room))
                then user_inc_tournaments_played else Datatypes.id)
                 ((if bool_decide (name = champion)
                   then user_inc_tournament_wins else Datatypes.id) u))
           <$> (users w !! name))
  ∧ emitted_names r.2 = ["tournament_complete"; "leaderboard_update"].
Proof.
  intros Hroom Ht Hact Hall Hwin Hnd r. subst r.
  unfold check_round_complete. unfold room_of in Hroom.
  rewrite Hroom, Ht, (bool_decide_eq_true_2 _ Hact),
    (all_completed_forallb _ Hall), Hwin.
  simpl. split_and!; [done| |done|done| |].
  - apply dict_get_set_eq.
  - intros name. rewrite played_loop_lookup by done.
    rewrite lookup_alter. destruct (decide (champion = name)) as [->|Hne].
    + rewrite (bool_decide_eq_true_2 (name = name)) by done.
      by rewrite <- option_fmap_compose.
    + rewrite (bool_decide_eq_false_2 (name = champion)) by done. done.
  - change (emitted_names (?e :: ?l)) with (event_name e.1 :: emitted_names l).
    simpl. f_equal.
    eapply (emit_leaderboard_names _ _ (room_set_status completed room)).
    + apply dict_get_set_eq.
    + simpl. apply lookup_insert_eq.
Qed.

Lemma generate_bracket_length shuffle (l : list string) :
  (∀ l, shuffle l ≡ₚ l) →
  length (generate_bracket shuffle l) = ((length l + 1) / 2)%nat.
Proof.
  intros Hp. unfold generate_bracket.
  rewrite pair_consecutive_pair_up, pair_up_length, (Hp l), Nat.div2_div.
  f_equal. lia.
Qed.

Lemma check_round_complete_next shuffle now room_code w room t :
  room_of room_code w = Some room →
  tournaments w !! r_tournament_id room = Some t →
  t_status t = active →
  (∀ r, r ∈ Match_filter_by_round (r_tournament_id room) (current_round t) w →
        status r.2 = completed) →
  length (collect_winners
            (Match_filter_by_round (r_tournament_id room) (current_round t) w))
  ≠ 1%nat →
  check_round_complete shuffle now room_code w
  = next_round shuffle room_code room t
      (collect_winners
         (Match_filter_by_round (r_tournament_id room) (current_round t) w))
      w.
Proof.
  intros Hroom Ht Hact Hall Hlen.
  unfold check_round_complete, next_round. unfold room_of in Hroom.
  rewrite Hroom, Ht, (bool_decide_eq_true_2 _ Hact),
    (all_completed_forallb _ Hall).
  simpl negb. cbv iota.
  destruct (collect_winners _) as [|a [|b l]]; [|done|];
    by destruct (seat_pairs _ _ _ _ _).
Qed.

(** X8: When every row of the current round is completed and the number of
    winners is not one, round advancement names the next round after the
    number of winners and makes a bracket of ceil(k/2) entries for them.
    The rows it appends are pending and it opens no session: for every
    match id in the new bracket there is a pending row with the entry's
    players and no session, so a move in that match is refused with the
    error reply. *)
Theorem next_round_has_no_sessions shuffle now room_code w room t :
  room_of room_code w = Some room →
  tournaments w !! r_tournament_id room = Some t →
  t_status t = active →
  (∀ r, r ∈ Match_filter_by_round (r_tournament_id room) (current_round t) w →
        status r.2 = completed) →
  let winners :=
    collect_winners
      (Match_filter_by_round (r_tournament_id room) (current_round t) w) in
  length winners ≠ 1%nat →
  (∀ l, shuffle l ≡ₚ l) →
  (∀ id, Z.of_nat (length (matches w)) < id → active_matches w !! id = None) →
  let r := check_round_complete shuffle now room_code w in
  (current_round <$> (tournaments r.1 !! r_tournament_id room)
   = Some (get_round_name (length winners))
   ∧ t_status <$> (tournaments r.1 !! r_tournament_id room) = Some active)
  ∧ active_matches r.1 = active_matches w
  ∧ users r.1 = users w
  ∧ matches w `prefix_of` matches r.1
  ∧ emitted_names r.2 = ["new_round"; "leaderboard_update"]
  ∧ ∃ room',
      room_of room_code r.1 = Some room'
      ∧ players room' = players room
      ∧ r_status room' = r_status room
      ∧ length (bracket room') = ((length winners + 1) / 2)%nat
      ∧ ∀ e id, e ∈ bracket room' → be_match_id e = Some id →
          (∃ m, Match_get id r.1 = Some m
                ∧ status m = pending
                ∧ white_player m = be_white e
                ∧ black_player m = be_black e)
          ∧ active_matches r.1 !! id = None
          ∧ ∀ move fen_after username,
              on_make_move id move fen_after username r.1
              = (r.1, [(ev_error "Match not active", to_caller)]).
Proof.
  intros Hroom Ht Hact Hall winners Hlen Hperm Hfresh r. subst r.
  rewrite (check_round_complete_next _ _ _ _ _ _ Hroom Ht Hact Hall Hlen).
  fold winners. unfold next_round.
  set (rn := get_round_name (length winners)).
  set (pairs := generate_bracket shuffle winners).
  pose proof (seat_pairs_acc (r_tournament_id room) rn (default_time room)
                pairs (matches w) []) as (brn & Hbr & Hpre & Hseated).
  fold (seat_pairs (r_tournament_id room) rn (default_time room) pairs
          (matches w)) in Hbr, Hpre, Hseated.
  set (sp := seat_pairs _ _ _ _ _) in *. simpl in Hbr.
  set (w' := mkWorld _ _ _ _ _).
  assert (Hroom' : room_of room_code w' = Some (room_set_bracket sp.2 room))
    by apply dict_get_set_eq.
  cbn [fst snd].
  split_and!.
  - unfold w'. simpl. by rewrite lookup_insert_eq.
  - unfold w'. simpl. by rewrite lookup_insert_eq, Hact.
  - done.
  - done.
  - done.
  - change (emitted_names (?e :: ?l)) with (event_name e.1 :: emitted_names l).
    simpl. f_equal.
    eapply (emit_leaderboard_names _ _ (room_set_bracket sp.2 room));
      [done|]. unfold w'. simpl. apply lookup_insert_eq.
  - exists (room_set_bracket sp.2 room). split_and!; [done..| |].
    + simpl. rewrite Hbr.
      rewrite <- (Forall2_length _ _ _ Hseated).
      by apply generate_bracket_length.
    + intros e id He Hid. simpl in He. rewrite Hbr in He.
      apply list_elem_of_lookup in He as [i Hi].
      destruct (Forall2_lookup_r _ _ _ _ _ Hseated Hi) as (p & Hp & Hs).
      unfold seated in Hs. case_bool_decide as Hbye; [by subst e|].
      destruct Hs as (id' & -> & [Hlo Hhi] & Hrow). simpl in Hid.
      simplify_eq.
      assert (Hnone : active_matches w' !! id = None)
        by (unfold w'; simpl; by apply Hfresh).
      split_and!.
      * eexists. split.
        -- unfold Match_get, w'. simpl.
           rewrite bool_decide_eq_true_2 by lia. exact Hrow.
        -- done.
      * done.
      * intros. apply on_make_move_closed. unfold session_closed.
        by rewrite Hnone.
Qed.

Lemma tournament_completion_witness :
  tournaments
    (check_round_complete keep_order 9 "ROOM01" world_final_played).1
  = <[r_tournament_id room_two_started :=
        mkTournament (t_room_code tournament_two_started)
          (admin_username tournament_two_started) completed (Some 9)
          (participants tournament_two_started) (Some "alice")
          (current_round tournament_two_started)
          (rounds tournament_two_started)]>
      (tournaments world_final_played)
  ∧ emitted_names
      (check_round_complete keep_order 9 "ROOM01" world_final_played).2
    = ["tournament_complete"; "leaderboard_update"].
Proof.
  destruct (tournament_completion keep_order 9 "ROOM01" world_final_played
              room_two_started tournament_two_started "alice")
    as (Ht & _ & _ & _ & _ & Hn).
  - vm_compute; reflexivity.
  - vm_compute; reflexivity.
  - reflexivity.
  - intros r Hr. vm_compute in Hr.
    apply list_elem_of_singleton in Hr as ->. reflexivity.
  - vm_compute; reflexivity.
  - apply (bool_decide_unpack _). vm_compute. exact I.
  - split; [exact Ht|exact Hn].
Defined.

Lemma next_round_has_no_sessions_witness :
  active_matches
    (check_round_complete keep_order 9 "ROOM01" world_semis_played).1
  = active_matches world_semis_played
  ∧ emitted_names
      (check_round_complete keep_order 9 "ROOM01" world_semis_played).2
    = ["new_round"; "leaderboard_update"].
Proof.
  destruct (next_round_has_no_sessions keep_order 9 "ROOM01"
              world_semis_played room_four_started tournament_four_started)
    as (_ & Ha & _ & _ & Hn & _).
  - vm_compute; reflexivity.
  - vm_compute; reflexivity.
  - reflexivity.
  - intros r Hr. vm_compute in Hr.
    apply elem_of_cons in Hr as [->|Hr]; [reflexivity|].
    apply list_elem_of_singleton in Hr as ->. reflexivity.
  - vm_compute. lia.
  - intros l. reflexivity.
  - intros id _. apply lookup_empty.
  - split; [exact Ha|exact Hn].
Defined.

(** ** Counters and ratings at termination *)

Lemma users_field_alter {A} (p : User → A) (f : User → User) k
    (us : gmap string User) name :
  (∀ u, p (f u) = p u) → p <$> (alter f k us !! name) = p <$> (us !! name).
Proof.
  intros Hf. rewrite lookup_alter. case_decide; [subst|done].
  destruct (us !! name); simpl; [by rewrite Hf|done].
Qed.

Lemma users_field_played_loop {A} (p : User → A) names
    (us : gmap string User) name :
  (∀ u, p (user_inc_tournaments_played u) = p u) →
  p <$> (foldl (λ us u, alter user_inc_tournaments_played u us) us names
         !! name)
  = p <$> (us !! name).
Proof.
  intros Hp. revert us. induction names as [|u names IH]; intros us; [done|].
  simpl. rewrite IH. by apply users_field_alter.
Qed.

Lemma check_round_complete_users_field {A} (p : User → A) shuffle now
    room_code w name :
  (∀ u, p (user_inc_tournament_wins u) = p u) →
  (∀ u, p (user_inc_tournaments_played u) = p u) →
  p <$> (users (check_round_complete shuffle now room_code w).1 !! name)
  = p <$> (users w !! name).
Proof.
  intros Hw Hp. unfold check_round_complete.
  repeat case_match; simpl; try done.
  rewrite users_field_played_loop by done. by apply users_field_alter.
Qed.

(** The users table after a termination that finds its row, seen through
    a field that round advancement does not write. *)
Lemma handle_match_end_users {A} (p : User → A) shuffle now mid win res w
    st m0 name :
  (∀ u, p (user_inc_tournament_wins u) = p u) →
  (∀ u, p (user_inc_tournaments_played u) = p u) →
  active_matches w !! mid = Some st → ms_status st = active →
  Match_get mid w = Some m0 →
  p <$> (users (handle_match_end shuffle now mid win res w).1 !! name)
  = p <$> (update_player_stats (closed_row now win res m0) win res (users w)
           !! name).
Proof.
  intros Hpw Hpp Hst Hact Hm. unfold handle_match_end.
  rewrite Hst, bool_decide_eq_true_2 by done. simpl.
  change (Match_get mid (set_active_matches w ?x)) with (Match_get mid w).
  rewrite Hm. fold (closed_row now win res m0).
  destruct (bool_decide (ms_room_code st = "")); simpl; [done|].
  destruct (dict_get _ _) as [room|]; simpl; [|done].
  destruct (bool_decide (round_name _ = "Friendly")); simpl; [done|].
  match goal with
  | |- context [check_round_complete ?s ?n ?c ?x] =>
    pose proof (check_round_complete_users_field p s n c x name Hpw Hpp) as Hk;
    destruct (check_round_complete s n c x) as [w1 o3]
  end.
  simpl in *. by rewrite Hk.
Qed.

Ltac alter_lookups :=
  repeat first [rewrite lookup_alter_eq | rewrite lookup_alter_ne by done].

Lemma update_player_stats_draw m win (us : gmap string User) wu bu :
  us !! white_player m = Some wu → us !! black_player m = Some bu →
  white_player m ≠ black_player m →
  update_player_stats m win "draw" us !! white_player m
  = Some (user_add 0 0 0 1 (user_add 1 0 0 0 wu))
  ∧ update_player_stats m win "draw" us !! black_player m
    = Some (user_add 0 0 0 1 (user_add 1 0 0 0 bu))
  ∧ ∀ name, name ≠ white_player m → name ≠ black_player m →
      update_player_stats m win "draw" us !! name = us !! name.
Proof.
  intros Hw Hb Hne. unfold update_player_stats. rewrite Hw, Hb.
  rewrite bool_decide_eq_true_2 by done.
  split_and!; [| |intros name ? ?]; alter_lookups; by rewrite ?Hw, ?Hb.
Qed.

Lemma update_player_stats_white m res (us : gmap string User) wu bu :
  us !! white_player m = Some wu → us !! black_player m = Some bu →
  white_player m ≠ black_player m → res ≠ "draw" →
  let new := calculate_elo (elo_rating wu) (elo_rating bu) in
  update_player_stats m (Some (white_player m)) res us !! white_player m
  = Some (user_set_elo new.1 (user_add 0 1 0 0 (user_add 1 0 0 0 wu)))
  ∧ update_player_stats m (Some (white_player m)) res us !! black_player m
    = Some (user_set_elo new.2 (user_add 0 0 1 0 (user_add 1 0 0 0 bu)))
  ∧ ∀ name, name ≠ white_player m → name ≠ black_player m →
      update_player_stats m (Some (white_player m)) res us !! name
      = us !! name.
Proof.
  intros Hw Hb Hne Hres new. unfold update_player_stats. rewrite Hw, Hb.
  rewrite (bool_decide_eq_false_2 _ Hres), bool_decide_eq_true_2 by done.
  alter_lookups. rewrite Hw, Hb. simpl. fold new.
  destruct new as [nw nb]. simpl.
  split_and!; [| |intros name ? ?]; alter_lookups; by rewrite ?Hw, ?Hb.
Qed.

Lemma update_player_stats_black m res (us : gmap string User) wu bu :
  us !! white_player m = Some wu → us !! black_player m = Some bu →
  white_player m ≠ black_player m → res ≠ "draw" →
  let new := calculate_elo (elo_rating bu) (elo_rating wu) in
  update_player_stats m (Some (black_player m)) res us !! black_player m
  = Some (user_set_elo new.1 (user_add 0 1 0 0 (user_add 1 0 0 0 bu)))
  ∧ update_player_stats m (Some (black_player m)) res us !! white_player m
    = Some (user_set_elo new.2 (user_add 0 0 1 0 (user_add 1 0 0 0 wu)))
  ∧ ∀ name, name ≠ white_player m → name ≠ black_player m →
      update_player_stats m (Some (black_player m)) res us !! name
      = us !! name.
Proof.
  intros Hw Hb Hne Hres new. unfold update_player_stats. rewrite Hw, Hb.
  rewrite (bool_decide_eq_false_2 _ Hres).
  rewrite (bool_decide_eq_false_2 (Some (black_player m) = Some (white_player m)))
    by congruence.
  rewrite bool_decide_eq_true_2 by done.
  alter_lookups. rewrite Hw, Hb. simpl. fold new.
  destruct new as [nb nw]. simpl.
  split_and!; [| |intros name ? ?]; alter_lookups; by rewrite ?Hw, ?Hb.
Qed.

Lemma update_player_stats_other m win res (us : gmap string User) name :
  res ≠ "draw" → win ≠ Some (white_player m) → win ≠ Some (black_player m) →
  score <$> (update_player_stats m win res us !! name)
  = score <$> (us !! name).
Proof.
  intros Hres Hw Hb. unfold update_player_stats.
  rewrite (bool_decide_eq_false_2 _ Hres), (bool_decide_eq_false_2 _ Hw),
    (bool_decide_eq_false_2 _ Hb).
  destruct (us !! white_player m), (us !! black_player m); try done.
  by rewrite !users_field_alter
    by (intros; unfold score; simpl; by rewrite !Z.add_0_r).
Qed.

Lemma update_player_stats_missing m win res (us : gmap string User) :
  us !! white_player m = None ∨ us !! black_player m = None →
  update_player_stats m win res us = us.
Proof.
  unfold update_player_stats. intros [-> | ->]; [done|].
  by destruct (us !! white_player m).
Qed.

Lemma tally_tournament_wins u : tally (user_inc_tournament_wins u) = tally u.
Proof. done. Qed.
Lemma tally_tournaments_played u :
  tally (user_inc_tournaments_played u) = tally u.
Proof. done. Qed.

(** X9: A draw (result "draw") of a match between two distinct users with
    [User] rows adds one to [total_matches] and to [total_draws] of both
    players and leaves their wins, losses and ratings, and every counter
    of every other user, as they were. *)
Theorem draw_counts shuffle now mid win w st m0 wu bu :
  active_matches w !! mid = Some st → ms_status st = active →
  Match_get mid w = Some m0 →
  users w !! white_player m0 = Some wu →
  users w !! black_player m0 = Some bu →
  white_player m0 ≠ black_player m0 →
  let us' := users (handle_match_end shuffle now mid win "draw" w).1 in
  tally <$> (us' !! white_player m0)
  = Some (total_matches wu + 1,
          (total_wins wu, total_losses wu, total_draws wu + 1, elo_rating wu))
  ∧ tally <$> (us' !! black_player m0)
    = Some (total_matches bu + 1,
            (total_wins bu, total_losses bu, total_draws bu + 1,
             elo_rating bu))
  ∧ ∀ name, name ≠ white_player m0 → name ≠ black_player m0 →
      tally <$> (us' !! name) = tally <$> (users w !! name).
Proof.
  intros Hst Hact Hm Hw Hb Hne us'. subst us'.
  destruct (update_player_stats_draw (closed_row now win "draw" m0) win
              (users w) wu bu Hw Hb Hne) as (Hsw & Hsb & Hso).
  split_and!; [| |intros name ? ?];
    rewrite (handle_match_end_users tally _ _ _ _ _ _ st m0 _
               tally_tournament_wins tally_tournaments_played Hst Hact Hm).
  - change (white_player m0)
      with (white_player (closed_row now win "draw" m0)).
    rewrite Hsw. unfold tally, score. simpl. by rewrite ?Z.add_0_r, ?Z.add_0_l.
  - change (black_player m0)
      with (black_player (closed_row now win "draw" m0)).
    rewrite Hsb. unfold tally, score. simpl. by rewrite ?Z.add_0_r, ?Z.add_0_l.
  - by rewrite Hso.
Qed.


Lemma draw_counts_witness :
  tally <$>
    (users (handle_match_end keep_order 10 1 None "draw" world_two_started).1
     !! white_player row_1)
  = Some (total_matches (new_user "alice") + 1,
          (total_wins (new_user "alice"), total_losses (new_user "alice"),
           total_draws (new_user "alice") + 1,
           elo_rating (new_user "alice"))).
Proof.
  destruct (draw_counts keep_order 10 1 None world_two_started session_1
              row_1 (new_user "alice") (new_user "bob")) as (Hw & _).
  - vm_compute; reflexivity.
  - reflexivity.
  - vm_compute; reflexivity.
  - vm_compute; reflexivity.
  - vm_compute; reflexivity.
  - discriminate.
  - exact Hw.
Defined.


(** ** Rooms under match events *)

Lemma dict_get_set_proj {K V A} `{EqDecision K} (f : V → A) (k k' : K)
    (v v0 : V) (d : list (K * V)) :
  dict_get k d = Some v0 → f v = f v0 →
  f <$> dict_get k' (dict_set k v d) = f <$> dict_get k' d.
Proof.
  intros Hk Hf. destruct (decide (k = k')) as [<-|Hne].
  - by rewrite dict_get_set_eq, Hk; simpl; rewrite Hf.
  - by rewrite dict_get_set_ne.
Qed.

Lemma check_round_complete_roster shuffle now room_code w code :
  roster <$> room_of code (check_round_complete shuffle now room_code w).1
  = roster <$> room_of code w.
Proof.
  unfold check_round_complete, room_of.
  destruct (dict_get room_code (rooms w)) as [room|] eqn:Hroom; [|done].
  repeat case_match; simpl; try done;
    by apply (dict_get_set_proj roster _ _ _ room).
Qed.

Lemma handle_match_end_roster shuffle now mid win res w code :
  roster <$> room_of code (handle_match_end shuffle now mid win res w).1
  = roster <$> room_of code w.
Proof.
  unfold handle_match_end.
  destruct (active_matches w !! mid) as [st|]; [|done].
  destruct (bool_decide (ms_status st = active)); simpl; [|done].
  destruct (Match_get mid _) as [m0|]; simpl; [|done].
  destruct (bool_decide (ms_room_code st = "")); simpl; [done|].
  destruct (dict_get (ms_room_code st) (rooms w)) as [room|] eqn:Hroom;
    simpl; [|done].
  destruct (bool_decide (round_name _ = "Friendly")); simpl.
  - unfold room_of. simpl. by apply (dict_get_set_proj roster _ _ _ room).
  - match goal with
    | |- context [check_round_complete ?s ?n ?c ?x] =>
      pose proof (check_round_complete_roster s n c x code) as Hk;
      destruct (check_round_complete s n c x) as [w1 o3]
    end.
    simpl in *. unfold room_of in *. simpl. rewrite Hk. simpl.
    by apply (dict_get_set_proj roster _ _ _ room).
Qed.

Lemma terminate_roster shuffle now mid t w code :
  roster <$> room_of code (terminate shuffle now mid t w).1
  = roster <$> room_of code w.
Proof.
  destruct t; unfold terminate, on_update_timer, on_game_over, on_resign;
    (destruct (active_matches w !! mid) as [st|]; [|done]);
    repeat (case_bool_decide; simpl; try done);
    try (by rewrite handle_match_end_roster).
Qed.

Lemma on_make_move_tables mid move fen_after username w :
  let w' := (on_make_move mid move fen_after username w).1 in
  rooms w' = rooms w ∧ users w' = users w
  ∧ tournaments w' = tournaments w ∧ matches w' = matches w.
Proof. unfold on_make_move. by repeat case_match. Qed.

Lemma deliver_roster mid e w code :
  roster <$> room_of code (deliver mid e w).1 = roster <$> room_of code w.
Proof.
  destruct e as [move fen_after u|sh nw t]; simpl; [|apply terminate_roster].
  unfold room_of.
  by destruct (on_make_move_tables mid move fen_after u w) as (-> & _).
Qed.

(** X14: No event addressed to a match (move, clock report, game over,
    resignation, in any sequence) and no forced recheck changes who is in a
    room: tournament id, admin, players, pending offers and default time
    of every room stay as they are; only brackets and statuses move. *)
Theorem match_events_keep_rosters shuffle now mid es w raw username code :
  roster <$> room_of code (deliver_all mid es w).1 = roster <$> room_of code w
  ∧ roster <$>
      room_of code (on_force_next_round shuffle now raw username w).1
    = roster <$> room_of code w.
Proof.
  split.
  - revert w. induction es as [|e es IH]; intros w; [done|]. simpl.
    pose proof (deliver_roster mid e w code) as He.
    destruct (deliver mid e w) as [w1 o1]. simpl in He.
    specialize (IH w1). destruct (deliver_all mid es w1) as [w2 o2].
    simpl in *. by rewrite IH.
  - unfold on_force_next_round.
    repeat case_match; simpl; try done. apply check_round_complete_roster.
Qed.

(** ** Friendly matches and the bracket at termination *)


(** X16: The bracket loop of a termination keeps the players and the match id
    of every entry; an entry of another match, and so every bye entry, is
    unchanged, and an entry that changes gets the winner and the status
    completed. *)
Theorem bracket_record_entries mid win br :
  Forall2 (λ e e',
             be_white e' = be_white e ∧ be_black e' = be_black e
             ∧ be_match_id e' = be_match_id e
             ∧ (be_match_id e ≠ Some mid → e' = e)
             ∧ (e' = e ∨ (be_winner e' = win ∧ be_status e' = completed)))
          br (bracket_record mid win br).
Proof.
  induction br as [|e br IH]; simpl; [constructor|].
  case_bool_decide as He.
  - constructor; [split_and!; try done; by right|].
    clear. induction br; constructor; [split_and!; auto|done].
  - constructor; [split_and!; auto|done].
Qed.


Lemma normalise_time_control_range tc :
  60 ≤ normalise_time_control tc ≤ 3600
  ∧ (60 ≤ tc ≤ 3600 → normalise_time_control tc = tc)
  ∧ (¬ (60 ≤ tc ≤ 3600) → normalise_time_control tc = 300).
Proof.
  unfold normalise_time_control.
  destruct (bool_decide_reflect (60 ≤ tc ≤ 3600)) as [Hin|Hout].
  - rewrite andb_false_r. simpl. split; [lia|split; [done|intros; lia]].
  - rewrite andb_true_r.
    assert (Hnot : tc ∉ [60; 180; 300; 600]).
    { rewrite !not_elem_of_cons. split_and!; [lia..|apply not_elem_of_nil]. }
    rewrite (bool_decide_eq_false_2 _ Hnot). simpl.
    split; [lia|split; [intros; lia|done]].
Qed.

Lemma on_match_request_ok raw opponent tc u w room :
  u ≠ "" → room_of (upper raw) w = Some room →
  dict_mem u (players room) = true →
  dict_mem opponent (players room) = true →
  (on_match_request raw opponent tc (Some u) w).1
  = set_rooms w
      (dict_set (upper raw)
         (room_set_match_requests
            (dict_set (u, opponent) (normalise_time_control tc)
               (match_requests room)) room)
         (rooms w)).
Proof.
  intros Hu Hroom Hmu Hmo. unfold on_match_request. unfold room_of in Hroom.
  by rewrite (bool_decide_eq_false_2 _ Hu), Hroom, Hmu, Hmo.
Qed.

(** X18: A friendly match offer is stored only when the sender and the
    opponent are both among the room's players; the stored time control is
    the one sent when that is between 60 and 3600 seconds and 300
    otherwise, so it is always between 60 and 3600; the offer replaces an
    earlier one for the same pair, and nothing else changes: other offers,
    players, sessions and tables. *)
Theorem on_match_request_stores raw opponent tc username w :
  let r := on_match_request raw opponent tc username w in
  r = (w, [])
  ∨ ∃ u room room',
      username = Some u ∧ u ≠ ""
      ∧ room_of (upper raw) w = Some room
      ∧ dict_mem u (players room) = true
      ∧ dict_mem opponent (players room) = true
      ∧ room_of (upper raw) r.1 = Some room'
      ∧ (∃ stored,
           dict_get (u, opponent) (match_requests room') = Some stored
           ∧ 60 ≤ stored ≤ 3600
           ∧ (60 ≤ tc ≤ 3600 → stored = tc)
           ∧ (¬ (60 ≤ tc ≤ 3600) → stored = 300))
      ∧ (∀ key, key ≠ (u, opponent) →
           dict_get key (match_requests room')
           = dict_get key (match_requests room))
      ∧ roster room' = (r_tournament_id room, admin room, players room,
                        match_requests room', default_time room)
      ∧ (active_matches r.1 = active_matches w ∧ users r.1 = users w
         ∧ tournaments r.1 = tournaments w ∧ matches r.1 = matches w).
Proof.
  intros r. subst r. unfold on_match_request, room_of.
  destruct username as [u|]; [|by left].
  case_bool_decide as Hu; [by left|].
  destruct (dict_get (upper raw) (rooms w)) as [room|] eqn:Hroom; [|by left].
  destruct (dict_mem u (players room)) eqn:Hmu; simpl; [|by left].
  destruct (dict_mem opponent (players room)) eqn:Hmo; simpl; [|by left].
  right.
  exists u, room,
    (room_set_match_requests
       (dict_set (u, opponent) (normalise_time_control tc)
          (match_requests room)) room).
  split_and!; try done.
  - apply dict_get_set_eq.
  - eexists. split; [simpl; apply dict_get_set_eq|].
    apply normalise_time_control_range.
  - intros key Hkey. simpl. by rewrite dict_get_set_ne.
Qed.

(** ** Friendly match offers *)

Lemma dict_del_set {K V} `{EqDecision K} (k : K) (v : V) (d : list (K * V)) :
  dict_del k (dict_set k v d) = dict_del k d.
Proof.
  unfold dict_set, dict_del. destruct (dict_mem k d).
  - induction d as [|[k' v'] d IH]; [done|]. rewrite fmap_cons. simpl.
    destruct (bool_decide (k' = k)) eqn:E; simpl.
    + by rewrite bool_decide_eq_true_2.
    + rewrite E. simpl. by rewrite IH.
  - rewrite List.filter_app. simpl. rewrite bool_decide_eq_true_2 by done.
    simpl. by rewrite app_nil_r.
Qed.

Lemma on_match_response_found raw requester accepted u w room tc :
  u ≠ "" → room_of (upper raw) w = Some room →
  dict_get (requester, u) (match_requests room) = Some tc →
  let room' :=
    room_set_match_requests
      (dict_del (requester, u) (match_requests room)) room in
  let rooms' := dict_set (upper raw) room' (rooms w) in
  let id := Z.of_nat (length (matches w)) + 1 in
  (on_match_response raw requester accepted (Some u) w).1
  = if accepted
    then mkWorld rooms'
           (<[id := mkMatchState (upper raw) requester u tc tc turn_w
                      start_fen active id]> (active_matches w))
           (users w) (tournaments w)
           (matches w ++ [mkMatch (r_tournament_id room) "Friendly" requester
                            u None None tc active None])
    else set_rooms w rooms'.
Proof.
  intros Hu Hroom Hoffer room' rooms' id. unfold on_match_response.
  unfold room_of in Hroom.
  rewrite (bool_decide_eq_false_2 _ Hu), Hroom, Hoffer.
  by destruct accepted.
Qed.

Lemma on_match_response_missing raw requester accepted u w room :
  u ≠ "" → room_of (upper raw) w = Some room →
  dict_get (requester, u) (match_requests room) = None →
  on_match_response raw requester accepted (Some u) w
  = (w, [(base_event (ev_error "Match request not found"), to_caller)]).
Proof.
  intros Hu Hroom Hoffer. unfold on_match_response. unfold room_of in Hroom.
  by rewrite (bool_decide_eq_false_2 _ Hu), Hroom, Hoffer.
Qed.

(** X19: Answering an offer, by accepting or by declining, consumes it: the
    offer of this requester to this user is gone from the room, the other
    offers and the players stay, and a second answer, whatever it is, gets
    the offer-not-found error and changes nothing. *)
Theorem on_match_response_consumes raw requester accepted again u w room tc :
  u ≠ "" → room_of (upper raw) w = Some room →
  dict_get (requester, u) (match_requests room) = Some tc →
  let r := on_match_response raw requester accepted (Some u) w in
  (∃ room',
     room_of (upper raw) r.1 = Some room'
     ∧ dict_get (requester, u) (match_requests room') = None
     ∧ (∀ key, key ≠ (requester, u) →
          dict_get key (match_requests room')
          = dict_get key (match_requests room))
     ∧ players room' = players room)
  ∧ on_match_response raw requester again (Some u) r.1
    = (r.1, [(base_event (ev_error "Match request not found"), to_caller)]).
Proof.
  intros Hu Hroom Hoffer r.
  set (room' := room_set_match_requests
                  (dict_del (requester, u) (match_requests room)) room).
  assert (Hroom' : room_of (upper raw) r.1 = Some room').
  { unfold r.
    rewrite (on_match_response_found _ _ _ _ _ _ _ Hu Hroom Hoffer).
    unfold room_of. destruct accepted; simpl; apply dict_get_set_eq. }
  assert (Hgone : dict_get (requester, u) (match_requests room') = None)
    by apply dict_get_del_eq.
  split.
  - exists room'. split_and!; [done..| |done].
    intros key Hkey. simpl. by rewrite dict_get_del_ne.
  - by apply (on_match_response_missing _ _ _ _ _ room').
Qed.

(** X20: An offer from a player to another player of the room followed by
    the other's acceptance appends one active row with round name
    "Friendly", the requester as white and the acceptor as black, and
    opens its session with both clocks at the offered time control, which
    is between 60 and 3600 seconds; the offer is consumed and the users
    and tournaments tables are as before. *)
Theorem offer_then_accept raw tc a b w room :
  a ≠ "" → b ≠ "" → room_of (upper raw) w = Some room →
  dict_mem a (players room) = true → dict_mem b (players room) = true →
  let w1 := (on_match_request raw b tc (Some a) w).1 in
  let w2 := (on_match_response raw a true (Some b) w1).1 in
  let id := Z.of_nat (length (matches w)) + 1 in
  let stored := normalise_time_control tc in
  60 ≤ stored ≤ 3600
  ∧ matches w2
    = matches w ++ [mkMatch (r_tournament_id room) "Friendly" a b None None
                      stored active None]
  ∧ active_matches w2
    = <[id := mkMatchState (upper raw) a b stored stored turn_w start_fen
                active id]> (active_matches w)
  ∧ Match_get id w2
    = Some (mkMatch (r_tournament_id room) "Friendly" a b None None stored
              active None)
  ∧ users w2 = users w ∧ tournaments w2 = tournaments w
  ∧ roster <$> room_of (upper raw) w2
    = Some (r_tournament_id room, admin room, players room,
            dict_del (a, b) (match_requests room), default_time room).
Proof.
  intros Ha Hb Hroom Hma Hmb w1 w2 id stored.
  pose proof (on_match_request_ok raw b tc a w room Ha Hroom Hma Hmb) as H1.
  fold w1 stored in H1.
  set (room1 := room_set_match_requests
                  (dict_set (a, b) stored (match_requests room)) room) in H1.
  assert (Hroom1 : room_of (upper raw) w1 = Some room1).
  { rewrite H1. apply dict_get_set_eq. }
  assert (Hoffer : dict_get (a, b) (match_requests room1) = Some stored)
    by apply dict_get_set_eq.
  pose proof (on_match_response_found raw a true b w1 room1 stored Hb Hroom1
                Hoffer) as H2.
  fold w2 in H2. simpl in H2.
  assert (Hm1 : matches w1 = matches w) by (by rewrite H1).
  rewrite H2, Hm1. simpl. split_and!.
  - apply normalise_time_control_range.
  - apply normalise_time_control_range.
  - done.
  - by rewrite H1.
  - unfold Match_get. simpl. rewrite bool_decide_eq_true_2 by lia.
    replace (Z.to_nat (id - 1)) with (length (matches w)) by lia.
    by rewrite lookup_app_r, Nat.sub_diag by done.
  - by rewrite H1.
  - by rewrite H1.
  - unfold room_of. simpl. rewrite dict_get_set_eq. simpl. unfold roster.
    simpl. by rewrite dict_del_set.
Qed.

Lemma on_match_response_consumes_witness :
  on_match_response "room01" "alice" true (Some "bob")
    (on_match_response "room01" "alice" false (Some "bob") world_offered).1
  = ((on_match_response "room01" "alice" false (Some "bob") world_offered).1,
     [(base_event (ev_error "Match request not found"), to_caller)]).
Proof.
  destruct (on_match_response_consumes "room01" "alice" false true "bob"
              world_offered room_offered 180) as (_ & Hagain).
  - discriminate.
  - vm_compute; reflexivity.
  - reflexivity.
  - exact Hagain.
Defined.

Lemma offer_then_accept_witness :
  matches
    (on_match_response "room01" "alice" true (Some "bob")
       (on_match_request "room01" "bob" 7 (Some "alice") world_two_joined).1).1
  = matches world_two_joined
    ++ [mkMatch (r_tournament_id room_two_joined) "Friendly" "alice" "bob"
          None None (normalise_time_control 7) active None].
Proof.
  destruct (offer_then_accept "room01" 7 "alice" "bob" world_two_joined
              room_two_joined) as (_ & Hm & _).
  - discriminate.
  - discriminate.
  - vm_compute; reflexivity.
  - reflexivity.
  - reflexivity.
  - exact Hm.
Defined.

(** ** Dictionaries: keys and sizes *)

Section dict_shape.
Context {K V : Type} `{EqDecision K}.
Implicit Types (d : list (K * V)) (k : K) (v : V).

Lemma dict_get_None_keys k d : dict_get k d = None ↔ k ∉ dict_keys d.
Proof.
  unfold dict_keys. induction d as [|[k' v'] d IH]; simpl.
  - split; [intros _; apply not_elem_of_nil|done].
  - rewrite dict_get_cons, not_elem_of_cons. case_bool_decide; subst.
    + split; [done|]. intros [? _]. done.
    + rewrite IH. split; [done|by intros [_ ?]].
Qed.

Lemma dict_get_Some_elem k v d : dict_get k d = Some v → (k, v) ∈ d.
Proof.
  induction d as [|[k' v'] d IH]; [done|]. rewrite dict_get_cons.
  case_bool_decide; subst.
  - intros [= ->]. by left.
  - intros ?. right. auto.
Qed.

Lemma dict_get_elem_NoDup k v d :
  NoDup (dict_keys d) → (k, v) ∈ d → dict_get k d = Some v.
Proof.
  unfold dict_keys. induction d as [|[k' v'] d IH]; simpl.
  - by intros _ ?%elem_of_nil.
  - intros [Hk Hnd]%NoDup_cons [[= -> ->]|Hin]%elem_of_cons;
      rewrite dict_get_cons.
    + by rewrite bool_decide_eq_true_2.
    + rewrite bool_decide_eq_false_2; [auto|].
      intros ->. apply Hk. apply list_elem_of_fmap. by exists (k, v).
Qed.

Lemma dict_keys_set k v d :
  dict_keys (dict_set k v d)
  = if dict_mem k d then dict_keys d else dict_keys d ++ [k].
Proof.
  unfold dict_set, dict_keys. destruct (dict_mem k d).
  - rewrite <- list_fmap_compose. apply list_fmap_ext.
    intros _ [k' v'] _. simpl. by case_bool_decide; subst.
  - by rewrite fmap_app.
Qed.

Lemma dict_set_length k v d :
  length (dict_set k v d)
  = if dict_mem k d then length d else S (length d).
Proof.
  unfold dict_set. destruct (dict_mem k d).
  - by rewrite length_fmap.
  - rewrite length_app. simpl. lia.
Qed.

Lemma dict_set_elem k v d x : x ∈ dict_set k v d → x ∈ d ∨ x = (k, v).
Proof.
  unfold dict_set. destruct (dict_mem k d).
  - intros ([k' v'] & -> & Hin)%list_elem_of_fmap. simpl.
    case_bool_decide; auto.
  - intros [?|?%list_elem_of_singleton]%elem_of_app; auto.
Qed.

Lemma dict_keys_set_NoDup k v d :
  NoDup (dict_keys d) → NoDup (dict_keys (dict_set k v d)).
Proof.
  intros Hnd. rewrite dict_keys_set. destruct (dict_mem k d) eqn:E; [done|].
  apply dict_mem_false, dict_get_None_keys in E.
  apply NoDup_app. split_and!; [done| |apply NoDup_singleton].
  intros x Hx ->%list_elem_of_singleton. done.
Qed.

Lemma dict_keys_del k d :
  dict_keys (dict_del k d) = filter (λ k', k' ≠ k) (dict_keys d).
Proof.
  unfold dict_keys, dict_del. induction d as [|[k' v'] d IH]; [done|].
  simpl. case_bool_decide; simpl.
  - rewrite filter_cons_False by (simpl; auto). done.
  - rewrite filter_cons_True by done. by f_equal.
Qed.

Lemma dict_del_length k d : (length (dict_del k d) ≤ length d)%nat.
Proof.
  unfold dict_del. induction d as [|[k' v'] d IH]; simpl; [done|].
  destruct (negb _); simpl; lia.
Qed.

Lemma dict_del_absent k d : dict_get k d = None → dict_del k d = d.
Proof.
  unfold dict_del. induction d as [|[k' v'] d IH]; [done|].
  rewrite dict_get_cons. simpl. case_bool_decide; [done|].
  intros ?. simpl. f_equal. auto.
Qed.
End dict_shape.

(** ** Joining and leaving *)

Section dict_round_trip.
Context {K V : Type} `{EqDecision K}.
Implicit Types (d : list (K * V)) (k : K) (v : V).

Lemma dict_mem_Some k d v : dict_get k d = Some v → dict_mem k d = true.
Proof. intros Hget. unfold dict_mem. rewrite Hget. by apply bool_decide_eq_true. Qed.

Lemma dict_mem_None k d : dict_get k d = None → dict_mem k d = false.
Proof.
  intros Hget. unfold dict_mem. rewrite Hget.
  apply bool_decide_eq_false. by intros [? ?].
Qed.

Lemma dict_del_set_absent k v d :
  dict_get k d = None → dict_del k (dict_set k v d) = d.
Proof.
  intros Hget. unfold dict_set. rewrite (dict_mem_None _ _ Hget).
  unfold dict_del. rewrite List.filter_app. simpl.
  rewrite bool_decide_eq_true_2 by done. simpl. rewrite app_nil_r.
  apply dict_del_absent, Hget.
Qed.

Lemma dict_set_restore k v v' d :
  NoDup (dict_keys d) → dict_get k d = Some v →
  dict_set k v (dict_set k v' d) = d.
Proof.
  intros Hnd Hget.
  assert (Hmem' : dict_mem k (dict_set k v' d) = true).
  { apply (dict_mem_Some _ _ v'). by rewrite dict_get_set_eq. }
  unfold dict_set at 1. rewrite Hmem'.
  unfold dict_set. rewrite (dict_mem_Some _ _ _ Hget).
  rewrite <- list_fmap_compose.
  rewrite <- (list_fmap_id d) at 2. apply list_fmap_ext.
  intros i [k0 v0] Hi. simpl.
  destruct (bool_decide (k0 = k)) eqn:Hk; simpl.
  - rewrite bool_decide_eq_true_2 by done.
    apply bool_decide_eq_true in Hk as ->.
    apply list_elem_of_lookup_2 in Hi.
    pose proof (dict_get_elem_NoDup _ _ _ Hnd Hi) as Hv0. congruence.
  - by rewrite Hk.
Qed.

Lemma find_dict_set (P : K * V → bool) k v v' d :
  (∀ p, p ∈ d → P p = false) → P (k, v') = true →
  dict_get k d = Some v →
  List.find P (dict_set k v' d) = Some (k, v').
Proof.
  intros Hall HP Hget. unfold dict_set. rewrite (dict_mem_Some _ _ _ Hget).
  revert Hget Hall. unfold dict_get.
  induction d as [|[k0 v0] d IH]; simpl; [done|]. intros Hget Hall.
  destruct (bool_decide (k0 = k)) eqn:Hk; simpl.
  - by rewrite HP.
  - rewrite (Hall (k0, v0)) by apply list_elem_of_here.
    apply IH; [done|]. intros p Hp. apply Hall. by apply list_elem_of_further.
Qed.
End dict_round_trip.

Lemma remove_first_snoc x l : x ∉ l → remove_first x (l ++ [x]) = l.
Proof.
  induction l as [|y l IH]; simpl; intros Hx.
  - by rewrite bool_decide_eq_true_2.
  - apply not_elem_of_cons in Hx as [Hxy Hx].
    rewrite bool_decide_eq_false_2 by done. by rewrite IH.
Qed.

(** X25: Joining a waiting room and then disconnecting restores the state:
    for a user who is in no room and not among the tournament's
    participants, a join into a waiting room with fewer than ten players
    followed by the disconnect of that user leaves rooms, tournaments and
    every table exactly as before the join. *)
Theorem join_then_disconnect raw u sid room w :
  u ≠ "" →
  NoDup (dict_keys (rooms w)) →
  dict_get (upper raw) (rooms w) = Some room →
  r_status room = waiting →
  (length (players room) < 10)%nat →
  in_no_room u w →
  (∀ t, tournaments w !! r_tournament_id room = Some t →
        u ∉ participants t) →
  (on_disconnect (Some u) (on_join_room raw (Some u) sid w).1).1 = w.
Proof.
  intros Hu Hnd Hroom Hst Hlen Hno Hpart.
  assert (Habs : dict_get u (players room) = None).
  { apply (Hno (upper raw, room)). by apply dict_get_Some_elem. }
  unfold on_join_room. rewrite bool_decide_eq_false_2 by done.
  rewrite Hroom, Hst. rewrite (bool_decide_eq_true_2 (waiting = waiting)) by done.
  rewrite (dict_mem_None _ _ Habs). simpl negb. rewrite andb_true_r.
  rewrite bool_decide_eq_false_2 by lia. cbn [andb negb].
  set (room' := room_set_players _ room).
  assert (Hfind : List.find (λ cr : string * Room, dict_mem u (players cr.2))
                    (dict_set (upper raw) room' (rooms w))
                  = Some (upper raw, room')).
  { apply (find_dict_set _ _ room); [| |done].
    - intros p Hp. apply dict_mem_None. by apply Hno.
    - simpl. apply (dict_mem_Some _ _ sid). by rewrite dict_get_set_eq. }
  assert (Hback : room_set_players (dict_del u (players room')) room' = room).
  { unfold room'. destruct room. simpl in *. unfold room_set_players. simpl.
    by rewrite dict_del_set_absent. }
  assert (Hst' : r_status (room_set_players (dict_del u (players room')) room')
                 = waiting) by by rewrite Hback.
  destruct w as [rs am us ts ms]. simpl in *.
  destruct (ts !! r_tournament_id room) as [t|] eqn:Ht; simpl;
    unfold on_disconnect; rewrite bool_decide_eq_false_2 by done; simpl;
    rewrite Hfind; simpl.
  - rewrite Hst'. rewrite bool_decide_eq_true_2 by done. simpl.
    rewrite Hback.
    change (r_tournament_id room') with (r_tournament_id room).
    rewrite lookup_insert_eq. simpl.
    rewrite (bool_decide_eq_false_2 (u ∈ participants t)) by by apply Hpart.
    rewrite bool_decide_eq_true_2 by (apply elem_of_app; right; apply list_elem_of_here).
    rewrite remove_first_snoc by by apply Hpart.
    unfold set_tournaments, set_rooms. simpl.
    rewrite dict_set_restore by done. rewrite insert_insert_eq.
    f_equal. apply insert_id. rewrite Ht. f_equal. by destruct t.
  - rewrite Hst'. rewrite bool_decide_eq_true_2 by done. simpl.
    rewrite Hback.
    change (r_tournament_id room') with (r_tournament_id room).
    rewrite Ht. unfold set_rooms. simpl. by rewrite dict_set_restore.
Qed.

Lemma join_then_disconnect_witness :
  (on_disconnect (Some "carol")
     (on_join_room "room01" (Some "carol") "sid-carol" world_two_joined).1).1
  = world_two_joined.
Proof.
  apply (join_then_disconnect "room01" "carol" "sid-carol" room_two_joined
           world_two_joined).
  - discriminate.
  - apply (bool_decide_unpack _). vm_compute. exact I.
  - vm_compute. reflexivity.
  - reflexivity.
  - simpl. lia.
  - intros cr Hcr. vm_compute in Hcr.
    apply list_elem_of_singleton in Hcr as ->. reflexivity.
  - intros t Ht. vm_compute in Ht. injection Ht as <-.
    apply (bool_decide_unpack _). vm_compute. exact I.
Defined.

(** ** The room registry stays well formed *)

Lemma rooms_ok_same w w' : rooms w' = rooms w → rooms_ok w → rooms_ok w'.
Proof. unfold rooms_ok. by intros ->. Qed.

Lemma rooms_ok_dict_set w w' code room' :
  rooms w' = dict_set code room' (rooms w) → room_ok room' →
  rooms_ok w → rooms_ok w'.
Proof.
  unfold rooms_ok. intros -> Hroom' [Hnd Hall]. split.
  - by apply dict_keys_set_NoDup.
  - intros cr [Hin| ->]%dict_set_elem; auto.
Qed.

Lemma rooms_ok_lookup w code room :
  rooms_ok w → dict_get code (rooms w) = Some room → room_ok room.
Proof. intros [_ Hall] Hget%dict_get_Some_elem. by apply (Hall (code, room)). Qed.

Lemma room_ok_players r r' : players r' = players r → room_ok r → room_ok r'.
Proof. unfold room_ok. by intros ->. Qed.

Lemma room_ok_del u r :
  room_ok r → room_ok (room_set_players (dict_del u (players r)) r).
Proof.
  intros [Hnd Hlen]. split; simpl.
  - rewrite dict_keys_del. by apply NoDup_filter.
  - pose proof (dict_del_length u (players r)). lia.
Qed.

Lemma check_round_complete_rooms_ok shuffle now room_code w :
  rooms_ok w → rooms_ok (check_round_complete shuffle now room_code w).1.
Proof.
  intros Hok. unfold check_round_complete.
  destruct (dict_get room_code (rooms w)) as [room|] eqn:Hroom; [|done].
  pose proof (rooms_ok_lookup _ _ _ Hok Hroom) as Hr.
  repeat case_match; simpl; try done;
    (eapply rooms_ok_dict_set; [reflexivity| |done]);
    by apply (room_ok_players room).
Qed.

Lemma handle_match_end_rooms_ok shuffle now mid win res w :
  rooms_ok w → rooms_ok (handle_match_end shuffle now mid win res w).1.
Proof.
  intros Hok. unfold handle_match_end.
  destruct (active_matches w !! mid) as [st|]; [|done].
  destruct (bool_decide (ms_status st = active)); simpl; [|done].
  destruct (Match_get mid _) as [m0|]; simpl; [|done].
  destruct (bool_decide (ms_room_code st = "")); simpl; [done|].
  destruct (dict_get (ms_room_code st) (rooms w)) as [room|] eqn:Hroom;
    simpl; [|done].
  pose proof (rooms_ok_lookup _ _ _ Hok Hroom) as Hr.
  set (w1 := set_rooms _ _).
  assert (Hok1 : rooms_ok w1).
  { eapply (rooms_ok_dict_set w); [reflexivity| |done].
    by apply (room_ok_players room). }
  destruct (bool_decide (round_name _ = "Friendly")); simpl; [done|].
  pose proof (check_round_complete_rooms_ok shuffle now (ms_room_code st) w1
                Hok1) as Hk.
  destruct (check_round_complete _ _ _ w1) as [w2 o3]. done.
Qed.

Lemma terminate_rooms_ok shuffle now mid t w :
  rooms_ok w → rooms_ok (terminate shuffle now mid t w).1.
Proof.
  intros Hok.
  destruct t; unfold terminate, on_update_timer, on_game_over, on_resign;
    (destruct (active_matches w !! mid) as [st|]; [|done]);
    repeat (case_bool_decide; simpl; try done);
    by apply handle_match_end_rooms_ok.
Qed.

Lemma deliver_rooms_ok mid e w : rooms_ok w → rooms_ok (deliver mid e w).1.
Proof.
  intros Hok. destruct e as [move fen_after u|sh nw t]; simpl;
    [|by apply terminate_rooms_ok].
  eapply rooms_ok_same; [|done].
  by destruct (on_make_move_tables mid move fen_after u w) as (-> & _).
Qed.

Lemma on_join_room_rooms_ok raw username sid w :
  rooms_ok w → rooms_ok (on_join_room raw username sid w).1.
Proof.
  intros Hok. unfold on_join_room.
  destruct username as [u|]; [|done].
  case_bool_decide; [done|].
  destruct (dict_get (upper raw) (rooms w)) as [room|] eqn:Hroom; [|done].
  pose proof (rooms_ok_lookup _ _ _ Hok Hroom) as [Hnd Hlen].
  destruct (negb _ && _); [done|].
  destruct (bool_decide (10 ≤ length (players room))%nat && _) eqn:Hfull;
    [done|].
  assert (Hroom' : room_ok (room_set_players (dict_set u sid (players room))
                              room)).
  { split; simpl.
    - by apply dict_keys_set_NoDup.
    - rewrite dict_set_length. destruct (dict_mem u (players room)); [done|].
      rewrite andb_true_r in Hfull. apply bool_decide_eq_false in Hfull. lia. }
  simpl. destruct (tournaments w !! r_tournament_id room); simpl;
    by eapply (rooms_ok_dict_set w); [reflexivity| |].
Qed.

Lemma on_disconnect_rooms_ok username w :
  rooms_ok w → rooms_ok (on_disconnect username w).1.
Proof.
  intros Hok. unfold on_disconnect.
  destruct username as [u|]; [|done].
  case_bool_decide; [done|].
  destruct (List.find _ (rooms w)) as [[code room]|] eqn:Hfind; [|done].
  apply find_some in Hfind as [Hin%list_elem_of_In _].
  pose proof (proj2 Hok _ Hin) as Hr. simpl in Hr.
  pose proof (room_ok_del u room Hr) as Hr'.
  simpl. destruct (bool_decide (r_status room = waiting)); simpl;
    [destruct (tournaments w !! r_tournament_id room); simpl|];
    by eapply (rooms_ok_dict_set w); [reflexivity| |].
Qed.

Lemma on_remove_player_rooms_ok raw target username w :
  rooms_ok w → rooms_ok (on_remove_player raw target username w).1.
Proof.
  intros Hok. unfold on_remove_player.
  destruct (truthy username); simpl; [|done].
  destruct (dict_get (upper raw) (rooms w)) as [room|] eqn:Hroom; [|done].
  pose proof (rooms_ok_lookup _ _ _ Hok Hroom) as Hr.
  case_bool_decide; simpl; [|done].
  destruct (dict_get target (players room)); simpl; [|done].
  eapply (rooms_ok_dict_set w); [reflexivity| |done]. by apply room_ok_del.
Qed.

Lemma on_match_request_rooms_ok raw opponent tc username w :
  rooms_ok w → rooms_ok (on_match_request raw opponent tc username w).1.
Proof.
  intros Hok. unfold on_match_request.
  destruct username as [u|]; [|done].
  case_bool_decide; [done|].
  destruct (dict_get (upper raw) (rooms w)) as [room|] eqn:Hroom; [|done].
  pose proof (rooms_ok_lookup _ _ _ Hok Hroom) as Hr.
  destruct (negb _ || _); [done|]. simpl.
  eapply (rooms_ok_dict_set w); [reflexivity| |done].
  by apply (room_ok_players room).
Qed.

Lemma on_match_response_rooms_ok raw requester accepted username w :
  rooms_ok w →
  rooms_ok (on_match_response raw requester accepted username w).1.
Proof.
  intros Hok. unfold on_match_response.
  destruct username as [u|]; [|done].
  case_bool_decide; [done|].
  destruct (dict_get (upper raw) (rooms w)) as [room|] eqn:Hroom; [|done].
  pose proof (rooms_ok_lookup _ _ _ Hok Hroom) as Hr.
  destruct (dict_get (requester, u) (match_requests room)); [|done].
  destruct accepted; simpl;
    (eapply (rooms_ok_dict_set w); [reflexivity| |done]);
    by apply (room_ok_players room).
Qed.

Lemma on_start_tournament_rooms_ok shuffle raw tc username w :
  rooms_ok w →
  rooms_ok (world_after (on_start_tournament shuffle raw tc username w)).
Proof.
  intros Hok. unfold on_start_tournament.
  destruct (truthy username); simpl; [|done].
  destruct (dict_get (upper raw) (rooms w)) as [room|] eqn:Hroom; [|done].
  pose proof (rooms_ok_lookup _ _ _ Hok Hroom) as Hr.
  repeat (case_bool_decide; simpl; try done).
  set (room1 := room_set_default_time tc (room_set_status active room)).
  assert (Hok1 : rooms_ok (set_rooms w (dict_set (upper raw) room1 (rooms w)))).
  { eapply (rooms_ok_dict_set w); [reflexivity| |done].
    by apply (room_ok_players room). }
  destruct (tournaments w !! r_tournament_id room); [|done].
  destruct (seat_pairs _ _ _ _ _) as [ms br].
  match goal with
  | |- context [foldl ?f (?w1, ?o1) br] =>
    pose proof (open_sessions_keep (upper raw) tc (room_set_bracket br room1)
                  br (w1, o1)) as [Hrooms _];
    destruct (foldl f (w1, o1) br) as [w2 out2]
  end.
  simpl in *.
  eapply (rooms_ok_dict_set
            (set_rooms w (dict_set (upper raw) room1 (rooms w))));
    [exact Hrooms| |done].
  by apply (room_ok_players room).
Qed.

Lemma create_room_rooms_ok draws tid username w r :
  rooms_ok w → create_room draws tid username w = Some r → rooms_ok r.1.
Proof.
  intros Hok. unfold create_room.
  destruct username as [u|]; [|by intros [= <-]].
  destruct (List.find _ draws) as [code|]; [|done]. intros [= <-]. simpl.
  eapply (rooms_ok_dict_set w); [reflexivity| |done].
  split; simpl; [apply NoDup_nil_2|lia].
Qed.

Lemma serve_rooms_ok w q : rooms_ok w → rooms_ok (serve w q).
Proof.
  intros Hok. destruct q; simpl.
  - destruct (create_room _ _ _ _) as [r|] eqn:Hr; [|done].
    by eapply create_room_rooms_ok.
  - by apply on_join_room_rooms_ok.
  - by apply on_disconnect_rooms_ok.
  - by apply on_remove_player_rooms_ok.
  - by apply on_match_request_rooms_ok.
  - by apply on_match_response_rooms_ok.
  - by apply on_start_tournament_rooms_ok.
  - by apply deliver_rooms_ok.
  - unfold on_force_next_round. repeat case_match; simpl; try done.
    by apply check_round_complete_rooms_ok.
Qed.

(** X27: The room registry stays well formed: when no room code occurs twice
    and every room has no player twice and at most ten players, the same
    holds after any sequence of requests: room creations, joins,
    disconnects, removals by the admin, friendly offers and their answers,
    tournament starts, moves, clock reports, game-over reports,
    resignations and forced rechecks. *)
Theorem rooms_stay_well_formed qs w :
  rooms_ok w → rooms_ok (serve_all qs w).
Proof.
  unfold serve_all. revert w. induction qs as [|q qs IH]; intros w Hok; simpl;
    [done|].
  by apply IH, serve_rooms_ok.
Qed.

Lemma rooms_stay_well_formed_witness :
  rooms_ok
    (serve_all [req_join_room "room01" (Some "carol") "sid-carol";
                req_disconnect (Some "bob")] world_two_joined).
Proof.
  apply (rooms_stay_well_formed
           [req_join_room "room01" (Some "carol") "sid-carol";
            req_disconnect (Some "bob")] world_two_joined).
  split.
  - apply (bool_decide_unpack _). vm_compute. exact I.
  - intros cr Hcr. vm_compute in Hcr.
    apply list_elem_of_singleton in Hcr as ->. split.
    + apply (bool_decide_unpack _). vm_compute. exact I.
    + simpl. lia.
Defined.

(** ** Moves *)

Lemma upper_ascii_idemp c : upper_ascii (upper_ascii c) = upper_ascii c.
Proof. by destruct c as [[] [] [] [] [] [] [] []]. Qed.

Lemma upper_idemp s : upper (upper s) = upper s.
Proof.
  induction s as [|c s IH]; [done|]. simpl. by rewrite upper_ascii_idemp, IH.
Qed.

(** X17: Accepted moves alternate: when a move in a session whose two
    players differ is accepted, the mover was the player whose turn it
    was, the turn passes to the other colour, the position sent becomes
    the session's position while players, clocks and status stay, and a
    further move by the same user is refused as not being their turn. *)
Theorem on_make_move_alternates mid mv fen_after u mv' fen' w st :
  active_matches w !! mid = Some st →
  white st ≠ black st →
  emitted_names (on_make_move mid mv fen_after u w).2 = ["move_made"] →
  let w1 := (on_make_move mid mv fen_after u w).1 in
  (∃ st1, active_matches w1 !! mid = Some st1
          ∧ turn st1 ≠ turn st ∧ fen st1 = fen_after
          ∧ (white st1, black st1, white_time st1, black_time st1,
             ms_status st1)
            = (white st, black st, white_time st, black_time st, active))
  ∧ (u = Some (white st) ∧ turn st = turn_w
     ∨ u = Some (black st) ∧ turn st = turn_b)
  ∧ on_make_move mid mv' fen' u w1
    = (w1, [(ev_error "Not your turn", to_caller)]).
Proof.
  intros Hst Hne. unfold on_make_move at 1 2. rewrite Hst.
  destruct (bool_decide (ms_status st = active)) eqn:Hact; simpl; [|done].
  apply bool_decide_eq_true in Hact.
  destruct (turn st) eqn:Hturn; simpl.
  - case_bool_decide as Hu; simpl; [|done].
    destruct mv as [m|]; [|done].
    destruct (negb (truthy (mv_from m)) || negb (truthy (mv_to m))); [done|].
    intros _. simpl. split_and!.
    + eexists. rewrite lookup_insert_eq. split; [done|]. simpl.
      rewrite Hact. by split_and!.
    + by left.
    + unfold on_make_move. simpl. rewrite lookup_insert_eq. simpl.
      rewrite Hact. rewrite (bool_decide_eq_true_2 (active = active)) by done.
      simpl. rewrite (bool_decide_eq_false_2 (u = Some (black st))); [done|].
      rewrite Hu. by intros [= ?].
  - case_bool_decide as Hu; simpl; [|done].
    destruct mv as [m|]; [|done].
    destruct (negb (truthy (mv_from m)) || negb (truthy (mv_to m))); [done|].
    intros _. simpl. split_and!.
    + eexists. rewrite lookup_insert_eq. split; [done|]. simpl.
      rewrite Hact. by split_and!.
    + by right.
    + unfold on_make_move. simpl. rewrite lookup_insert_eq. simpl.
      rewrite Hact. rewrite (bool_decide_eq_true_2 (active = active)) by done.
      simpl. rewrite (bool_decide_eq_false_2 (u = Some (white st))); [done|].
      rewrite Hu. by intros [= ?].
Qed.

Lemma on_make_move_alternates_witness :
  let w1 := (on_make_move 1 (Some pawn_move) "fen-1" (Some "alice")
               world_two_started).1 in
  (∃ st1, active_matches w1 !! 1 = Some st1
          ∧ turn st1 ≠ turn session_1 ∧ fen st1 = "fen-1"
          ∧ (white st1, black st1, white_time st1, black_time st1,
             ms_status st1)
            = (white session_1, black session_1, white_time session_1,
               black_time session_1, active))
  ∧ (Some "alice" = Some (white session_1) ∧ turn session_1 = turn_w
     ∨ Some "alice" = Some (black session_1) ∧ turn session_1 = turn_b)
  ∧ on_make_move 1 (Some pawn_move) "fen-2" (Some "alice") w1
    = (w1, [(ev_error "Not your turn", to_caller)]).
Proof.
  apply (on_make_move_alternates 1 (Some pawn_move) "fen-1" (Some "alice")
           (Some pawn_move) "fen-2" world_two_started session_1).
  - vm_compute. reflexivity.
  - discriminate.
  - vm_compute. reflexivity.
Defined.

(** X24: A room code answered by the HTTP check [join_room_api] is accepted
    by the socket handler: for a logged-in user with a non-empty name the
    join with that code is answered by [joined_room] first, the room still
    waits and has the user among its players under the connection given. *)
Theorem join_room_api_admits strip raw u sid w code :
  u ≠ "" →
  join_room_api strip raw (Some u) w = api_room_code code →
  let r := on_join_room code (Some u) sid w in
  head (emitted_names r.2) = Some "joined_room"
  ∧ ∃ room room',
      room_of code w = Some room ∧ room_of code r.1 = Some room'
      ∧ dict_get u (players room') = Some sid
      ∧ r_status room' = waiting.
Proof.
  intros Hu. unfold join_room_api, on_join_room, room_of.
  destruct (dict_get (upper (strip raw)) (rooms w)) as [room|] eqn:Hroom;
    [|done].
  destruct (bool_decide (r_status room = waiting)) eqn:Hst; simpl; [|done].
  destruct (bool_decide (10 ≤ length (players room))%nat) eqn:Hlen; [done|].
  intros [= <-]. rewrite upper_idemp, Hroom, Hst, Hlen. simpl.
  rewrite bool_decide_eq_false_2 by done.
  apply bool_decide_eq_true in Hst.
  destruct (tournaments _ !! _); simpl; (split; [done|]);
    exists room; eexists; rewrite dict_get_set_eq;
    (split_and!; [done|done| |done]); simpl; by rewrite dict_get_set_eq.
Qed.

Lemma join_room_api_admits_witness :
  let r := on_join_room "ROOM01" (Some "carol") "sid-carol" world_two_joined in
  head (emitted_names r.2) = Some "joined_room"
  ∧ ∃ room room',
      room_of "ROOM01" world_two_joined = Some room
      ∧ room_of "ROOM01" r.1 = Some room'
      ∧ dict_get "carol" (players room') = Some "sid-carol"
      ∧ r_status room' = waiting.
Proof.
  apply (join_room_api_admits (λ s, s) "room01" "carol" "sid-carol"
           world_two_joined "ROOM01").
  - discriminate.
  - vm_compute. reflexivity.
Defined.

Lemma find_split {A} (P : A → bool) l x :
  List.find P l = Some x →
  ∃ pre post, l = pre ++ x :: post ∧ P x = true ∧ ∀ y, y ∈ pre → P y = false.
Proof.
  induction l as [|a l IH]; simpl; [done|].
  destruct (P a) eqn:Ha.
  - intros [= ->]. exists [], l. split_and!; [done..|]. by intros ? ?%elem_of_nil.
  - intros (pre & post & -> & Hx & Hpre)%IH. exists (a :: pre), post.
    split_and!; [done..|]. intros y [->|?]%elem_of_cons; auto.
Qed.

(** X22: [create_room] takes the first drawn code that no room has: the
    draws before it are all codes of existing rooms, the new room goes
    last in the registry with the caller as admin, no players, no bracket,
    status waiting and 300 seconds, every other room is as before, and the
    tournament row carries the code and the admin.  The loop is still
    running after the draws given exactly when all of them are taken. *)
Theorem create_room_fresh draws tid u w :
  (∀ r, create_room draws tid (Some u) w = Some r →
     ∃ taken code rest,
       draws = taken ++ code :: rest
       ∧ (∀ c, c ∈ taken → is_Some (room_of c w))
       ∧ room_of code w = None
       ∧ r.2 = api_room_code code
       ∧ rooms r.1 = rooms w ++ [(code, mkRoom tid u [] [] [] waiting 300)]
       ∧ (∀ c, c ≠ code → room_of c r.1 = room_of c w)
       ∧ tournaments r.1 !! tid
         = Some (mkTournament code u waiting None [] None "" []))
  ∧ (create_room draws tid (Some u) w = None ↔
     ∀ c, c ∈ draws → is_Some (room_of c w)).
Proof.
  unfold create_room, room_of. split.
  - intros r.
    destruct (List.find _ draws) as [code|] eqn:Hfind; [|done].
    intros [= <-]. simpl.
    apply find_split in Hfind as (taken & rest & -> & Hfree & Htaken).
    apply negb_true_iff in Hfree.
    assert (Hcode : dict_get code (rooms w) = None).
    { unfold dict_mem in Hfree. apply bool_decide_eq_false in Hfree.
      destruct (dict_get code (rooms w)); [|done]. by destruct Hfree. }
    exists taken, code, rest. split_and!; try done.
    + intros c Hc. specialize (Htaken c Hc). apply negb_false_iff in Htaken.
      by apply bool_decide_eq_true in Htaken.
    + unfold dict_set. by rewrite Hfree.
    + intros c Hc. by apply dict_get_set_ne.
    + by rewrite lookup_insert_eq.
  - destruct (List.find _ draws) as [code|] eqn:Hfind.
    + split; [done|]. intros Hall.
      apply find_some in Hfind as [Hin%list_elem_of_In Hfree].
      apply negb_true_iff, bool_decide_eq_false in Hfree.
      by specialize (Hall _ Hin).
    + split; [|done]. intros _ c Hc.
      apply list_elem_of_In in Hc.
      pose proof (find_none _ _ Hfind _ Hc) as Hn.
      apply negb_false_iff in Hn. by apply bool_decide_eq_true in Hn.
Qed.

Lemma create_room_fresh_witness :
  ∃ taken code rest,
    ["ROOM01"; "ROOM02"] = taken ++ code :: rest
    ∧ (∀ c, c ∈ taken → is_Some (room_of c world_created))
    ∧ room_of code world_created = None
    ∧ (world_second_room, api_room_code "ROOM02").2 = api_room_code code
    ∧ rooms (world_second_room, api_room_code "ROOM02").1
      = rooms world_created ++ [(code, mkRoom 2 "bob" [] [] [] waiting 300)]
    ∧ (∀ c, c ≠ code →
         room_of c (world_second_room, api_room_code "ROOM02").1
         = room_of c world_created)
    ∧ tournaments (world_second_room, api_room_code "ROOM02").1 !! 2
      = Some (mkTournament code "bob" waiting None [] None "" []).
Proof.
  apply (create_room_fresh ["ROOM01"; "ROOM02"] 2 "bob" world_created).
  vm_compute. reflexivity.
Defined.

(** ** Room codes and room creation *)

Lemma upper_code_chars l :
  Forall (λ c, c ∈ String.list_ascii_of_string (ascii_uppercase +:+ digits)) l →
  upper (String.string_of_list_ascii l) = String.string_of_list_ascii l.
Proof.
  induction 1 as [|c l Hc _ IH]; [done|]. simpl. rewrite IH. f_equal.
  clear -Hc. vm_compute in Hc.
  repeat (apply elem_of_cons in Hc as [->|Hc]; [reflexivity|]).
  by apply elem_of_nil in Hc.
Qed.

Lemma string_of_list_ascii_length l :
  String.length (String.string_of_list_ascii l) = length l.
Proof. induction l; simpl; congruence. Qed.

(** X21: A room code has six characters and is unchanged by [upper], given
    that [random.choices] returns six members of the population; so the
    upper-casing in the join handlers finds the room under the code that
    was created. *)
Theorem generate_room_code_shape choices :
  let population := String.list_ascii_of_string (ascii_uppercase +:+ digits) in
  Forall (λ c, c ∈ population) (choices population 6%nat) →
  length (choices population 6%nat) = 6%nat →
  String.length (generate_room_code choices) = 6%nat
  ∧ upper (generate_room_code choices) = generate_room_code choices.
Proof.
  intros population Hall Hlen. unfold generate_room_code. split.
  - by rewrite string_of_list_ascii_length.
  - by apply upper_code_chars.
Qed.

Lemma generate_room_code_shape_witness :
  String.length (generate_room_code first_choices) = 6%nat
  ∧ upper (generate_room_code first_choices)
    = generate_room_code first_choices.
Proof.
  apply (generate_room_code_shape first_choices).
  - apply (bool_decide_unpack _). vm_compute. exact I.
  - reflexivity.
Defined.

(** X23: The creator's first join: after [create_room] by a user with a
    non-empty name, joining with the code returned (a code that [upper]
    leaves alone) is answered first by [joined_room] with the admin flag
    set; the room then has exactly this player and the tournament exactly
    this participant. *)
Theorem create_then_join draws tid u sid w w1 code :
  create_room draws tid (Some u) w = Some (w1, api_room_code code) →
  u ≠ "" →
  upper code = code →
  let r := on_join_room code (Some u) sid w1 in
  head r.2 = Some (ev_joined_room code u true, to_caller)
  ∧ room_of code r.1 = Some (mkRoom tid u [(u, sid)] [] [] waiting 300)
  ∧ tournaments r.1 !! tid
    = Some (mkTournament code u waiting None [u] None "" []).
Proof.
  unfold create_room.
  destruct (List.find _ draws) as [c|] eqn:Hfind; [|done].
  intros [= <- <-] Hu Hup. unfold on_join_room, room_of. simpl.
  rewrite bool_decide_eq_false_2 by done. rewrite Hup, dict_get_set_eq. simpl.
  rewrite lookup_insert_eq. simpl. rewrite lookup_insert_eq, dict_get_set_eq.
  by rewrite bool_decide_eq_true_2.
Qed.

Lemma create_then_join_witness :
  let r := on_join_room "ROOM01" (Some "alice") "sid-alice" world_created in
  head r.2 = Some (ev_joined_room "ROOM01" "alice" true, to_caller)
  ∧ room_of "ROOM01" r.1
    = Some (mkRoom 1 "alice" [("alice", "sid-alice")] [] [] waiting 300)
  ∧ tournaments r.1 !! 1
    = Some (mkTournament "ROOM01" "alice" waiting None ["alice"] None "" []).
Proof.
  apply (create_then_join ["ROOM01"] 1 "alice" "sid-alice" world_blank
           world_created "ROOM01").
  - vm_compute. reflexivity.
  - discriminate.
  - reflexivity.
Defined.

Section dict_split.
Context {K V : Type} `{EqDecision K}.
Implicit Types (d : list (K * V)) (k : K) (v : V).

Lemma dict_set_middle k v v0 pre post :
  NoDup (dict_keys (pre ++ (k, v0) :: post)) →
  dict_set k v (pre ++ (k, v0) :: post) = pre ++ (k, v) :: post.
Proof.
  intros Hnd.
  assert (Hget : dict_get k (pre ++ (k, v0) :: post) = Some v0).
  { apply dict_get_elem_NoDup; [done|]. apply elem_of_app. right.
    apply list_elem_of_here. }
  unfold dict_set. rewrite (dict_mem_Some _ _ _ Hget).
  unfold dict_keys in Hnd. rewrite fmap_app, fmap_cons in Hnd. simpl in Hnd.
  apply NoDup_app in Hnd as (_ & Hpre & [Hpost _]%NoDup_cons).
  rewrite fmap_app, fmap_cons. simpl. rewrite bool_decide_eq_true_2 by done.
  f_equal; [|f_equal]; rewrite <- list_fmap_id; apply list_fmap_ext;
    intros i [k' v'] Hi%list_elem_of_lookup_2; simpl;
    rewrite bool_decide_eq_false_2; try done; intros ->.
  - apply (Hpre k); [|apply list_elem_of_here].
    by apply (list_elem_of_fmap_2 fst _ (k, v')).
  - apply Hpost. by apply (list_elem_of_fmap_2 fst _ (k, v')).
Qed.
End dict_split.

(** X26: A disconnect leaves at most one room: either the user is in no room
    and nothing changes and nothing is sent, or the user is removed from
    the first room of the registry that has them, and the rooms before and
    after it (also those that have the user), the sessions, the users and
    the match rows are as before; no match is ended by a disconnect. *)
Theorem on_disconnect_first_room u w :
  u ≠ "" →
  NoDup (dict_keys (rooms w)) →
  let w' := (on_disconnect (Some u) w).1 in
  (in_no_room u w ∧ on_disconnect (Some u) w = (w, []))
  ∨ (∃ pre code room post,
       rooms w = pre ++ (code, room) :: post
       ∧ (∀ cr, cr ∈ pre → dict_get u (players cr.2) = None)
       ∧ is_Some (dict_get u (players room))
       ∧ rooms w'
         = pre ++ (code, room_set_players (dict_del u (players room)) room)
               :: post
       ∧ active_matches w' = active_matches w
       ∧ users w' = users w
       ∧ matches w' = matches w).
Proof.
  intros Hu Hnd. unfold on_disconnect.
  rewrite bool_decide_eq_false_2 by done.
  destruct (List.find _ (rooms w)) as [[code room]|] eqn:Hfind.
  - right. apply find_split in Hfind as (pre & post & Hrooms & Hin & Hpre).
    exists pre, code, room, post. split_and!; [done| | | |..].
    + intros cr Hcr. specialize (Hpre cr Hcr). simpl in Hpre.
      unfold dict_mem in Hpre. apply bool_decide_eq_false in Hpre.
      destruct (dict_get u (players cr.2)); [|done]. by destruct Hpre.
    + by apply bool_decide_eq_true in Hin.
    + assert (Hset : ∀ r', dict_set code r' (rooms w)
                           = pre ++ (code, r') :: post).
      { intros r'. rewrite Hrooms. apply dict_set_middle. by rewrite <- Hrooms. }
      simpl. destruct (bool_decide (r_status room = waiting));
        [destruct (tournaments w !! r_tournament_id room)|]; simpl; apply Hset.
    + simpl. by destruct (bool_decide (r_status room = waiting));
        [destruct (tournaments w !! r_tournament_id room)|].
    + simpl. by destruct (bool_decide (r_status room = waiting));
        [destruct (tournaments w !! r_tournament_id room)|].
    + simpl. by destruct (bool_decide (r_status room = waiting));
        [destruct (tournaments w !! r_tournament_id room)|].
  - left. split; [|done]. intros cr Hcr%list_elem_of_In.
    pose proof (find_none _ _ Hfind _ Hcr) as Hn. simpl in Hn.
    unfold dict_mem in Hn. apply bool_decide_eq_false in Hn.
    destruct (dict_get u (players cr.2)); [|done]. by destruct Hn.
Qed.

Lemma on_disconnect_first_room_witness :
  let w' := (on_disconnect (Some "bob") world_two_joined).1 in
  (in_no_room "bob" world_two_joined
   ∧ on_disconnect (Some "bob") world_two_joined = (world_two_joined, []))
  ∨ (∃ pre code room post,
       rooms world_two_joined = pre ++ (code, room) :: post
       ∧ (∀ cr, cr ∈ pre → dict_get "bob" (players cr.2) = None)
       ∧ is_Some (dict_get "bob" (players room))
       ∧ rooms w'
         = pre ++ (code, room_set_players (dict_del "bob" (players room)) room)
               :: post
       ∧ active_matches w' = active_matches world_two_joined
       ∧ users w' = users world_two_joined
       ∧ matches w' = matches world_two_joined).
Proof.
  apply (on_disconnect_first_room "bob" world_two_joined).
  - discriminate.
  - apply (bool_decide_unpack _). vm_compute. exact I.
Defined.

(** ** Sessions of the first round *)

Lemma seat_pairs_ids tid rn tc pairs ms br0 :
  ∃ brn,
    (foldl (seat_pair tid rn tc) (ms, br0) pairs).2 = br0 ++ brn
    ∧ entry_ids brn
      = (λ i, Z.of_nat i + 1)
          <$> seq (length ms)
                (length (foldl (seat_pair tid rn tc) (ms, br0) pairs).1
                 - length ms).
Proof.
  revert ms br0. induction pairs as [|[wh bl] pairs IH]; intros ms br0.
  - exists []. simpl. by rewrite app_nil_r, Nat.sub_diag.
  - simpl. destruct (bool_decide (bl = BYE)) eqn:Hbye.
    + destruct (IH ms (br0 ++ [mkEntry wh BYE (Some wh) completed None]))
        as (brn & Hbr & Hids).
      exists (mkEntry wh BYE (Some wh) completed None :: brn).
      split; [by rewrite Hbr, <- app_assoc|done].
    + set (row := mkMatch tid rn wh bl None None tc pending None).
      set (e := mkEntry wh bl None pending (Some (Z.of_nat (length ms) + 1))).
      destruct (IH (ms ++ [row]) (br0 ++ [e])) as (brn & Hbr & Hids).
      destruct (seat_pairs_acc tid rn tc pairs (ms ++ [row]) (br0 ++ [e]))
        as (_ & _ & [extra Hpre] & _).
      exists (e :: brn). split; [by rewrite Hbr, <- app_assoc|].
      change (entry_ids (e :: brn))
        with ((Z.of_nat (length ms) + 1) :: entry_ids brn).
      rewrite Hids, Hpre.
      rewrite !length_app. simpl.
      replace (length ms + 1 + length extra - length ms)%nat
        with (S (length extra)) by lia.
      replace (length ms + 1 + length extra - (length ms + 1))%nat
        with (length extra) by lia.
      simpl. by rewrite Nat.add_1_r.
Qed.

Lemma entry_ids_NoDup tid rn tc pairs ms :
  NoDup (entry_ids (seat_pairs tid rn tc pairs ms).2).
Proof.
  unfold seat_pairs.
  destruct (seat_pairs_ids tid rn tc pairs ms []) as (brn & Hbr & Hids).
  rewrite Hbr. simpl. rewrite Hids. apply NoDup_fmap_2; [|apply NoDup_seq]. intros i j ?. lia.
Qed.

Lemma Match_get_put_ne id id' m m0 w :
  id ≠ id' → Match_get id' w = Some m0 →
  Match_get id (Match_put id' m w) = Match_get id w.
Proof.
  unfold Match_get, Match_put. simpl. intros Hne.
  case_bool_decide; [|done]. intros _.
  case_bool_decide; [|done]. apply list_lookup_insert_ne. lia.
Qed.

Lemma open_session_frame room_code tc room acc e id :
  be_match_id e ≠ Some id →
  active_matches (open_session room_code tc room acc e).1 !! id
  = active_matches acc.1 !! id
  ∧ Match_get id (open_session room_code tc room acc e).1
    = Match_get id acc.1.
Proof.
  destruct acc as [w out]. unfold open_session. intros Hid.
  destruct (bool_decide (be_status e = completed)); [done|].
  destruct (be_match_id e) as [mid|]; [|done].
  assert (id ≠ mid) by congruence. simpl.
  destruct (Match_get mid _) as [m|] eqn:Hm; simpl.
  - split; [by rewrite lookup_insert_ne|].
    by erewrite Match_get_put_ne.
  - by rewrite lookup_insert_ne.
Qed.

Lemma open_sessions_frame room_code tc room br acc id :
  id ∉ entry_ids br →
  active_matches (foldl (open_session room_code tc room) acc br).1 !! id
  = active_matches acc.1 !! id
  ∧ Match_get id (foldl (open_session room_code tc room) acc br).1
    = Match_get id acc.1.
Proof.
  revert acc. induction br as [|e br IH]; intros acc Hid; [done|].
  simpl. unfold entry_ids in Hid. simpl in Hid.
  assert (He : be_match_id e ≠ Some id ∧ id ∉ entry_ids br).
  { destruct (be_match_id e) as [mid|]; [|done].
    apply not_elem_of_cons in Hid as [? ?]. split; [congruence|done]. }
  destruct He as [He Hbr].
  destruct (IH (open_session room_code tc room acc e) Hbr) as [-> ->].
  by apply open_session_frame.
Qed.

Lemma open_sessions_effect room_code tc room br acc e id :
  NoDup (entry_ids br) → e ∈ br →
  be_status e ≠ completed → be_match_id e = Some id →
  let w' := (foldl (open_session room_code tc room) acc br).1 in
  active_matches w' !! id
  = Some (mkMatchState room_code (be_white e) (be_black e) tc tc turn_w
            start_fen active id)
  ∧ ∀ m, Match_get id acc.1 = Some m →
         Match_get id w'
         = Some (mkMatch (tournament_id m) (round_name m) (white_player m)
                   (black_player m) (winner m) (result m) (time_control m)
                   active (completed_at m)).
Proof.
  revert acc. induction br as [|e0 br IH]; intros acc Hnd Hin Hst Hid;
    [by apply elem_of_nil in Hin|].
  simpl. apply elem_of_cons in Hin as [<-|Hin].
  - unfold entry_ids in Hnd. simpl in Hnd. rewrite Hid in Hnd.
    apply NoDup_cons in Hnd as [Hfresh _].
    destruct (open_sessions_frame room_code tc room br
                (open_session room_code tc room acc e) id Hfresh) as [-> ->].
    destruct acc as [w out]. unfold open_session.
    rewrite bool_decide_eq_false_2 by done. rewrite Hid. simpl.
    split.
    + destruct (Match_get id _); simpl; by rewrite lookup_insert_eq.
    + intros m Hm.
      assert (Hm' : Match_get id
                      (set_active_matches w
                         (<[id:=mkMatchState room_code (be_white e)
                                  (be_black e) tc tc turn_w start_fen active
                                  id]> (active_matches w))) = Some m) by done.
      rewrite Hm'. by apply (Match_get_put_eq _ _ m).
  - assert (Hnd' : NoDup (entry_ids br)).
    { unfold entry_ids in *. simpl in Hnd.
      destruct (be_match_id e0); [by apply NoDup_cons in Hnd as [_ ?]|done]. }
    assert (Hne : be_match_id e0 ≠ Some id).
    { intros He0. unfold entry_ids in Hnd. simpl in Hnd. rewrite He0 in Hnd.
      apply NoDup_cons in Hnd as [Hfresh _]. apply Hfresh.
      apply list_elem_of_omap. by exists e. }
    destruct (IH (open_session room_code tc room acc e0) Hnd' Hin Hst Hid)
      as [Hs Hrow].
    split; [done|]. intros m Hm. apply Hrow.
    by destruct (open_session_frame room_code tc room acc e0 id Hne) as [_ ->].
Qed.

(** X4: A started tournament has a session for every pairing: with the
    guards passed and the tournament row present, the room's bracket has
    one entry per pair of [generate_bracket], in order; a bye is a
    completed entry without a match, and every other pair has a pending
    entry whose match id carries a session (white to move, both clocks at
    the time control) and an active row with the pair's players.  The
    tournament row is active with the room's players as participants, the
    round name and the pairs of the round. *)
Theorem start_opens_sessions shuffle raw tc username w room t :
  room_of (upper raw) w = Some room →
  start_guards username room →
  tournaments w !! r_tournament_id room = Some t →
  let names := dict_keys (players room) in
  let rn := get_round_name (length names) in
  let pairs := generate_bracket shuffle names in
  let w' := world_after (on_start_tournament shuffle raw tc username w) in
  (∃ room',
     room_of (upper raw) w' = Some room'
     ∧ Forall2 (session_opened (upper raw) (r_tournament_id room) rn tc w')
         pairs (bracket room'))
  ∧ tournaments w' !! r_tournament_id room
    = Some (mkTournament (t_room_code t) (admin_username t) active
              (t_completed_at t) names (winner_username t) rn [(rn, pairs)]).
Proof.
  intros Hroom (Htr & Hadm & Hlen) Ht names rn pairs.
  unfold on_start_tournament, room_of in *. rewrite Htr, Hroom. simpl.
  rewrite (bool_decide_eq_true_2 _ Hadm). simpl.
  unfold dict_keys. rewrite length_fmap.
  rewrite bool_decide_eq_false_2 by lia.
  rewrite bool_decide_eq_false_2 by lia.
  simpl. rewrite Ht.
  fold names. change (get_round_name (length (players room)))
    with (get_round_name (length (players room))).
  assert (Hrn : get_round_name (length (players room)) = rn).
  { unfold rn, names, dict_keys. by rewrite length_fmap. }
  rewrite Hrn. change (generate_bracket shuffle (players room).*1) with pairs.
  pose proof (seat_pairs_seated (r_tournament_id room) rn tc pairs (matches w))
    as (Hpre & Hlenbr & Hseated & _).
  pose proof (entry_ids_NoDup (r_tournament_id room) rn tc pairs (matches w))
    as Hnd.
  destruct (seat_pairs _ _ _ _ _) as [ms br]. simpl in *.
  match goal with
  | |- context [foldl ?f (?w1, ?o1) br] =>
    pose proof (open_sessions_keep (upper raw) tc
                  (room_set_bracket br
                     (room_set_default_time tc (room_set_status active room)))
                  br (w1, o1)) as [Hrooms Htours];
    pose proof (λ e id, open_sessions_effect (upper raw) tc
                  (room_set_bracket br
                     (room_set_default_time tc (room_set_status active room)))
                  br (w1, o1) e id Hnd) as Heff;
    destruct (foldl f (w1, o1) br) as [w2 out2]
  end.
  simpl in *. split.
  - eexists. rewrite Hrooms, dict_get_set_eq. split; [done|]. simpl.
    apply Forall2_same_length_lookup. split; [done|].
    intros i p e Hp He.
    pose proof (Forall2_lookup_lr _ _ _ _ _ _ Hseated Hp He) as Hs.
    unfold seated in Hs. unfold session_opened.
    case_bool_decide; [done|]. destruct Hs as (id & -> & Hid & Hrow).
    exists id. split; [done|].
    destruct (Heff _ id (list_elem_of_lookup_2 _ _ _ He)) as [Hsess Hput];
      [done|done|].
    split; [done|].
    apply (Hput (mkMatch (r_tournament_id room) rn p.1 p.2 None None tc
                   pending None)).
    unfold Match_get. simpl. rewrite bool_decide_eq_true_2 by lia. done.
  - rewrite Htours. by rewrite lookup_insert_eq.
Qed.

Lemma start_opens_sessions_witness :
  let names := dict_keys (players room_two_joined) in
  let rn := get_round_name (length names) in
  let pairs := generate_bracket keep_order names in
  let w' := world_after (on_start_tournament keep_order "room01" 300
                           (Some "alice") world_two_joined) in
  (∃ room',
     room_of (upper "room01") w' = Some room'
     ∧ Forall2 (session_opened (upper "room01")
                  (r_tournament_id room_two_joined) rn 300 w')
         pairs (bracket room'))
  ∧ tournaments w' !! r_tournament_id room_two_joined
    = Some (mkTournament (t_room_code tournament_two_joined)
              (admin_username tournament_two_joined) active
              (t_completed_at tournament_two_joined) names
              (winner_username tournament_two_joined) rn [(rn, pairs)]).
Proof.
  apply (start_opens_sessions keep_order "room01" 300 (Some "alice")
           world_two_joined room_two_joined tournament_two_joined).
  - vm_compute. reflexivity.
  - split_and!; [reflexivity|reflexivity|simpl; lia|simpl; lia].
  - vm_compute. reflexivity.
Defined.

(** ** Results are final *)

Lemma final_trans w w1 w2 :
  (results_closed w → results_closed w1 ∧ keeps_results w w1) →
  (results_closed w1 → results_closed w2 ∧ keeps_results w1 w2) →
  results_closed w → results_closed w2 ∧ keeps_results w w2.
Proof.
  intros H1 H2 Hw. destruct (H1 Hw) as [Hc1 Hk1].
  destruct (H2 Hc1) as [Hc2 Hk2]. split; [done|].
  intros mid m Hm Hs. apply Hk2; [|done]. by apply Hk1.
Qed.

Lemma Match_get_app mid w w' extra m :
  matches w' = matches w ++ extra → Match_get mid w' = Some m →
  Match_get mid w = Some m ∨ m ∈ extra.
Proof.
  unfold Match_get. intros ->. case_bool_decide; [|done].
  intros [Hm|[_ Hm]]%lookup_app_Some; [by left|right].
  by eapply list_elem_of_lookup_2.
Qed.

(** Rows are appended that are not completed, and no session becomes
    active. *)
Lemma final_append w w' extra :
  matches w' = matches w ++ extra →
  Forall (λ m, status m ≠ completed) extra →
  (∀ mid st', active_matches w' !! mid = Some st' → ms_status st' = active →
     ∃ st, active_matches w !! mid = Some st ∧ ms_status st = active) →
  results_closed w → results_closed w' ∧ keeps_results w w'.
Proof.
  intros Hms Hextra Ham Hw. split.
  - intros mid m st' Hm Hs Hst' Hact.
    destruct (Ham _ _ Hst' Hact) as (st & Hst & Hact0).
    destruct (Match_get_app _ _ _ _ _ Hms Hm) as [Hm0|Hin].
    + by apply (Hw mid m st).
    + rewrite Forall_forall in Hextra. by apply (Hextra m).
  - intros mid m Hm Hs. apply (Match_get_extend mid w); [by exists extra|done].
Qed.

Lemma final_same w w' :
  matches w' = matches w → active_matches w' = active_matches w →
  results_closed w → results_closed w' ∧ keeps_results w w'.
Proof.
  intros Hms Ham. apply (final_append w w' []).
  - by rewrite app_nil_r.
  - constructor.
  - intros mid st'. rewrite Ham. eauto.
Qed.

Lemma seat_pairs_pending tid rn tc pairs ms :
  ∃ extra, (seat_pairs tid rn tc pairs ms).1 = ms ++ extra
           ∧ Forall (λ m, status m ≠ completed) extra.
Proof.
  unfold seat_pairs. generalize (@nil BracketEntry) as br. revert ms.
  induction pairs as [|[wh bl] pairs IH]; intros ms br; simpl.
  - exists []. by rewrite app_nil_r.
  - destruct (bool_decide (bl = BYE)); [apply IH|].
    destruct (IH (ms ++ [mkMatch tid rn wh bl None None tc pending None])
                 (br ++ [mkEntry wh bl None pending
                           (Some (Z.of_nat (length ms) + 1))]))
      as (extra & -> & Hall).
    eexists. rewrite <- app_assoc. split; [done|].
    constructor; [done|exact Hall].
Qed.

Lemma check_round_complete_rows shuffle now room_code w :
  ∃ extra,
    matches (check_round_complete shuffle now room_code w).1
    = matches w ++ extra
    ∧ Forall (λ m, status m ≠ completed) extra
    ∧ active_matches (check_round_complete shuffle now room_code w).1
      = active_matches w.
Proof.
  unfold check_round_complete.
  repeat case_match; simpl;
    try (exists []; by rewrite app_nil_r).
  all: match goal with
       | H : seat_pairs ?a ?b ?c ?d ?e = (_, _) |- _ =>
         destruct (seat_pairs_pending a b c d e) as (extra & Hx & Hall);
         rewrite H in Hx; simpl in Hx; by exists extra
       end.
Qed.

Lemma check_round_complete_final shuffle now room_code w :
  results_closed w →
  results_closed (check_round_complete shuffle now room_code w).1
  ∧ keeps_results w (check_round_complete shuffle now room_code w).1.
Proof.
  destruct (check_round_complete_rows shuffle now room_code w)
    as (extra & Hms & Hall & Ham).
  apply (final_append _ _ extra); [done..|]. intros mid st'. rewrite Ham. eauto.
Qed.

Lemma handle_match_end_final shuffle now mid win res w :
  results_closed w →
  results_closed (handle_match_end shuffle now mid win res w).1
  ∧ keeps_results w (handle_match_end shuffle now mid win res w).1.
Proof.
  intros Hw. unfold handle_match_end.
  destruct (active_matches w !! mid) as [st|] eqn:Hst; [|by apply final_same].
  destruct (bool_decide (ms_status st = active)) eqn:Hact; simpl;
    [|by apply final_same].
  apply bool_decide_eq_true in Hact.
  change (Match_get mid (set_active_matches w ?x)) with (Match_get mid w).
  destruct (Match_get mid w) as [m0|] eqn:Hm0.
  2:{ simpl. apply (final_append w _ []); simpl; [by rewrite app_nil_r|done| |done].
      intros mid' st'. destruct (decide (mid' = mid)) as [->|Hne].
      - rewrite lookup_insert_eq. by intros [= <-].
      - rewrite lookup_insert_ne by done. eauto. }
  assert (Hopen : status m0 ≠ completed).
  { intros Hc. by apply (Hw mid m0 st). }
  fold (closed_row now win res m0).
  set (w0 := set_users _ _).
  assert (Hshape : ∀ r : World * list Emit,
    (∃ extra, matches r.1 = matches w0 ++ extra
              ∧ Forall (λ m, status m ≠ completed) extra)
    ∧ active_matches r.1 = active_matches w0 →
    results_closed (set_active_matches r.1 (delete mid (active_matches r.1)))
    ∧ keeps_results w
        (set_active_matches r.1 (delete mid (active_matches r.1)))).
  { intros r [(extra & Hms & Hall) Ham].
    assert (Hmid : 1 ≤ mid ∧ (Z.to_nat (mid - 1) < length (matches w))%nat).
    { unfold Match_get in Hm0. case_bool_decide; [|done].
      split; [done|]. by eapply lookup_lt_Some. }
    assert (Hother : ∀ mid' m,
      mid' ≠ mid →
      Match_get mid' (set_active_matches r.1 (delete mid (active_matches r.1)))
      = Some m →
      Match_get mid' w = Some m ∨ m ∈ extra).
    { intros mid' m Hne. unfold Match_get. simpl. rewrite Hms. simpl.
      case_bool_decide; [|done].
      intros [Hm|[_ Hm]]%lookup_app_Some.
      - left. rewrite list_lookup_insert_ne in Hm by lia. done.
      - right. by eapply list_elem_of_lookup_2. }
    split.
    - intros mid' m st' Hm Hs. simpl. rewrite Ham. simpl.
      destruct (decide (mid' = mid)) as [->|Hne];
        [by rewrite lookup_delete_eq|].
      rewrite lookup_delete_ne, lookup_insert_ne by done. intros Hst'.
      destruct (Hother _ _ Hne Hm) as [Hm'|Hin].
      + by apply (Hw mid' m st').
      + rewrite Forall_forall in Hall. by destruct (Hall m Hin).
    - intros mid' m Hm Hs.
      assert (Hne : mid' ≠ mid) by (intros ->; congruence).
      unfold Match_get in *. simpl. rewrite Hms. simpl.
      case_bool_decide; [|done].
      rewrite lookup_app_l.
      + rewrite list_lookup_insert_ne by lia. done.
      + rewrite length_insert. by eapply lookup_lt_Some. }
  destruct (bool_decide (ms_room_code st = "")); simpl;
    [|destruct (dict_get _ _) as [room|]; simpl].
  2:{ destruct (bool_decide (round_name _ = "Friendly")); simpl.
      - match goal with
        | |- context [set_rooms w0 ?r] =>
          apply (Hshape (set_rooms w0 r, []))
        end.
        split; [|done]. exists []. by rewrite app_nil_r.
      - match goal with
        | |- context [check_round_complete ?s ?n ?c ?x] =>
          pose proof (check_round_complete_rows s n c x)
            as (extra & Hms & Hall & Ham);
          destruct (check_round_complete s n c x) as [w1 o3]
        end.
        simpl in *. apply (Hshape (w1, [])). split; [by exists extra|done]. }
  all: apply (Hshape (w0, [])); split; [|done]; exists [];
    by rewrite app_nil_r.
Qed.

Lemma final_report w mid st st' :
  active_matches w !! mid = Some st → ms_status st' = ms_status st →
  results_closed w →
  results_closed
    (set_active_matches w (<[mid := st']> (active_matches w)))
  ∧ keeps_results w
      (set_active_matches w (<[mid := st']> (active_matches w))).
Proof.
  intros Hst Hsame. apply (final_append w _ []); simpl;
    [by rewrite app_nil_r|done|].
  intros mid' st0. destruct (decide (mid' = mid)) as [->|Hne].
  - rewrite lookup_insert_eq. intros [= <-] Hact. exists st. split; congruence.
  - rewrite lookup_insert_ne by done. eauto.
Qed.

Lemma terminate_final shuffle now mid t w :
  results_closed w →
  results_closed (terminate shuffle now mid t w).1
  ∧ keeps_results w (terminate shuffle now mid t w).1.
Proof.
  destruct t as [wt bt u|res win u|u]; simpl;
    unfold on_update_timer, on_game_over, on_resign;
    (destruct (active_matches w !! mid) as [st|] eqn:Hst;
       [|by apply final_same]);
    (destruct (bool_decide (ms_status st = active)); simpl;
       [|by apply final_same]).
  - destruct (bool_decide (u = Some (white st))); simpl;
      [|by apply final_same].
    pose proof (final_report w mid st (ms_set_times wt bt st) Hst eq_refl)
      as Hrep.
    repeat case_bool_decide; try done;
      (eapply final_trans; [exact Hrep|]);
      by apply handle_match_end_final.
  - destruct (bool_decide _); simpl; [|by apply final_same].
    by apply handle_match_end_final.
  - destruct (bool_decide _); simpl; [|by apply final_same].
    by apply handle_match_end_final.
Qed.

Lemma on_make_move_final mid move fen_after username w :
  results_closed w →
  results_closed (on_make_move mid move fen_after username w).1
  ∧ keeps_results w (on_make_move mid move fen_after username w).1.
Proof.
  unfold on_make_move.
  destruct (active_matches w !! mid) as [st|] eqn:Hst; [|by apply final_same].
  repeat (case_match; simpl; try by apply final_same).
  all: by apply (final_report w mid st).
Qed.

Lemma deliver_final mid e w :
  results_closed w →
  results_closed (deliver mid e w).1 ∧ keeps_results w (deliver mid e w).1.
Proof.
  destruct e as [move fen_after u|sh nw t]; simpl;
    [apply on_make_move_final|apply terminate_final].
Qed.

Lemma open_session_final room_code tc room acc e :
  (∀ id m, be_match_id e = Some id → Match_get id acc.1 = Some m →
           status m ≠ completed) →
  (results_closed acc.1 →
   results_closed (open_session room_code tc room acc e).1
   ∧ keeps_results acc.1 (open_session room_code tc room acc e).1)
  ∧ ∀ id m, Match_get id (open_session room_code tc room acc e).1 = Some m →
      ∃ m0, Match_get id acc.1 = Some m0
            ∧ (m = m0 ∨ status m = active).
Proof.
  destruct acc as [w out]. unfold open_session. simpl. intros Hopen.
  destruct (bool_decide (be_status e = completed));
    [split; [by apply final_same|eauto]|].
  destruct (be_match_id e) as [mid|]; [|split; [by apply final_same|eauto]].
  simpl.
  change (Match_get mid (set_active_matches w ?x)) with (Match_get mid w).
  destruct (Match_get mid w) as [m0|] eqn:Hm0; simpl.
  - specialize (Hopen mid m0 eq_refl Hm0).
    assert (Hrow : ∀ id m,
      Match_get id
        (Match_put mid
           (mkMatch (tournament_id m0) (round_name m0) (white_player m0)
              (black_player m0) (winner m0) (result m0) (time_control m0)
              active (completed_at m0))
           (set_active_matches w
              (<[mid := mkMatchState room_code (be_white e) (be_black e) tc tc
                          turn_w start_fen active mid]> (active_matches w))))
      = Some m →
      ∃ m1, Match_get id w = Some m1 ∧ (m = m1 ∨ status m = active)).
    { intros id m. destruct (decide (id = mid)) as [->|Hne].
      - erewrite Match_get_put_eq by done. intros [= <-]. eauto.
      - erewrite Match_get_put_ne by done. eauto. }
    split; [|exact Hrow]. intros Hw. split.
    + intros id m st Hm Hs. simpl.
      destruct (Hrow _ _ Hm) as (m1 & Hm1 & [->|Hact]); [|congruence].
      destruct (decide (id = mid)) as [->|Hne]; [congruence|].
      rewrite lookup_insert_ne by done. by apply (Hw id m1).
    + intros id m Hm Hs.
      assert (id ≠ mid) by (intros ->; congruence).
      by erewrite Match_get_put_ne.
  - split; [|eauto]. intros Hw. split.
    + intros id m st Hm Hs. simpl.
      change (Match_get id (set_active_matches w ?x))
        with (Match_get id w) in Hm.
      destruct (decide (id = mid)) as [->|Hne]; [congruence|].
      rewrite lookup_insert_ne by done. by apply (Hw id m).
    + by intros id m Hm Hs.
Qed.

Lemma open_sessions_final room_code tc room br acc :
  (∀ id m, id ∈ entry_ids br → Match_get id acc.1 = Some m →
           status m ≠ completed) →
  results_closed acc.1 →
  results_closed (foldl (open_session room_code tc room) acc br).1
  ∧ keeps_results acc.1 (foldl (open_session room_code tc room) acc br).1.
Proof.
  revert acc. induction br as [|e br IH]; intros acc Hopen; simpl.
  - by apply final_same.
  - assert (Hhead : ∀ id m, be_match_id e = Some id →
                      Match_get id acc.1 = Some m → status m ≠ completed).
    { intros id m He. apply Hopen. unfold entry_ids. simpl. rewrite He.
      apply list_elem_of_here. }
    destruct (open_session_final room_code tc room acc e Hhead)
      as [Hstep Hrows].
    eapply final_trans; [exact Hstep|]. apply IH.
    intros id m Hid Hm. destruct (Hrows _ _ Hm) as (m0 & Hm0 & [->|Hact]).
    + apply (Hopen id m0); [|done]. unfold entry_ids. simpl.
      destruct (be_match_id e); [by apply list_elem_of_further|done].
    + congruence.
Qed.

Lemma on_start_tournament_final shuffle raw tc username w :
  results_closed w →
  results_closed (world_after (on_start_tournament shuffle raw tc username w))
  ∧ keeps_results w
      (world_after (on_start_tournament shuffle raw tc username w)).
Proof.
  unfold on_start_tournament.
  destruct (truthy username); simpl; [|by apply final_same].
  destruct (dict_get (upper raw) (rooms w)) as [room|] eqn:Hroom;
    [|by apply final_same].
  repeat (case_bool_decide; simpl; try by apply final_same).
  destruct (tournaments w !! r_tournament_id room) as [t|];
    [|by apply final_same].
  set (rn := get_round_name _). set (pairs := generate_bracket _ _).
  pose proof (seat_pairs_pending (r_tournament_id room) rn tc pairs (matches w))
    as (extra & Hms & Hall).
  pose proof (seat_pairs_seated (r_tournament_id room) rn tc pairs (matches w))
    as (_ & _ & Hseated & _).
  destruct (seat_pairs _ _ _ _ _) as [ms br]. simpl in *.
  match goal with
  | |- context [foldl ?f (?w1, ?o1) br] =>
    pose proof (open_sessions_final (upper raw) tc
                  (room_set_bracket br
                     (room_set_default_time tc (room_set_status active room)))
                  br (w1, o1)) as Hfold;
    destruct (foldl f (w1, o1) br) as [w2 out2]
  end.
  simpl in *. eapply final_trans; [|apply Hfold].
  - apply (final_append w _ extra); simpl; [done|done|eauto].
  - intros id m [e [He Hid]]%list_elem_of_omap Hm.
    apply list_elem_of_lookup_1 in He as [i He].
    destruct (Forall2_lookup_r _ _ _ _ _ Hseated He) as (p & Hp & Hs).
    unfold seated in Hs. case_bool_decide.
    + subst e. done.
    + destruct Hs as (id' & -> & Hrange & Hrow). simpl in Hid.
      injection Hid as ->. unfold Match_get in Hm. simpl in Hm.
      rewrite bool_decide_eq_true_2 in Hm by lia.
      rewrite Hrow in Hm. by injection Hm as <-.
Qed.

Lemma on_match_response_final raw requester accepted username w :
  results_closed w →
  results_closed (on_match_response raw requester accepted username w).1
  ∧ keeps_results w (on_match_response raw requester accepted username w).1.
Proof.
  unfold on_match_response.
  destruct username as [u|]; [|by apply final_same].
  case_bool_decide; [by apply final_same|].
  destruct (dict_get (upper raw) (rooms w)) as [room|]; [|by apply final_same].
  destruct (dict_get (requester, u) (match_requests room)) as [tc|];
    [|by apply final_same].
  destruct accepted; simpl; [|by apply final_same].
  intros Hw. split.
  - intros mid m st. unfold Match_get. simpl. case_bool_decide; [|done].
    intros [Hm|[Hlen Hm]]%lookup_app_Some Hs.
    + rewrite lookup_insert_ne.
      * apply (Hw mid m st); [|done]. unfold Match_get.
        by rewrite bool_decide_eq_true_2.
      * apply lookup_lt_Some in Hm. lia.
    + apply list_lookup_singleton_Some in Hm as [_ <-]. done.
  - intros mid m Hm Hs. apply (Match_get_extend mid w); [|done].
    by eexists.
Qed.

Lemma serve_final w q :
  results_closed w → results_closed (serve w q) ∧ keeps_results w (serve w q).
Proof.
  destruct q; simpl.
  - unfold create_room. repeat case_match; simplify_eq; by apply final_same.
  - apply final_same; unfold on_join_room; by repeat case_match.
  - apply final_same; unfold on_disconnect; by repeat case_match.
  - apply final_same; unfold on_remove_player; by repeat case_match.
  - apply final_same; unfold on_match_request; by repeat case_match.
  - apply on_match_response_final.
  - apply on_start_tournament_final.
  - apply deliver_final.
  - unfold on_force_next_round. repeat case_match; simpl;
      try (by apply final_same). apply check_round_complete_final.
Qed.

(** X13: Results are final: from a state in which no completed [Match] row
    has an active session, every sequence of requests leads to such a
    state again, and every row that was completed is still the same row
    afterwards: winner, result and completion time are never rewritten,
    whatever is requested later (a second start of the tournament
    included). *)
Theorem results_are_final qs w :
  results_closed w →
  results_closed (serve_all qs w) ∧ keeps_results w (serve_all qs w).
Proof.
  unfold serve_all. revert w. induction qs as [|q qs IH]; intros w; simpl.
  - by apply final_same.
  - eapply final_trans; [apply serve_final|apply IH].
Qed.

Lemma results_are_final_witness :
  results_closed
    (serve_all [req_start_tournament keep_order "room01" 300 (Some "alice");
                req_match 2 (move_event (Some pawn_move) "fen-1"
                               (Some "alice"))]
       world_two_finished)
  ∧ keeps_results world_two_finished
      (serve_all [req_start_tournament keep_order "room01" 300 (Some "alice");
                  req_match 2 (move_event (Some pawn_move) "fen-1"
                                 (Some "alice"))]
         world_two_finished).
Proof.
  apply (results_are_final
           [req_start_tournament keep_order "room01" 300 (Some "alice");
            req_match 2 (move_event (Some pawn_move) "fen-1" (Some "alice"))]
           world_two_finished).
  intros mid m st Hm Hs Hst. vm_compute in Hst. discriminate.
Defined.

(** ** The counters only grow *)

Lemma grows_refl u : grows u u.
Proof. unfold grows. by split_and!. Qed.

Lemma users_grow_refl us : users_grow us us.
Proof. intros name. destruct (us !! name); [apply grows_refl|done]. Qed.

Lemma users_grow_trans us1 us2 us3 :
  users_grow us1 us2 → users_grow us2 us3 → users_grow us1 us3.
Proof.
  intros H12 H23 name. specialize (H12 name). specialize (H23 name).
  destruct (us1 !! name), (us2 !! name), (us3 !! name); try done.
  destruct H12 as (?&?&?&?&?&?&?&?), H23 as (?&?&?&?&?&?&?&?).
  unfold grows, uncounted in *. split_and!; [congruence|lia..].
Qed.

Lemma users_grow_alter (f : User → User) k (us : gmap string User) :
  (∀ u, grows u (f u)) → users_grow us (alter f k us).
Proof.
  intros Hf name. rewrite lookup_alter. case_decide; [subst|].
  - destruct (us !! name); [apply Hf|done].
  - destruct (us !! name); [apply grows_refl|done].
Qed.

Lemma lookup_alter_fmap (f : User → User) k (us : gmap string User) name :
  alter f k us !! name
  = (if decide (k = name) then f else Datatypes.id) <$> (us !! name).
Proof.
  rewrite lookup_alter. case_decide; [by subst|]. by destruct (us !! name).
Qed.

Ltac grown_rows Hn :=
  rewrite !lookup_alter_fmap, Hn; simpl;
  repeat case_decide; unfold grows, uncounted; simpl;
  try done; split_and!; try done; lia.

Lemma update_player_stats_grows m win res us :
  users_grow us (update_player_stats m win res us).
Proof.
  intros name. unfold update_player_stats.
  destruct (us !! white_player m) as [wu|] eqn:Hw;
    [|destruct (us !! name); [apply grows_refl|done]].
  destruct (us !! black_player m) as [bu|] eqn:Hb;
    [|destruct (us !! name); [apply grows_refl|done]].
  destruct (us !! name) as [u|] eqn:Hn;
    (destruct (bool_decide (res = "draw")); [grown_rows Hn|]);
    (destruct (bool_decide (win = Some (white_player m)));
     [destruct (alter _ _ _ !! white_player m);
        [destruct (alter _ _ _ !! black_player m)|];
        [destruct (calculate_elo _ _)|..]; grown_rows Hn|]);
    (destruct (bool_decide (win = Some (black_player m))); [|grown_rows Hn]);
    (destruct (alter _ _ _ !! black_player m);
       [destruct (alter _ _ _ !! white_player m)|];
       [destruct (calculate_elo _ _)|..]; grown_rows Hn).
Qed.

Lemma users_grow_played_loop names (us : gmap string User) :
  users_grow us
    (foldl (λ us u, alter user_inc_tournaments_played u us) us names).
Proof.
  revert us. induction names as [|u names IH]; intros us;
    [apply users_grow_refl|].
  simpl. eapply users_grow_trans; [|apply IH].
  apply users_grow_alter. intros ?. unfold grows, uncounted. simpl.
  split_and!; try done; lia.
Qed.

Lemma check_round_complete_grows shuffle now room_code w :
  users_grow (users w) (users (check_round_complete shuffle now room_code w).1).
Proof.
  unfold check_round_complete.
  destruct (dict_get room_code (rooms w)) as [room|];
    [|apply users_grow_refl].
  destruct (tournaments w !! r_tournament_id room) as [t|];
    [|apply users_grow_refl].
  destruct (negb (bool_decide (t_status t = active)));
    [apply users_grow_refl|].
  destruct (negb (forallb _ _)); [apply users_grow_refl|].
  destruct (collect_winners _) as [|champion [|second rest]]; simpl.
  - destruct (seat_pairs _ _ _ _ _). apply users_grow_refl.
  - eapply users_grow_trans; [|apply users_grow_played_loop].
    apply users_grow_alter. intros ?. unfold grows, uncounted. simpl.
    split_and!; try done; lia.
  - destruct (seat_pairs _ _ _ _ _). apply users_grow_refl.
Qed.

Lemma handle_match_end_grows shuffle now mid win res w :
  users_grow (users w) (users (handle_match_end shuffle now mid win res w).1).
Proof.
  unfold handle_match_end.
  destruct (active_matches w !! mid) as [st|]; [|apply users_grow_refl].
  destruct (bool_decide (ms_status st = active)); simpl;
    [|apply users_grow_refl].
  destruct (Match_get mid _) as [m0|]; simpl; [|apply users_grow_refl].
  set (w0 := set_users _ _).
  assert (H0 : users_grow (users w) (users w0))
    by apply update_player_stats_grows.
  destruct (bool_decide (ms_room_code st = "")); simpl; [exact H0|].
  destruct (dict_get (ms_room_code st) _) as [room|]; simpl;
    [|exact H0].
  destruct (bool_decide (round_name _ = "Friendly")); simpl; [exact H0|].
  match goal with
  | |- context [check_round_complete ?s ?n ?c ?x] =>
    pose proof (check_round_complete_grows s n c x) as Hk;
    destruct (check_round_complete s n c x) as [w1 o3]
  end.
  simpl in *. by eapply users_grow_trans.
Qed.

Lemma terminate_grows shuffle now mid t w :
  users_grow (users w) (users (terminate shuffle now mid t w).1).
Proof.
  destruct t; unfold terminate, on_update_timer, on_game_over, on_resign;
    (destruct (active_matches w !! mid) as [st|]; [|apply users_grow_refl]);
    repeat (case_bool_decide; simpl; try apply users_grow_refl);
    try apply handle_match_end_grows.
  all: match goal with
       | |- context [handle_match_end ?s ?n ?i ?a ?b ?x] =>
         apply (handle_match_end_grows s n i a b x)
       end.
Qed.

Lemma open_sessions_users room_code tc room br acc :
  users (foldl (open_session room_code tc room) acc br).1 = users acc.1.
Proof.
  revert acc. induction br as [|e br IH]; intros acc; [done|].
  simpl. rewrite IH. destruct acc as [w out]. unfold open_session.
  destruct (bool_decide (be_status e = completed)); [done|].
  destruct (be_match_id e) as [mid|]; [|done].
  simpl. by destruct (Match_get mid _).
Qed.

Lemma serve_grows w q : users_grow (users w) (users (serve w q)).
Proof.
  destruct q; simpl.
  - unfold create_room. repeat case_match; simplify_eq;
      apply users_grow_refl.
  - unfold on_join_room. repeat case_match; apply users_grow_refl.
  - unfold on_disconnect. repeat case_match; apply users_grow_refl.
  - unfold on_remove_player. repeat case_match; apply users_grow_refl.
  - unfold on_match_request. repeat case_match; apply users_grow_refl.
  - unfold on_match_response. repeat case_match; apply users_grow_refl.
  - unfold on_start_tournament.
    repeat case_match; simpl; try apply users_grow_refl.
    match goal with
    | H : foldl (open_session ?c ?t ?r) ?acc ?br = (?w2, _) |- _ =>
      pose proof (open_sessions_users c t r br acc) as Hu;
      rewrite H in Hu; simpl in Hu; rewrite Hu
    end.
    apply users_grow_refl.
  - destruct e as [move fen_after u|sh nw t]; simpl;
      [|apply terminate_grows].
    destruct (on_make_move_tables match_id move fen_after u w)
      as (_ & -> & _).
    apply users_grow_refl.
  - unfold on_force_next_round. repeat case_match; simpl;
      try apply users_grow_refl. apply check_round_complete_grows.
Qed.

(** X12: The counters of the users table only grow: after any sequence of
    requests the table has rows for the same names, every row keeps its
    name, and none of matches, wins, losses, draws, tournaments played and
    tournament wins is lower than before; the matches counted neither as
    win, loss nor draw do not get fewer either, so a table in which wins,
    losses and draws add up to at most the matches played stays so. *)
Theorem counters_only_grow qs w :
  users_grow (users w) (users (serve_all qs w)).
Proof.
  unfold serve_all. revert w. induction qs as [|q qs IH]; intros w; simpl.
  - apply users_grow_refl.
  - eapply users_grow_trans; [apply serve_grows|apply IH].
Qed.

(** ** A tournament of two *)

Lemma generate_bracket_two shuffle a b :
  (∀ l, shuffle l ≡ₚ l) →
  generate_bracket shuffle [a; b] = [(a, b)]
  ∨ generate_bracket shuffle [a; b] = [(b, a)].
Proof.
  intros Hp. unfold generate_bracket. rewrite pair_consecutive_pair_up.
  pose proof (Hp [a; b]) as H. symmetry in H.
  apply Permutation_length_2_inv in H as [-> | ->]; [by left|by right].
Qed.

Lemma insert_snoc {A} (l : list A) (x y : A) :
  <[length l := y]> (l ++ [x]) = l ++ [y].
Proof.
  rewrite insert_app_r_alt by lia. by rewrite Nat.sub_diag.
Qed.

Lemma Match_rows_snoc w ms m :
  matches w = ms ++ [m] →
  Match_rows w
  = imap (λ i m, (Z.of_nat i + 1, m)) ms ++ [(Z.of_nat (length ms) + 1, m)].
Proof.
  unfold Match_rows. intros ->. rewrite imap_app. simpl.
  by rewrite Nat.add_0_r.
Qed.

Lemma filter_round_none tid rn (ms : list Match) (f : nat → Match → Z * Match) :
  (∀ i m, (f i m).2 = m) →
  (∀ m, m ∈ ms → ¬ (tournament_id m = tid ∧ round_name m = rn)) →
  List.filter (λ r : Z * Match, bool_decide (tournament_id r.2 = tid) &&
                                bool_decide (round_name r.2 = rn))
    (imap f ms) = [].
Proof.
  revert f. induction ms as [|m ms IH]; intros f Hf Hall; [done|]. simpl.
  rewrite Hf.
  assert (bool_decide (tournament_id m = tid) && bool_decide (round_name m = rn)
          = false) as ->.
  { apply andb_false_iff.
    destruct (decide (tournament_id m = tid)) as [Ht|Ht];
      [right|left; by apply bool_decide_eq_false].
    apply bool_decide_eq_false. intros Hr.
    by apply (Hall m (list_elem_of_here _ _)). }
  apply IH.
  - intros i m'. apply Hf.
  - intros m' Hm'. apply Hall. by apply list_elem_of_further.
Qed.

Lemma Match_filter_by_round_snoc tid rn w ms m :
  matches w = ms ++ [m] →
  (∀ m', m' ∈ ms → ¬ (tournament_id m' = tid ∧ round_name m' = rn)) →
  tournament_id m = tid → round_name m = rn →
  Match_filter_by_round tid rn w = [(Z.of_nat (length ms) + 1, m)].
Proof.
  intros Hms Hall Ht Hr. unfold Match_filter_by_round.
  rewrite (Match_rows_snoc _ _ _ Hms), List.filter_app.
  rewrite filter_round_none by done. simpl.
  by rewrite !bool_decide_eq_true_2.
Qed.

(** The last row of the table is the only row of the tournament's
    current round, its session is active, and one of its two players
    resigns. *)
Lemma final_resigned shuffle now code w room t ms m0 st quitter :
  code ≠ "" →
  room_of code w = Some room →
  tournaments w !! r_tournament_id room = Some t →
  t_status t = active →
  matches w = ms ++ [m0] →
  tournament_id m0 = r_tournament_id room →
  round_name m0 = current_round t →
  current_round t ≠ "Friendly" →
  (∀ m, m ∈ ms → ¬ (tournament_id m = r_tournament_id room
                     ∧ round_name m = current_round t)) →
  let id := Z.of_nat (length ms) + 1 in
  active_matches w !! id = Some st →
  ms_status st = active → ms_room_code st = code →
  quitter = white st ∨ quitter = black st →
  let champion :=
    if bool_decide (Some quitter = Some (white st))
    then black st else white st in
  champion ≠ "" → champion ≠ BYE →
  let w' := (on_resign shuffle now id (Some quitter) w).1 in
  tournaments w' !! r_tournament_id room
  = Some (mkTournament (t_room_code t) (admin_username t) completed
            (Some now) (participants t) (Some champion) (current_round t)
            (rounds t))
  ∧ r_status <$> room_of code w' = Some completed
  ∧ active_matches w' !! id = None
  ∧ matches w' = ms ++ [closed_row now (Some champion) "resignation" m0].
Proof.
  intros Hcode Hroom Ht Hact Hms Htid Hrn Hfr Hold id Hst Hsact Hscode Hq
    champion Hc1 Hc2.
  assert (Hidx : Z.to_nat (id - 1) = length ms) by (unfold id; lia).
  assert (Hm0 : Match_get id w = Some m0).
  { unfold Match_get. rewrite bool_decide_eq_true_2 by (unfold id; lia).
    rewrite Hidx, Hms. by apply list_lookup_middle. }
  unfold room_of in *.
  unfold on_resign. rewrite Hst, (bool_decide_eq_true_2 _ Hsact). simpl.
  rewrite bool_decide_eq_true_2
    by (destruct Hq as [-> | ->]; [by left|by right]).
  simpl. fold champion.
  unfold handle_match_end. rewrite Hst, (bool_decide_eq_true_2 _ Hsact).
  simpl.
  change (Match_get id (set_active_matches w ?x)) with (Match_get id w).
  rewrite Hm0. fold (closed_row now (Some champion) "resignation" m0).
  rewrite Hscode, (bool_decide_eq_false_2 _ Hcode). simpl.
  rewrite Hroom. simpl.
  rewrite <- Hrn in Hfr. rewrite (bool_decide_eq_false_2 _ Hfr). simpl.
  set (us := update_player_stats _ _ _ _).
  set (room1 := room_set_bracket _ room).
  set (w3 := set_rooms _ _).
  assert (Hms3 : matches w3
                 = ms ++ [closed_row now (Some champion) "resignation" m0]).
  { subst w3. simpl. rewrite Hidx, Hms. apply insert_snoc. }
  assert (Hrows : Match_filter_by_round (r_tournament_id room)
                    (current_round t) w3
                  = [(id, closed_row now (Some champion) "resignation" m0)]).
  { by apply Match_filter_by_round_snoc. }
  unfold check_round_complete.
  assert (Hroom3 : dict_get code (rooms w3) = Some room1)
    by apply dict_get_set_eq.
  rewrite Hroom3.
  change (r_tournament_id room1) with (r_tournament_id room).
  change (tournaments w3) with (tournaments w).
  rewrite Ht, (bool_decide_eq_true_2 _ Hact). simpl negb. cbv iota.
  rewrite Hrows.
  assert (Hwin : collect_winners
                   [(id, closed_row now (Some champion) "resignation" m0)]
                 = [champion]).
  { unfold collect_winners. simpl.
    by rewrite !bool_decide_eq_false_2. }
  rewrite Hwin. simpl. split_and!.
  - apply lookup_insert_eq.
  - by rewrite dict_get_set_eq.
  - apply lookup_delete_eq.
  - exact Hms3.
Qed.

(** The state a start leaves for a room of two players. *)
Lemma start_two_players shuffle raw tc w room t a b sa sb :
  (∀ l, shuffle l ≡ₚ l) →
  room_of (upper raw) w = Some room →
  players room = [(a, sa); (b, sb)] →
  admin room ≠ "" → a ≠ BYE → b ≠ BYE →
  tournaments w !! r_tournament_id room = Some t →
  let w1 := world_after (on_start_tournament shuffle raw tc
                           (Some (admin room)) w) in
  let id := Z.of_nat (length (matches w)) + 1 in
  ∃ x y room1 t1,
    ((x, y) = (a, b) ∨ (x, y) = (b, a))
    ∧ room_of (upper raw) w1 = Some room1
    ∧ r_tournament_id room1 = r_tournament_id room
    ∧ tournaments w1 !! r_tournament_id room = Some t1
    ∧ t_status t1 = active ∧ current_round t1 = "Final"
    ∧ participants t1 = [a; b]
    ∧ matches w1
      = matches w ++ [mkMatch (r_tournament_id room) "Final" x y None None tc
                        active None]
    ∧ active_matches w1 !! id
      = Some (mkMatchState (upper raw) x y tc tc turn_w start_fen active id).
Proof.
  intros Hp Hroom Hpl Hadm Ha Hb Ht w1 id. subst w1.
  unfold room_of in *. unfold on_start_tournament.
  assert (Htr : truthy (Some (admin room)) = true).
  { simpl. by rewrite bool_decide_eq_false_2. }
  rewrite Htr, Hroom. simpl.
  rewrite (bool_decide_eq_true_2 (Some (admin room) = Some (admin room)))
    by done.
  simpl. unfold dict_keys. rewrite Hpl. simpl. rewrite Ht.
  assert (Hidx : Z.to_nat (id - 1) = length (matches w)) by (unfold id; lia).
  change (get_round_name 2) with "Final".
  assert (Hrow : ∀ x y w0,
    matches w0 = matches w ++ [mkMatch (r_tournament_id room) "Final" x y
                                 None None tc pending None] →
    Match_get id w0
    = Some (mkMatch (r_tournament_id room) "Final" x y None None tc pending
              None)).
  { intros x y w0 Hms. unfold Match_get.
    rewrite bool_decide_eq_true_2 by (unfold id; lia).
    rewrite Hidx, Hms. by apply list_lookup_middle. }
  destruct (generate_bracket_two shuffle a b Hp) as [Hg|Hg]; rewrite Hg;
    [exists a, b|exists b, a].
  - unfold seat_pairs. simpl.
    rewrite (bool_decide_eq_false_2 (b = BYE)) by done. simpl. fold id.
    erewrite (Hrow a b) by done. simpl.
    eexists _, _. split_and!.
    + by left.
    + apply dict_get_set_eq.
    + done.
    + apply lookup_insert_eq.
    + done.
    + done.
    + done.
    + rewrite Hidx. apply insert_snoc.
    + apply lookup_insert_eq.
  - unfold seat_pairs. simpl.
    rewrite (bool_decide_eq_false_2 (a = BYE)) by done. simpl. fold id.
    erewrite (Hrow b a) by done. simpl.
    eexists _, _. split_and!.
    + by right.
    + apply dict_get_set_eq.
    + done.
    + apply lookup_insert_eq.
    + done.
    + done.
    + done.
    + rewrite Hidx. apply insert_snoc.
    + apply lookup_insert_eq.
Qed.



(** * The rating engine in floating point *)

Lemma py_round_near (x : R) :
  (x - 1 / 2 <= IZR (py_round x) <= x + 1 / 2)%R.
Proof.
  pose proof (Zfloor_bound x) as [Hlo Hhi]. unfold py_round.
  repeat destruct (Rlt_dec _ _); try destruct (Z.even _);
    rewrite ?plus_IZR; lra.
Qed.

Lemma py_round_nearest (n : Z) (x : R) :
  (IZR n - 1 / 2 < x < IZR n + 1 / 2)%R → py_round x = n.
Proof.
  intros [Hlo Hhi]. pose proof (py_round_near x) as [H1 H2].
  assert (n - 1 < py_round x)%Z by (apply lt_IZR; rewrite minus_IZR; lra).
  assert (py_round x < n + 1)%Z by (apply lt_IZR; rewrite plus_IZR; lra).
  lia.
Qed.

Lemma elo_formula_equal (r : Z) : elo_formula r r = (r + 16, r - 16).
Proof.
  unfold elo_formula.
  replace ((IZR r - IZR r) / 400)%R with 0%R by lra.
  rewrite Rpower_O by lra.
  replace (IZR r + 32 * (1 - 1 / (1 + 1)))%R with (IZR (r + 16))
    by (rewrite plus_IZR; lra).
  replace (IZR r - 32 * (1 - 1 / (1 + 1)))%R with (IZR (r - 16))
    by (rewrite minus_IZR; lra).
  by rewrite !py_round_IZR.
Qed.

Lemma sqrt_10_bounds : (3.1622 < sqrt 10 < 3.1623)%R.
Proof.
  assert (H0 : (0 <= sqrt 10)%R) by apply sqrt_pos.
  assert (H1 : (sqrt 10 * sqrt 10 = 10)%R) by (apply sqrt_sqrt; lra).
  split; nra.
Qed.

Lemma Rpower_10_half : Rpower 10 (1 / 2) = sqrt 10.
Proof.
  replace (1 / 2)%R with (/ 2)%R by lra. apply Rpower_sqrt. lra.
Qed.

Lemma gain_favourite :
  (7.68 < 32 * (1 - 1 / (1 + Rpower 10 (- (1 / 2)))) < 7.70)%R.
Proof.
  rewrite Rpower_Ropp, Rpower_10_half.
  pose proof sqrt_10_bounds as [Hlo Hhi].
  set (s := sqrt 10) in *.
  replace (32 * (1 - 1 / (1 + / s)))%R with (32 / (s + 1))%R
    by (field; lra).
  split.
  - apply (Rmult_lt_reg_r (s + 1)); [lra|].
    replace (32 / (s + 1) * (s + 1))%R with 32%R by (field; lra). lra.
  - apply (Rmult_lt_reg_r (s + 1)); [lra|].
    replace (32 / (s + 1) * (s + 1))%R with 32%R by (field; lra). lra.
Qed.

Lemma gain_underdog :
  (24.30 < 32 * (1 - 1 / (1 + Rpower 10 (1 / 2))) < 24.32)%R.
Proof.
  rewrite Rpower_10_half.
  pose proof sqrt_10_bounds as [Hlo Hhi].
  set (s := sqrt 10) in *.
  replace (32 * (1 - 1 / (1 + s)))%R with (32 - 32 / (s + 1))%R
    by (field; lra).
  assert (7.68 < 32 / (s + 1) < 7.70)%R; [|lra].
  split.
  - apply (Rmult_lt_reg_r (s + 1)); [lra|].
    replace (32 / (s + 1) * (s + 1))%R with 32%R by (field; lra). lra.
  - apply (Rmult_lt_reg_r (s + 1)); [lra|].
    replace (32 / (s + 1) * (s + 1))%R with 32%R by (field; lra). lra.
Qed.

(** The formula 200 points apart. *)
Lemma elo_formula_favourite (r : Z) :
  elo_formula (r + 200) r = (r + 208, r - 8).
Proof.
  unfold elo_formula.
  replace ((IZR r - IZR (r + 200)) / 400)%R with (- (1 / 2))%R
    by (rewrite plus_IZR; lra).
  pose proof gain_favourite as Hx.
  f_equal; apply py_round_nearest;
    rewrite ?plus_IZR, ?minus_IZR; lra.
Qed.

Lemma elo_formula_underdog (r : Z) :
  elo_formula r (r + 200) = (r + 24, r + 176).
Proof.
  unfold elo_formula.
  replace ((IZR (r + 200) - IZR r) / 400)%R with (1 / 2)%R
    by (rewrite plus_IZR; lra).
  pose proof gain_underdog as Hx.
  f_equal; apply py_round_nearest;
    rewrite ?plus_IZR, ?minus_IZR; lra.
Qed.

(** The engine at equal ratings, for any [pow]. *)
Lemma calculate_elo_equal_table c_pow :
  Forall (λ r, Binary64.calculate_elo c_pow r r = Binary64.Ok (r + 16, r - 16))
    (Z.of_nat <$> seq 0 3001).
Proof. apply (bool_decide_unpack _). vm_compute. exact I. Qed.

Lemma in_rating_table (r : Z) :
  0 ≤ r ≤ 3000 → r ∈ Z.of_nat <$> seq 0 3001.
Proof.
  intros Hr. apply list_elem_of_fmap. exists (Z.to_nat r). split; [lia|].
  apply elem_of_seq. lia.
Qed.

Lemma calculate_elo_equal c_pow r :
  0 ≤ r ≤ 3000 →
  Binary64.calculate_elo c_pow r r = Binary64.Ok (r + 16, r - 16).
Proof.
  intros Hr. pose proof (calculate_elo_equal_table c_pow) as Hall.
  rewrite Forall_forall in Hall. by apply Hall, in_rating_table.
Qed.

(** Only the power at the exponent of the call matters. *)
Lemma calculate_elo_pow c_pow c_pow' winner_rating loser_rating y :
  Binary64.int_truediv (loser_rating - winner_rating) 400 = Binary64.Ok y →
  c_pow Binary64.ten y = c_pow' Binary64.ten y →
  Binary64.calculate_elo c_pow winner_rating loser_rating
  = Binary64.calculate_elo c_pow' winner_rating loser_rating.
Proof.
  intros Hy Hp. unfold Binary64.calculate_elo, Binary64.calculate_elo_k.
  rewrite Hy. cbn [mbind Binary64.Py_bind]. unfold Binary64.float_pow10.
  by rewrite Hp.
Qed.

(** The engine 200 points apart, for each power next to the true one. *)
Lemma calculate_elo_favourite_table :
  Forall (λ v,
    Forall (λ r, Binary64.calculate_elo (λ _ _, v) (r + 200) r
                 = Binary64.Ok (r + 208, r - 8))
      (Z.of_nat <$> seq 0 3001))
    Binary64.inv_sqrt10.
Proof. apply (bool_decide_unpack _). vm_compute. exact I. Qed.

Lemma calculate_elo_underdog_table :
  Forall (λ v,
    Forall (λ r, Binary64.calculate_elo (λ _ _, v) r (r + 200)
                 = Binary64.Ok (r + 24, r + 176))
      (Z.of_nat <$> seq 0 3001))
    Binary64.sqrt10.
Proof. apply (bool_decide_unpack _). vm_compute. exact I. Qed.

Lemma calculate_elo_favourite c_pow r :
  c_pow Binary64.ten Binary64.minus_half ∈ Binary64.inv_sqrt10 →
  0 ≤ r ≤ 3000 →
  Binary64.calculate_elo c_pow (r + 200) r = Binary64.Ok (r + 208, r - 8).
Proof.
  intros Hp Hr. pose proof calculate_elo_favourite_table as Hall.
  rewrite Forall_forall in Hall. specialize (Hall _ Hp).
  rewrite Forall_forall in Hall. rewrite <- (Hall r (in_rating_table r Hr)).
  apply (calculate_elo_pow _ _ _ _ Binary64.minus_half); [|done].
  replace (r - (r + 200)) with (-200) by lia. vm_compute. reflexivity.
Qed.

Lemma calculate_elo_underdog c_pow r :
  c_pow Binary64.ten Binary64.plus_half ∈ Binary64.sqrt10 →
  0 ≤ r ≤ 3000 →
  Binary64.calculate_elo c_pow r (r + 200) = Binary64.Ok (r + 24, r + 176).
Proof.
  intros Hp Hr. pose proof calculate_elo_underdog_table as Hall.
  rewrite Forall_forall in Hall. specialize (Hall _ Hp).
  rewrite Forall_forall in Hall. rewrite <- (Hall r (in_rating_table r Hr)).
  apply (calculate_elo_pow _ _ _ _ Binary64.plus_half); [|done].
  replace (r + 200 - r) with 200 by lia. vm_compute. reflexivity.
Qed.

Lemma calculate_elo_overflow c_pow :
  PrimFloat.is_infinity (c_pow Binary64.ten Binary64.five_hundred) = true →
  Binary64.calculate_elo c_pow 0 200000 = Binary64.Raise "OverflowError".
Proof.
  intros H. unfold Binary64.calculate_elo, Binary64.calculate_elo_k.
  assert (Hy : Binary64.int_truediv (200000 - 0) 400
               = Binary64.Ok Binary64.five_hundred) by (vm_compute; reflexivity).
  rewrite Hy. cbn [mbind Binary64.Py_bind]. unfold Binary64.float_pow10.
  assert (Hz : PrimFloat.eqb Binary64.five_hundred PrimFloat.zero = false)
    by (vm_compute; reflexivity).
  rewrite Hz. by rewrite H.
Qed.

Lemma calculate_elo_large c_pow :
  Binary64.calculate_elo c_pow (2 ^ 53 + 1) (2 ^ 53 + 1)
  = Binary64.Ok (2 ^ 53 + 16, 2 ^ 53 - 16).
Proof. vm_compute. reflexivity. Qed.

(** C8 (amended): the rating engine evaluates
    E = 1 / (1 + 10^((loser - winner) / 400)), winner + 32 (1 - E) and
    loser + 32 (0 - (1 - E)) in binary floating point and rounds each to
    the nearest integer, ties to even.  For ratings from 0 to 3000, and
    with the formula over the reals beside it: at equal ratings it
    returns what the formula gives, the rating plus 16 and the rating
    minus 16 (1216 and 1184 at 1200), whatever the library's [pow] is;
    200 points apart it returns what the formula gives, 8 points from the
    lower rated to the higher rated winner and 24 points from the higher
    rated to the lower rated winner, when [pow] returns the double
    nearest to the power or one next to it.  It is not the formula for
    every pair of integers: with a [pow] that returns an infinity on
    overflow, 0 against 200000 raises OverflowError, and at equal ratings
    of 2^53 + 1 the engine returns 2^53 + 16 and 2^53 - 16, where the
    formula gives one more each. *)
Theorem calculate_elo_binary64
    (c_pow : PrimFloat.float → PrimFloat.float → PrimFloat.float) :
  (∀ r, 0 ≤ r ≤ 3000 →
     Binary64.calculate_elo c_pow r r = Binary64.Ok (elo_formula r r)
     ∧ elo_formula r r = (r + 16, r - 16))
  ∧ (c_pow Binary64.ten Binary64.minus_half ∈ Binary64.inv_sqrt10 →
     ∀ r, 0 ≤ r ≤ 3000 →
       Binary64.calculate_elo c_pow (r + 200) r
       = Binary64.Ok (elo_formula (r + 200) r)
       ∧ elo_formula (r + 200) r = (r + 208, r - 8))
  ∧ (c_pow Binary64.ten Binary64.plus_half ∈ Binary64.sqrt10 →
     ∀ r, 0 ≤ r ≤ 3000 →
       Binary64.calculate_elo c_pow r (r + 200)
       = Binary64.Ok (elo_formula r (r + 200))
       ∧ elo_formula r (r + 200) = (r + 24, r + 176))
  ∧ (PrimFloat.is_infinity (c_pow Binary64.ten Binary64.five_hundred) = true →
     Binary64.calculate_elo c_pow 0 200000 = Binary64.Raise "OverflowError")
  ∧ (Binary64.calculate_elo c_pow (2 ^ 53 + 1) (2 ^ 53 + 1)
     = Binary64.Ok (2 ^ 53 + 16, 2 ^ 53 - 16)
     ∧ elo_formula (2 ^ 53 + 1) (2 ^ 53 + 1) = (2 ^ 53 + 17, 2 ^ 53 - 15)).
Proof.
  split_and!.
  - intros r Hr. rewrite elo_formula_equal. split; [|done].
    by apply calculate_elo_equal.
  - intros H r Hr. rewrite elo_formula_favourite. split; [|done].
    by apply calculate_elo_favourite.
  - intros H r Hr. rewrite elo_formula_underdog. split; [|done].
    by apply calculate_elo_underdog.
  - apply calculate_elo_overflow.
  - apply calculate_elo_large.
  - rewrite elo_formula_equal. f_equal; lia.
Qed.

Lemma calculate_elo_binary64_witness :
  Binary64.calculate_elo Binary64.pow_table (1000 + 200) 1000
  = Binary64.Ok (elo_formula (1000 + 200) 1000)
  ∧ elo_formula (1000 + 200) 1000 = (1000 + 208, 1000 - 8).
Proof.
  destruct (calculate_elo_binary64 Binary64.pow_table) as (_ & H & _).
  apply H; [|lia]. apply list_elem_of_further, list_elem_of_here.
Defined.

(** At equal ratings of 2^53 + 1 the engine returns 9007199254741008
    and 9007199254740976, the formula 9007199254741009 and
    9007199254740977; at 0 against 200000 the engine raises. *)
Lemma calculate_elo_above_2_53 :
  Binary64.calculate_elo Binary64.pow_table 9007199254740993 9007199254740993
  = Binary64.Ok (9007199254741008, 9007199254740976)
  ∧ elo_formula 9007199254740993 9007199254740993
    = (9007199254741009, 9007199254740977)
  ∧ Binary64.calculate_elo Binary64.pow_table 0 200000
    = Binary64.Raise "OverflowError".
Proof.
  split_and!.
  - vm_compute. reflexivity.
  - apply elo_formula_equal.
  - vm_compute. reflexivity.
Qed.

(** * Termination, once *)

(** ** What one termination writes *)

(** What the stats block leaves alone: a property of a [User] row that
    neither a counter nor a rating enters. *)
Lemma update_player_stats_field {A} (p : User → A) m win res
    (us : gmap string User) name :
  (∀ a b c d u, p (user_add a b c d u) = p u) →
  (∀ r u, p (user_set_elo r u) = p u) →
  p <$> (update_player_stats m win res us !! name) = p <$> (us !! name).
Proof.
  intros Hadd Helo. unfold update_player_stats.
  destruct (us !! white_player m); [|done].
  destruct (us !! black_player m); [|done].
  destruct (bool_decide (res = "draw"));
    [by rewrite !users_field_alter by done|].
  destruct (bool_decide (win = Some (white_player m))).
  { destruct (alter _ _ _ !! white_player m);
      [destruct (alter _ _ _ !! black_player m)|];
      [destruct (calculate_elo _ _)|..];
      by rewrite !users_field_alter by done. }
  destruct (bool_decide (win = Some (black_player m)));
    [|by rewrite !users_field_alter by done].
  destruct (alter _ _ _ !! black_player m);
    [destruct (alter _ _ _ !! white_player m)|];
    [destruct (calculate_elo _ _)|..];
    by rewrite !users_field_alter by done.
Qed.

(** [total_matches] after the stats block, for every user: one more for
    each side of the match the user is on. *)
Lemma update_player_stats_played m win res (us : gmap string User) wu bu name :
  us !! white_player m = Some wu → us !! black_player m = Some bu →
  total_matches <$> (update_player_stats m win res us !! name)
  = (λ u, total_matches u
          + (if bool_decide (name = white_player m) then 1 else 0)
          + (if bool_decide (name = black_player m) then 1 else 0))
      <$> (us !! name).
Proof.
  intros Hw Hb. unfold update_player_stats. rewrite Hw, Hb.
  assert (Hbase :
    total_matches <$>
      (alter (user_add 1 0 0 0) (black_player m)
         (alter (user_add 1 0 0 0) (white_player m) us) !! name)
    = (λ u, total_matches u
            + (if bool_decide (name = white_player m) then 1 else 0)
            + (if bool_decide (name = black_player m) then 1 else 0))
        <$> (us !! name)).
  { rewrite !lookup_alter_fmap.
    destruct (us !! name) as [u|]; [|done]. simpl.
    repeat case_decide; repeat case_bool_decide; subst; try done;
      simpl; f_equal; lia. }
  destruct (bool_decide (res = "draw")).
  { rewrite !(users_field_alter total_matches)
      by (intros; simpl; lia). exact Hbase. }
  destruct (bool_decide (win = Some (white_player m))).
  { destruct (alter _ _ _ !! white_player m);
      [destruct (alter _ _ _ !! black_player m)|];
      [destruct (calculate_elo _ _)|..];
      rewrite !(users_field_alter total_matches) by (intros; simpl; lia);
      exact Hbase. }
  destruct (bool_decide (win = Some (black_player m))); [|exact Hbase].
  destruct (alter _ _ _ !! black_player m);
    [destruct (alter _ _ _ !! white_player m)|];
    [destruct (calculate_elo _ _)|..];
    rewrite !(users_field_alter total_matches) by (intros; simpl; lia);
    exact Hbase.
Qed.

(** A termination that completes the tournament: with the row closed,
    every row of the current round is completed and there is one
    winner. *)
Lemma handle_match_end_champion shuffle now mid win res w st m room t champion :
  active_matches w !! mid = Some st → ms_status st = active →
  Match_get mid w = Some m →
  ms_room_code st ≠ "" →
  room_of (ms_room_code st) w = Some room →
  tournaments w !! r_tournament_id room = Some t →
  t_status t = active →
  round_name m ≠ "Friendly" →
  let closed := closed_row now win res m in
  (∀ r, r ∈ Match_filter_by_round (r_tournament_id room) (current_round t)
              (Match_put mid closed w) → status r.2 = completed) →
  collect_winners
    (Match_filter_by_round (r_tournament_id room) (current_round t)
       (Match_put mid closed w)) = [champion] →
  let w' := (handle_match_end shuffle now mid win res w).1 in
  tournaments w' !! r_tournament_id room
  = Some (mkTournament (t_room_code t) (admin_username t) completed
            (Some now) (participants t) (Some champion) (current_round t)
            (rounds t))
  ∧ r_status <$> room_of (ms_room_code st) w' = Some completed
  ∧ ∀ name,
      tournament_wins <$> (users w' !! name)
      = (λ u, tournament_wins u
              + (if bool_decide (name = champion) then 1 else 0))
          <$> (users w !! name).
Proof.
  intros Hst Hact Hm Hcode Hroom Ht Htact Hfr closed Hall Hwin w'.
  subst w'. unfold room_of in *. unfold handle_match_end.
  rewrite Hst, (bool_decide_eq_true_2 _ Hact). simpl.
  change (Match_get mid (set_active_matches w ?x)) with (Match_get mid w).
  rewrite Hm. fold (closed_row now win res m). fold closed.
  rewrite (bool_decide_eq_false_2 _ Hcode). simpl.
  rewrite Hroom. simpl.
  rewrite (bool_decide_eq_false_2 _ Hfr). simpl.
  set (us := update_player_stats _ _ _ _).
  set (room1 := room_set_bracket _ room).
  set (w3 := set_rooms _ _).
  unfold check_round_complete.
  assert (Hroom3 : dict_get (ms_room_code st) (rooms w3) = Some room1)
    by apply dict_get_set_eq.
  rewrite Hroom3.
  change (r_tournament_id room1) with (r_tournament_id room).
  change (tournaments w3) with (tournaments w).
  rewrite Ht, (bool_decide_eq_true_2 _ Htact). simpl negb. cbv iota.
  change (Match_filter_by_round (r_tournament_id room) (current_round t) w3)
    with (Match_filter_by_round (r_tournament_id room) (current_round t)
            (Match_put mid closed w)).
  rewrite (all_completed_forallb _ Hall), Hwin. simpl. split_and!.
  - apply lookup_insert_eq.
  - by rewrite dict_get_set_eq.
  - intros name.
    rewrite (users_field_played_loop tournament_wins) by done.
    rewrite lookup_alter_fmap.
    pose proof (update_player_stats_field tournament_wins closed win res
                  (users w) name (λ _ _ _ _ _, eq_refl) (λ _ _, eq_refl))
      as Hf.
    fold us in Hf.
    destruct (us !! name) as [u'|], (users w !! name) as [u|];
      simplify_eq/=; [|done].
    case_decide; case_bool_decide; subst; try done; simpl;
      f_equal; lia.
Qed.




(** X11: A termination whose result is not "draw" and whose winner is
    neither player (a stalemate reported without winner, say) writes no
    win, loss, draw or rating for anyone, and counts the match: with
    [User] rows for both sides, [total_matches] goes up by one for each
    side a user is on and stays for everyone else.  When a player's
    [User] row is missing, no counter of anyone changes, [total_matches]
    included. *)
Theorem unscored_termination shuffle now mid win res w st m0 :
  active_matches w !! mid = Some st → ms_status st = active →
  Match_get mid w = Some m0 →
  let us' := users (handle_match_end shuffle now mid win res w).1 in
  (res ≠ "draw" → win ≠ Some (white_player m0) →
   win ≠ Some (black_player m0) →
   (∀ name, score <$> (us' !! name) = score <$> (users w !! name))
   ∧ (∀ wu bu,
        users w !! white_player m0 = Some wu →
        users w !! black_player m0 = Some bu →
        ∀ name,
          total_matches <$> (us' !! name)
          = (λ u, total_matches u
                  + (if bool_decide (name = white_player m0) then 1 else 0)
                  + (if bool_decide (name = black_player m0) then 1 else 0))
              <$> (users w !! name)))
  ∧ (users w !! white_player m0 = None ∨ users w !! black_player m0 = None →
     ∀ name, tally <$> (us' !! name) = tally <$> (users w !! name)).
Proof.
  intros Hst Hact Hm us'. subst us'. split.
  - intros Hres Hw Hb. split.
    + intros name.
      rewrite (handle_match_end_users score _ _ _ _ _ _ st m0 _
                 (λ _, eq_refl) (λ _, eq_refl) Hst Hact Hm).
      by apply update_player_stats_other.
    + intros wu bu Hwu Hbu name.
      rewrite (handle_match_end_users total_matches _ _ _ _ _ _ st m0 _
                 (λ _, eq_refl) (λ _, eq_refl) Hst Hact Hm).
      apply (update_player_stats_played (closed_row now win res m0) win res
               (users w) wu bu name Hwu Hbu).
  - intros Hmiss name.
    rewrite (handle_match_end_users tally _ _ _ _ _ _ st m0 _
               tally_tournament_wins tally_tournaments_played Hst Hact Hm).
    by rewrite update_player_stats_missing.
Qed.

Lemma unscored_termination_witness :
  score <$>
    (users (handle_match_end keep_order 10 1 None "stalemate"
              world_two_started).1 !! "alice")
  = score <$> (users world_two_started !! "alice")
  ∧ total_matches <$>
      (users (handle_match_end keep_order 10 1 None "stalemate"
                world_two_started).1 !! "alice")
    = (λ u, total_matches u
            + (if bool_decide ("alice" = white_player row_1) then 1 else 0)
            + (if bool_decide ("alice" = black_player row_1) then 1 else 0))
        <$> (users world_two_started !! "alice").
Proof.
  destruct (unscored_termination keep_order 10 1 None "stalemate"
              world_two_started session_1 row_1) as (Hs & _).
  - vm_compute; reflexivity.
  - reflexivity.
  - vm_compute; reflexivity.
  - destruct Hs as [Hscore Hplayed]; [discriminate..|].
    split; [apply Hscore|].
    apply (Hplayed (new_user "alice") (new_user "bob"));
      vm_compute; reflexivity.
Defined.
